(** * edgeRec, [model/din]: the Deep Interest Network and its training loop

    A shallow embedding of [src/model/din/din.go].  The Go code builds a
    symbolic expression graph with the gorgonia API ([G.Mul], [G.Concat],
    ...), which a tape machine later evaluates on the values bound to the
    placeholders.  We follow that structure: [Node] is the expression graph,
    [shapeOf] the shape the backend infers when a node is created ([G.Must]
    panics when it cannot), and [eval] the value of a node once the leaves
    are bound.  Go's [float64] is Rocq's primitive binary64 [float]; Go's
    [int] is [Z] (every [int] of this file is a tensor dimension or an
    element count of a tensor held in memory, far below [2^63]). *)

From Stdlib Require Import List ZArith Lia Bool String Floats.
From Stdlib Require Import Decimal DecimalString DecimalPos DecimalZ.
Import ListNotations.

Set Warnings "-inexact-float,-register-all".
Local Open Scope Z_scope.

(** ** Results of Go code: return, [log.Fatal], or panic *)

Inductive error : Type :=
| ErrDimMismatch (uBehaviorDim iFeatureDim : Z)
    (* errors.Errorf("uBehaviorDim %d != iFeatureDim %d", ...) *)
| ErrBackend (what : string).

Inductive outcome (A : Type) : Type :=
| Ret (a : A)
| Fatal (e : error)     (* log.Fatalf / log.Fatal: the process exits *)
| Panic.                (* a Go panic: G.Must on an error, an index out of range, ... *)

Arguments Ret {A} a.
Arguments Fatal {A} e.
Arguments Panic {A}.

Definition bind {A B} (m : outcome A) (k : A -> outcome B) : outcome B :=
  match m with
  | Ret a => k a
  | Fatal e => Fatal e
  | Panic => Panic
  end.

Declare Scope go_scope.
Delimit Scope go_scope with go.
Notation "x <- m ;; k" := (bind m (fun x => k))
  (at level 61, m at next level, right associativity) : go_scope.
Local Open Scope go_scope.

Fixpoint mapM {A B} (f : A -> outcome B) (l : list A) : outcome (list B) :=
  match l with
  | [] => Ret []
  | a :: l' => b <- f a ;; bs <- mapM f l' ;; Ret (b :: bs)
  end.

Fixpoint foldM {A B} (f : A -> B -> outcome A) (l : list B) (a : A) : outcome A :=
  match l with
  | [] => Ret a
  | b :: l' => a' <- f a b ;; foldM f l' a'
  end.

(** [for i := 0; i < n; i++]: the values [i] takes. *)
Definition range (n : Z) : list Z := map Z.of_nat (seq 0 (Z.to_nat n)).

(** [s[i]] on a Go slice: out of range panics. *)
Definition index {A} (s : list A) (i : Z) : outcome A :=
  if i <? 0 then Panic
  else match nth_error s (Z.to_nat i) with
       | Some a => Ret a
       | None => Panic
       end.

(** ** The expression graph *)

Definition Shape := list Z.                 (* tensor.Shape = []int *)
Definition Value := list float.             (* row-major backing array *)

Inductive InitFn : Type :=
| NoInit                                    (* a placeholder, bound by G.Let *)
| Gaussian (mean stdev : float)
| Zeroes.

Inductive Slice : Type :=
| SAll                                      (* nil: the whole axis *)
| S1 (i : Z).                               (* G.S(i): one index, the axis is dropped *)

Inductive Op : Type :=
| opReshape (to : Shape)
| opConcat (axis : Z)
| opSlice (sl : list Slice)
| opMul
| opOuterProd
| opBroadcastHadamardProd (leftPattern rightPattern : list Z)
| opRectify
| opLeakyRelu (alpha : float)
| opDropout (prob : float)
| opSigmoid
| opAdd
| opSub
| opSquare
| opMean.

Inductive Node : Type :=
| Leaf (name : string) (shape : Shape) (init : InitFn)   (* G.NewMatrix, G.NewTensor *)
| App (op : Op) (args : list Node).

Definition Nodes := list Node.

(** ** Shapes *)

Definition zprod (sh : Shape) : Z := fold_right Z.mul 1 sh.
Definition size (sh : Shape) : nat := Z.to_nat (zprod sh).
Definition valid_shape (sh : Shape) : bool := forallb (fun d => 0 <=? d) sh.

Fixpoint shape_eqb (a b : Shape) : bool :=
  match a, b with
  | [], [] => true
  | x :: a', y :: b' => (x =? y) && shape_eqb a' b'
  | _, _ => false
  end.

Fixpoint all_some {A} (l : list (option A)) : option (list A) :=
  match l with
  | [] => Some []
  | None :: _ => None
  | Some a :: l' => option_map (cons a) (all_some l')
  end.

Fixpoint concat_shape (axis : nat) (a b : Shape) : option Shape :=
  match axis, a, b with
  | O, da :: ra, db :: rb =>
      if shape_eqb ra rb then Some ((da + db) :: ra) else None
  | S ax, da :: ra, db :: rb =>
      if da =? db then option_map (cons da) (concat_shape ax ra rb) else None
  | _, _, _ => None
  end.

Fixpoint slice_shape (sl : list Slice) (sh : Shape) : option Shape :=
  match sl, sh with
  | [], _ => Some sh
  | SAll :: sl', d :: sh' => option_map (cons d) (slice_shape sl' sh')
  | S1 i :: sl', d :: sh' =>
      if (0 <=? i) && (i <? d) then slice_shape sl' sh' else None
  | _ :: _, [] => None
  end.

(** The shape of an operand after broadcasting the axes listed in [pat]
    (each of size 1) to the sizes the other operand has there. *)
Fixpoint expand_shape (pat : list Z) (ax : Z) (from to : Shape) : option Shape :=
  match from, to with
  | [], [] => Some []
  | f :: from', t :: to' =>
      match expand_shape pat (ax + 1) from' to' with
      | None => None
      | Some r =>
          if existsb (Z.eqb ax) pat
          then (if f =? 1 then Some (t :: r) else None)
          else Some (f :: r)
      end
  | _, _ => None
  end.

(** The shape the backend infers for an operation, [None] when it rejects
    the operands.  [G.Mul] is modelled on matrices and [G.OuterProd] on
    vectors, the only operands [Fwd] gives them. *)
Definition inferShape (op : Op) (shs : list Shape) : option Shape :=
  match op, shs with
  | opReshape to, [s] =>
      if valid_shape to && (zprod s =? zprod to) then Some to else None
  | opConcat axis, s :: rest =>
      if axis <? 0 then None
      else fold_left (fun acc s' =>
                        match acc with
                        | Some a => concat_shape (Z.to_nat axis) a s'
                        | None => None
                        end) rest
                     (if (Z.to_nat axis <? List.length s)%nat then Some s else None)
  | opSlice sl, [s] => slice_shape sl s
  | opMul, [[m; k]; [k'; n]] => if k =? k' then Some [m; n] else None
  | opOuterProd, [[n]; [m]] => Some [n; m]
  | opBroadcastHadamardProd lp rp, [a; b] =>
      match expand_shape lp 0 a b, expand_shape rp 0 b a with
      | Some a', Some b' => if shape_eqb a' b' then Some a' else None
      | _, _ => None
      end
  | opRectify, [s] => Some s
  | opLeakyRelu _, [s] => Some s
  | opDropout _, [s] => Some s
  | opSigmoid, [s] => Some s
  | opSquare, [s] => Some s
  | opAdd, [a; b] => if shape_eqb a b then Some a else None
  | opSub, [a; b] => if shape_eqb a b then Some a else None
  | opMean, [s] => Some []
  | _, _ => None
  end.

(** [n.Shape()], as inferred when the node was created. *)
Fixpoint shapeOf (n : Node) : option Shape :=
  match n with
  | Leaf _ sh _ => Some sh
  | App op args =>
      match all_some (map shapeOf args) with
      | Some shs => inferShape op shs
      | None => None
      end
  end.

(** ** The gorgonia operations used by the package.  Each returns the new
    node or an error ([None]); [Must] panics on the error. *)

Definition G_apply (op : Op) (args : list Node) : option Node :=
  match shapeOf (App op args) with
  | Some _ => Some (App op args)
  | None => None
  end.

Definition Must (r : option Node) : outcome Node :=
  match r with
  | Some n => Ret n
  | None => Panic
  end.

Definition G_NewMatrix (sh : Shape) (name : string) (init : InitFn) : Node :=
  Leaf name sh init.
Definition G_NewTensor (sh : Shape) (name : string) (init : InitFn) : Node :=
  Leaf name sh init.

Definition G_Reshape (n : Node) (to : Shape) := G_apply (opReshape to) [n].
Definition G_Concat (axis : Z) (ns : list Node) := G_apply (opConcat axis) ns.
Definition G_Slice (n : Node) (sl : list Slice) := G_apply (opSlice sl) [n].
Definition G_Mul (a b : Node) := G_apply opMul [a; b].
Definition G_OuterProd (a b : Node) := G_apply opOuterProd [a; b].
Definition G_BroadcastHadamardProd (a b : Node) (lp rp : list Z) :=
  G_apply (opBroadcastHadamardProd lp rp) [a; b].
Definition G_Rectify (a : Node) := G_apply opRectify [a].
Definition G_LeakyRelu (a : Node) (alpha : float) := G_apply (opLeakyRelu alpha) [a].
Definition G_Sigmoid (a : Node) := G_apply opSigmoid [a].
Definition G_Add (a b : Node) := G_apply opAdd [a; b].
Definition G_Sub (a b : Node) := G_apply opSub [a; b].
Definition G_Square (a : Node) := G_apply opSquare [a].
Definition G_Mean (a : Node) := G_apply opMean [a].

(** [G.Dropout(x, prob)] returns [x] itself when [prob == 0.0]; otherwise it
    attaches a node that masks [x] with fresh uniform samples on every run. *)
Definition G_Dropout (x : Node) (prob : float) : option Node :=
  if (prob =? 0)%float then Some x else G_apply (opDropout prob) [x].

(** ** Values *)

(** The [k]-th block of [n] consecutive elements. *)
Definition chunk (n k : nat) (v : Value) : Value := firstn n (skipn (k * n) v).

Definition float_of_nat (n : nat) : float :=
  PrimFloat.of_uint63 (Uint63.of_Z (Z.of_nat n)).

(** The inner product, summed from the left (the backend does not promise
    an order of summation; no property below depends on it). *)
Definition dot (a b : Value) : float :=
  fold_left (fun acc xy => (acc + fst xy * snd xy)%float) (combine a b) 0%float.

(** Column [c] of a row-major [k] x [n] matrix. *)
Definition col (k n c : nat) (b : Value) : Value :=
  map (fun j => nth (j * n + c) b 0%float) (seq 0 k).

(** A row vector of length [k] times a [k] x [n] matrix. *)
Definition vecmat (k n : nat) (x b : Value) : Value :=
  map (fun c => dot x (col k n c b)) (seq 0 n).

(** [m] x [k] times [k] x [n], row by row. *)
Definition matmul (m k n : nat) (a b : Value) : Value :=
  flat_map (fun r => vecmat k n (chunk k r a) b) (seq 0 m).

(** [a (x) b] of two vectors, row-major: every element of [a] times all of [b]. *)
Definition outer (a b : Value) : Value :=
  flat_map (fun x => map (fun y => (x * y)%float) b) a.

Fixpoint map2 (f : float -> float -> float) (a b : Value) : Value :=
  match a, b with
  | x :: a', y :: b' => f x y :: map2 f a' b'
  | _, _ => []
  end.

(** ReLU as the backend builds it: the input times the 0/1 indicator of
    [x > 0]. *)
Definition relu (x : float) : float :=
  (x * (if 0 <? x then 1 else 0))%float.

Definition leaky_relu (alpha x : float) : float :=
  (if x <? 0 then alpha * x else x)%float.

Definition vsum (v : Value) : float := fold_left PrimFloat.add v 0%float.
Definition vmean (v : Value) : float := (vsum v / float_of_nat (List.length v))%float.

(** Concatenation along [axis]: for each index of the axes before it, the
    blocks of the operands one after the other. *)
Definition concat_data (axis : nat) (shs : list Shape) (vs : list Value) : Value :=
  match shs with
  | [] => []
  | s :: _ =>
      flat_map (fun o =>
                  flat_map (fun sv => chunk (size (skipn axis (fst sv))) o (snd sv))
                           (combine shs vs))
               (seq 0 (size (firstn axis s)))
  end.

Fixpoint slice_data (sl : list Slice) (sh : Shape) (v : Value) : Value :=
  match sl, sh with
  | SAll :: sl', d :: sh' =>
      flat_map (fun o => slice_data sl' sh' (chunk (size sh') o v))
               (seq 0 (Z.to_nat d))
  | S1 i :: sl', d :: sh' =>
      slice_data sl' sh' (chunk (size sh') (Z.to_nat i) v)
  | _, _ => v
  end.

(** The data of an operand broadcast along the axes of [pat]. *)
Fixpoint expand_data (pat : list Z) (ax : Z) (from to : Shape) (v : Value) : Value :=
  match from, to with
  | f :: from', t :: to' =>
      if existsb (Z.eqb ax) pat
      then List.concat (repeat (expand_data pat (ax + 1) from' to' v) (Z.to_nat t))
      else flat_map (fun o => expand_data pat (ax + 1) from' to'
                                          (chunk (size from') o v))
                    (seq 0 (Z.to_nat f))
  | _, _ => v
  end.

Definition broadcast (pat : list Z) (from to : Shape) (v : Value) : Value :=
  match pat with
  | [] => v
  | _ => expand_data pat 0 from to v
  end.

(** The store: the value bound to each named leaf (a placeholder by [G.Let],
    a parameter by its initialiser and the optimizer's updates). *)
Definition Env := string -> option Value.

Section Backend.

(** The backend's float64 kernels that are not arithmetic: the logistic
    function behind [G.Sigmoid], and what [G.Dropout] does to an element
    [x] given the drop probability and the uniform sample drawn for it. *)
Variable sigmoid : float -> float.
Variable dropout : float -> float -> float -> float.

Definition evalOp (op : Op) (shs : list Shape) (vs : list Value)
           (samples : nat -> float) : Value :=
  match op, shs, vs with
  | opReshape _, _, [v] => v
  | opConcat axis, _, _ => concat_data (Z.to_nat axis) shs vs
  | opSlice sl, [s], [v] => slice_data sl s v
  | opMul, [[m; k]; [_; n]], [a; b] =>
      matmul (Z.to_nat m) (Z.to_nat k) (Z.to_nat n) a b
  | opOuterProd, _, [a; b] => outer a b
  | opBroadcastHadamardProd lp rp, [sa; sb], [a; b] =>
      map2 PrimFloat.mul (broadcast lp sa sb a) (broadcast rp sb sa b)
  | opRectify, _, [v] => map relu v
  | opLeakyRelu alpha, _, [v] => map (leaky_relu alpha) v
  | opDropout p, _, [v] =>
      map (fun kx => dropout p (samples (fst kx)) (snd kx))
          (combine (seq 0 (List.length v)) v)
  | opSigmoid, _, [v] => map sigmoid v
  | opAdd, _, [a; b] => map2 PrimFloat.add a b
  | opSub, _, [a; b] => map2 PrimFloat.sub a b
  | opSquare, _, [v] => map (fun x => (x * x)%float) v
  | opMean, _, [v] => [vmean v]
  | _, _, _ => []
  end.

(** The value of a node in one run of the tape machine.  [rnd x k] is the
    uniform sample this run draws for element [k] at the dropout of [x]. *)
Fixpoint eval (env : Env) (rnd : Node -> nat -> float) (n : Node) : option Value :=
  match n with
  | Leaf name sh Zeroes => Some (repeat 0%float (size sh))
  | Leaf name sh _ =>
      match env name with
      | Some v => if (List.length v =? size sh)%nat then Some v else None
      | None => None
      end
  | App op args =>
      match all_some (map shapeOf args),
            all_some (map (eval env rnd) args) with
      | Some shs, Some vs =>
          match inferShape op shs with
          | Some _ => Some (evalOp op shs vs (rnd (hd n args)))
          | None => None
          end
      | _, _ => None
      end
  end.

End Backend.

(** [fmt.Sprintf("%d", i)]. *)
Definition itoa (i : Z) : string := NilZero.string_of_int (Z.to_int i).

(** [make([]T, n)] panics on a negative length. *)
Definition make_check (n : Z) : outcome unit :=
  if n <? 0 then Panic else Ret tt.

(** ** The baseline model *)

Module SimpleMLP.

Record t : Type := mk {
  mlp0 : Node; mlp1 : Node; mlp2 : Node;
  d0 : float; d1 : float;              (* dropout probabilities *)
  out : option Node                    (* nil until Fwd has run *)
}.

Definition set_out (mlp : t) (o : Node) : t :=
  mk (mlp0 mlp) (mlp1 mlp) (mlp2 mlp) (d0 mlp) (d1 mlp) (Some o).

Definition Out (mlp : t) : option Node := out mlp.

Definition learnable (mlp : t) : Nodes := [mlp0 mlp; mlp1 mlp; mlp2 mlp].

Definition Fwd (mlp : t) (xUserProfile ubMatrix xItemFeature xCtxFeature : Node)
           (batchSize uBehaviorSize uBehaviorDim : Z)
  : outcome (t * option error) :=
  (* user behaviors *)
  ubMatrix <- Must (G_Reshape ubMatrix [batchSize; uBehaviorSize * uBehaviorDim]) ;;
  (* concat *)
  x <- Must (G_Concat 1 [xUserProfile; ubMatrix; xItemFeature; xCtxFeature]) ;;
  (* mlp *)
  h0 <- Must (G_Mul x (mlp0 mlp)) ;;
  mlp0Out <- Must (G_LeakyRelu h0 0.1) ;;
  mlp0Out <- Must (G_Dropout mlp0Out (d0 mlp)) ;;
  h1 <- Must (G_Mul mlp0Out (mlp1 mlp)) ;;
  mlp1Out <- Must (G_LeakyRelu h1 0.1) ;;
  mlp1Out <- Must (G_Dropout mlp1Out (d1 mlp)) ;;
  h2 <- Must (G_Mul mlp1Out (mlp2 mlp)) ;;
  o <- Must (G_Sigmoid h2) ;;
  Ret (set_out mlp o, None).

End SimpleMLP.

Definition NewSimpleMLP (uProfileDim uBehaviorSize uBehaviorDim iFeatureDim
                         ctxFeatureDim : Z) : outcome SimpleMLP.t :=
  let mlp0 := G_NewMatrix
                [uProfileDim + uBehaviorSize * uBehaviorDim + iFeatureDim + ctxFeatureDim; 200]
                "mlp0" (Gaussian 0 1) in
  let mlp1 := G_NewMatrix [200; 80] "mlp1" (Gaussian 0 1) in
  let mlp2 := G_NewMatrix [80; 1] "mlp2" (Gaussian 0 1) in
  Ret (SimpleMLP.mk mlp0 mlp1 mlp2 0.01 0.01 None).

(** ** The DIN model *)

Module DinNet.

Record t : Type := mk {
  uProfileDim : Z; uBehaviorSize : Z; uBehaviorDim : Z;
  iFeatureDim : Z;
  cFeatureDim : Z;
  mlp0 : Node; mlp1 : Node; mlp2 : Node;   (* weights of MLP layers *)
  d0 : float; d1 : float;                  (* dropout probabilities *)
  att0 : list Node; att1 : list Node;      (* weights of Attention layers *)
  out : option Node
}.

Definition set_out (din : t) (o : Node) : t :=
  mk (uProfileDim din) (uBehaviorSize din) (uBehaviorDim din) (iFeatureDim din)
     (cFeatureDim din) (mlp0 din) (mlp1 din) (mlp2 din) (d0 din) (d1 din)
     (att0 din) (att1 din) (Some o).

Definition Out (din : t) : option Node := out din.

(** [make(G.Nodes, 3, 3+2*S)], the three MLP weights, then the two appends. *)
Definition learnable (din : t) : outcome Nodes :=
  if 3 + 2 * uBehaviorSize din <? 3 then Panic    (* makeslice: cap out of range *)
  else Ret (([mlp0 din; mlp1 din; mlp2 din] ++ att0 din) ++ att1 din).

(** Lines 160-173: the outer product, example by example. *)
Definition outProdVec (ubMatrix xItemFeature : Node)
           (uBehaviorSize uBehaviorDim iFeatureDim : Z) (i : Z) : outcome Node :=
  (* ubVec.Shape() = [uBehaviorSize * uBehaviorDim] *)
  ubVec <- Must (G_Slice ubMatrix [S1 i]) ;;
  (* item.Shape() = [iFeatureDim] *)
  itemVec <- Must (G_Slice xItemFeature [S1 i]) ;;
  (* outProd.Shape() = [uBehaviorSize * uBehaviorDim, iFeatureDim] *)
  outProd <- Must (G_OuterProd ubVec itemVec) ;;
  Must (G_Reshape outProd [uBehaviorSize * uBehaviorDim * iFeatureDim]).

Definition outProducts (ubMatrix xItemFeature : Node)
           (batchSize uBehaviorSize uBehaviorDim iFeatureDim : Z) : outcome Node :=
  _ <- make_check batchSize ;;
  outProdVecs <- mapM (outProdVec ubMatrix xItemFeature
                                  uBehaviorSize uBehaviorDim iFeatureDim)
                      (range batchSize) ;;
  outProductsVec <- Must (G_Concat 0 outProdVecs) ;;
  Must (G_Reshape outProductsVec
                  [batchSize; uBehaviorSize * uBehaviorDim * iFeatureDim]).

(** Lines 177-190: the activation unit of behavior slot [i]. *)
Definition actOut (din : t) (xUserBehaviors outProducts xItemFeature : Node)
           (i : Z) : outcome Node :=
  (* xUserBehaviors[:, i, :], ub.shape: [batchSize, uBehaviorDim] *)
  ub <- Must (G_Slice xUserBehaviors [SAll; S1 i]) ;;
  actConcat <- Must (G_Concat 1 [ub; outProducts; xItemFeature]) ;;
  a0 <- index (att0 din) i ;;
  h <- Must (G_Mul actConcat a0) ;;
  a1 <- index (att1 din) i ;;
  s <- Must (G_Mul h a1) ;;
  score <- Must (G_Rectify s) ;;                      (* [batchSize, 1] *)
  Must (G_BroadcastHadamardProd ub score [] [1]).     (* [batchSize, uBehaviorDim] *)

(** Lines 175-194: sum pooling over the slots. *)
Definition actOuts (din : t) (xUserBehaviors outProducts xItemFeature : Node)
           (batchSize uBehaviorSize uBehaviorDim : Z) : outcome Node :=
  let acc0 := G_NewTensor [batchSize; uBehaviorDim] "actOuts" Zeroes in
  foldM (fun acc i =>
           a <- actOut din xUserBehaviors outProducts xItemFeature i ;;
           Must (G_Add acc a))
        (range uBehaviorSize) acc0.

(** Lines 158-194: from the inputs to the pooled user interest. *)
Definition userInterest (din : t) (ubMatrix xItemFeature : Node)
           (batchSize uBehaviorSize uBehaviorDim iFeatureDim : Z) : outcome Node :=
  xUserBehaviors <- Must (G_Reshape ubMatrix
                                    [batchSize; uBehaviorSize; uBehaviorDim]) ;;
  (* outProduct should computed batch by batch!!!! *)
  outProds <- outProducts ubMatrix xItemFeature
                          batchSize uBehaviorSize uBehaviorDim iFeatureDim ;;
  actOuts din xUserBehaviors outProds xItemFeature
          batchSize uBehaviorSize uBehaviorDim.

Definition Fwd (din : t) (xUserProfile ubMatrix xItemFeature xCtxFeature : Node)
           (batchSize uBehaviorSize uBehaviorDim : Z)
  : outcome (t * option error) :=
  sh <- match shapeOf xItemFeature with Some sh => Ret sh | None => Panic end ;;
  iFeatureDim <- index sh 1 ;;
  if negb (uBehaviorDim =? iFeatureDim)
  then Ret (din, Some (ErrDimMismatch uBehaviorDim iFeatureDim))
  else
    pooled <- userInterest din ubMatrix xItemFeature
                           batchSize uBehaviorSize uBehaviorDim iFeatureDim ;;
    (* Concat all xUserProfile, actOuts, xItemFeature, xCtxFeature *)
    concat <- Must (G_Concat 1 [xUserProfile; pooled; xItemFeature; xCtxFeature]) ;;
    (* MLP *)
    h0 <- Must (G_Mul concat (mlp0 din)) ;;
    mlp0Out <- Must (G_LeakyRelu h0 0.1) ;;
    mlp0Out <- Must (G_Dropout mlp0Out (d0 din)) ;;
    h1 <- Must (G_Mul mlp0Out (mlp1 din)) ;;
    mlp1Out <- Must (G_LeakyRelu h1 0.1) ;;
    mlp1Out <- Must (G_Dropout mlp1Out (d1 din)) ;;
    h2 <- Must (G_Mul mlp1Out (mlp2 din)) ;;
    mlp2Out <- Must (G_Sigmoid h2) ;;
    Ret (set_out din mlp2Out, None).

End DinNet.

Definition NewDinNet (uProfileDim uBehaviorSize uBehaviorDim iFeatureDim
                      ctxFeatureDim : Z) : outcome DinNet.t :=
  if negb (uBehaviorDim =? iFeatureDim)
  then Fatal (ErrDimMismatch uBehaviorDim iFeatureDim)
  else
    (* attention layer *)
    _ <- make_check uBehaviorSize ;;
    let att0 := map (fun i => G_NewTensor
                       [uBehaviorDim + iFeatureDim
                        + uBehaviorSize * uBehaviorDim * iFeatureDim; 36]
                       ("att0-" ++ itoa i) (Gaussian 0 1))
                    (range uBehaviorSize) in
    let att1 := map (fun i => G_NewTensor [36; 1] ("att1-" ++ itoa i) (Gaussian 0 1))
                    (range uBehaviorSize) in
    let mlp0 := G_NewMatrix
                  [uProfileDim + uBehaviorDim + iFeatureDim + ctxFeatureDim; 200]
                  "mlp0" (Gaussian 0 1) in
    let mlp1 := G_NewMatrix [200; 80] "mlp1" (Gaussian 0 1) in
    let mlp2 := G_NewMatrix [80; 1] "mlp2" (Gaussian 0 1) in
    Ret (DinNet.mk uProfileDim uBehaviorSize uBehaviorDim iFeatureDim ctxFeatureDim
                   mlp0 mlp1 mlp2 0.001 0.001 att0 att1 None).

(** ** The [model] interface and its two implementations *)

Class model (M : Type) : Type := {
  learnable : M -> outcome Nodes;
  Fwd : M -> Node -> Node -> Node -> Node -> Z -> Z -> Z -> outcome (M * option error);
  Out : M -> option Node
}.

#[export] Instance SimpleMLP_model : model SimpleMLP.t := {
  learnable mlp := Ret (SimpleMLP.learnable mlp);
  Fwd := SimpleMLP.Fwd;
  Out := SimpleMLP.Out
}.

#[export] Instance DinNet_model : model DinNet.t := {
  learnable := DinNet.learnable;
  Fwd := DinNet.Fwd;
  Out := DinNet.Out
}.

(** ** Training *)

(** Modelled from the spec: the type [rcmd.SampleInfo] of the package
    [recommend], of which [Train] reads four column ranges ([[2]int] each,
    start and end) into the flattened input tensor. *)
Record SampleInfo : Type := {
  UserProfileRange : Z * Z;
  UserBehaviorRange : Z * Z;
  ItemFeatureRange : Z * Z;
  CtxFeatureRange : Z * Z
}.

(** What [Train] asks of the backend, the dataset and the optimizer, in
    order.  The progress bar, the [Batches] log line and the two [G.Read]
    registrations cannot fail and change nothing the loop depends on; they
    are left out. *)
Inductive Event : Type :=
| EvSeed (seed : Z)                                  (* rand.Seed *)
| EvGrad (cost : Node) (wrt : Nodes)                 (* G.Grad *)
| EvCompile                                          (* G.Compile *)
| EvNewTapeMachine (bound : Nodes)                   (* G.NewTapeMachine, BindDualValues *)
| EvNewAdamSolver (learnRate : float)
| EvSliceInputs (rows cols : Z * Z)                  (* inputs.Slice *)
| EvSliceTargets (rows : Z * Z)                      (* targets.Slice *)
| EvLet (placeholder : Node) (value : Event)         (* G.Let, of the slice just taken *)
| EvRunAll                                           (* vm.RunAll *)
| EvStep (nodes : Nodes)                             (* solver.Step(NodesToValueGrads) *)
| EvReset                                            (* vm.Reset *)
| EvLogEpoch (i : Z)                                 (* log.Printf("Epoch %d | cost %v") *)
| EvClose.                                           (* the deferred vm.Close *)

(** A computation that performs backend calls: it extends the trace of the
    calls made so far and returns, exits or panics. *)
Definition run (A : Type) : Type := list Event -> outcome A * list Event.

Definition ret {A} (a : A) : run A := fun tr => (Ret a, tr).

Definition bindR {A B} (m : run A) (k : A -> run B) : run B :=
  fun tr => match m tr with
            | (Ret a, tr') => k a tr'
            | (Fatal e, tr') => (Fatal e, tr')
            | (Panic, tr') => (Panic, tr')
            end.

Definition lift {A} (o : outcome A) : run A := fun tr => (o, tr).

Declare Scope run_scope.
Delimit Scope run_scope with run.
Notation "x <~ m ;; k" := (bindR m (fun x => k))
  (at level 61, m at next level, right associativity) : run_scope.
Notation "m ;;; k" := (bindR m (fun _ => k))
  (at level 61, right associativity) : run_scope.

Section Train.

Local Open Scope run_scope.

(** Whether a backend call fails, given the calls made before it.  A call
    that returns an error is answered by [log.Fatal] everywhere in
    [Train]. *)
Variable fails : list Event -> Event -> bool.

Definition call (ev : Event) : run unit :=
  fun tr => if fails tr ev
            then (Fatal (ErrBackend "backend call failed"), tr ++ [ev])
            else (Ret tt, tr ++ [ev]).

(** A call that cannot fail. *)
Definition emit (ev : Event) : run unit := fun tr => (Ret tt, tr ++ [ev]).

Context {M : Type} `{model M}.

Section Loop.

Variables (numExamples batchSize : Z) (si : SampleInfo) (m : M).
Variables (xUserProfile xUserBehaviorMatrix xItemFeature xCtxFeature y : Node).

(** The body of the batch loop once [start] and [end] are fixed. *)
Definition batch (start end_ : Z) : run unit :=
  let s1 := EvSliceInputs (start, end_) (UserProfileRange si) in
  call s1 ;;; call (EvLet xUserProfile s1) ;;;
  let s2 := EvSliceInputs (start, end_) (UserBehaviorRange si) in
  call s2 ;;; call (EvLet xUserBehaviorMatrix s2) ;;;
  let s3 := EvSliceInputs (start, end_) (ItemFeatureRange si) in
  call s3 ;;; call (EvLet xItemFeature s3) ;;;
  let s4 := EvSliceInputs (start, end_) (CtxFeatureRange si) in
  call s4 ;;; call (EvLet xCtxFeature s4) ;;;
  let s5 := EvSliceTargets (start, end_) in
  call s5 ;;; call (EvLet y s5) ;;;
  call EvRunAll ;;;
  ps <~ lift (learnable m) ;;
  call (EvStep ps) ;;;
  emit EvReset.

(** [for b := 0; b < batches; b++], over the values [b] still has to take. *)
Fixpoint batch_loop (bs : list Z) : run unit :=
  match bs with
  | [] => ret tt
  | b :: bs' =>
      let start := b * batchSize in
      let end_ := start + batchSize in
      if start >=? numExamples then ret tt          (* break *)
      else
        let end_ := if end_ >? numExamples then numExamples else end_ in
        batch start end_ ;;; batch_loop bs'
  end.

(** [for i := 0; i < epochs; i++]. *)
Fixpoint epoch_loop (batches : Z) (epochs_left : list Z) : run unit :=
  match epochs_left with
  | [] => ret tt
  | i :: rest =>
      batch_loop (range batches) ;;;
      emit (EvLogEpoch i) ;;;
      epoch_loop batches rest
  end.

End Loop.

(** [Train], lines 217-358.  [si] is the record the pointer [si] refers to,
    and a backend call returns, normally or with an error: a nil [si] (a
    panic at the first slice) and a panic inside a call are not part of
    this model. *)
Definition Train (uBehaviorSize uBehaviorDim uProfileDim iFeatureDim cFeatureDim
                  numExamples batchSize epochs : Z)
           (si : SampleInfo) (m : M) : run (option error) :=
  emit (EvSeed 2120) ;;;
  let xUserProfile := G_NewMatrix [batchSize; uProfileDim] "xUserProfile" NoInit in
  let xUserBehaviorMatrix :=
    G_NewMatrix [batchSize; uBehaviorSize * uBehaviorDim] "xUserBehaviorMatrix" NoInit in
  let xItemFeature := G_NewMatrix [batchSize; iFeatureDim] "xItemFeature" NoInit in
  let xCtxFeature := G_NewMatrix [batchSize; cFeatureDim] "xCtxFeature" NoInit in
  let y := G_NewTensor [batchSize; 1] "y" NoInit in
  r <~ lift (Fwd m xUserProfile xUserBehaviorMatrix xItemFeature xCtxFeature
                 batchSize uBehaviorSize uBehaviorDim) ;;
  let m := fst r in
  match snd r with
  | Some err => lift (Fatal err)
  | None =>
      o <~ lift (match Out m with Some o => Ret o | None => Panic end) ;;
      d <~ lift (Must (G_Sub o y)) ;;
      losses <~ lift (Must (G_Square d)) ;;
      cost <~ lift (Must (G_Mean losses)) ;;
      ps <~ lift (learnable m) ;;
      call (EvGrad cost ps) ;;;
      call EvCompile ;;;
      ps <~ lift (learnable m) ;;
      emit (EvNewTapeMachine ps) ;;;
      emit (EvNewAdamSolver 0.001) ;;;
      (* from here on the deferred vm.Close runs on return and on panic *)
      fun tr =>
        match (if batchSize =? 0 then lift Panic      (* integer divide by zero *)
               else
                 let batches := Z.quot numExamples batchSize in
                 epoch_loop numExamples batchSize si m
                            xUserProfile xUserBehaviorMatrix xItemFeature xCtxFeature y
                            batches (range epochs)) tr with
        | (Ret _, tr') => (Ret None, tr' ++ [EvClose])
        | (Panic, tr') => (Panic, tr' ++ [EvClose])
        | (Fatal e, tr') => (Fatal e, tr')
        end
  end.

End Train.

(** ** Metrics *)

(** Go's [math.Round]: the nearest integer, halves away from zero;
    [Round(±0) = ±0], [Round(±Inf) = ±Inf], [Round(NaN) = NaN]. *)
Definition math_Round (x : float) : float :=
  match Prim2SF x with
  | S754_finite s m e =>
      if 0 <=? e then x
      else
        let d := Z.pow 2 (- e) in
        let q := Z.pos m / d in
        let q := if d <=? 2 * (Z.pos m mod d) then q + 1 else q in
        let a := PrimFloat.of_uint63 (Uint63.of_Z q) in
        if s then (- a)%float else a
  | _ => x
  end.

(** The loop of [accuracy] from index [i] on, [n] iterations to go. *)
Fixpoint accuracy_loop (prediction y : list float) (n i : nat) (ok : float)
  : outcome float :=
  match n with
  | O => Ret ok
  | S n' =>
      match nth_error prediction i, nth_error y i with
      | Some p, Some l =>
          accuracy_loop prediction y n' (i + 1)
            (if (math_Round (p - l) =? 0)%float then (ok + 1)%float else ok)
      | _, _ => Panic                    (* index out of range *)
      end
  end.

Definition accuracy (prediction y : list float) : outcome float :=
  ok <- accuracy_loop prediction y (List.length prediction) 0 0%float ;;
  Ret (ok / float_of_nat (List.length y))%float.

(** ** Definitions used to state the properties *)

(** The number of indices at which prediction and label round to the same
    integer, over the indices both lists have. *)
Definition count_ok (prediction y : list float) : nat :=
  List.length (filter (fun py => (math_Round (fst py - snd py) =? 0)%float)
                      (combine prediction y)).

(** The float64 reached from [0.0] by adding [1.0] [k] times, as [accuracy]
    counts. *)
Definition count_up (k : nat) : float :=
  Nat.iter k (fun a => (a + 1)%float) 0%float.

(** The weight leaves [NewDinNet] creates for slot [i]. *)
Definition att0_leaf (uBehaviorSize uBehaviorDim iFeatureDim i : Z) : Node :=
  Leaf ("att0-" ++ itoa i)
       [uBehaviorDim + iFeatureDim + uBehaviorSize * uBehaviorDim * iFeatureDim; 36]
       (Gaussian 0 1).
Definition att1_leaf (i : Z) : Node :=
  Leaf ("att1-" ++ itoa i) [36; 1] (Gaussian 0 1).

(** [n] is a well-shaped node of shape [sh] whose value in this run is [v],
    with as many elements as the shape has. *)
Definition has_value (sigmoid : float -> float) (dropout : float -> float -> float -> float)
           (env : Env) (rnd : Node -> nat -> float)
           (n : Node) (sh : Shape) (v : Value) : Prop :=
  shapeOf n = Some sh
  /\ eval sigmoid dropout env rnd n = Some v
  /\ List.length v = size sh.

(** The graph [DinNet.Fwd] builds when the backend accepts every operation:
    the outer product of example [i], the interaction tensor, the activation
    unit of a slot given its two weights, and the pooled sum. *)
Definition outProdVec_node (ubMatrix xItemFeature : Node)
           (uBehaviorSize uBehaviorDim iFeatureDim i : Z) : Node :=
  App (opReshape [uBehaviorSize * uBehaviorDim * iFeatureDim])
      [App opOuterProd [App (opSlice [S1 i]) [ubMatrix];
                        App (opSlice [S1 i]) [xItemFeature]]].

Definition outProducts_node (ubMatrix xItemFeature : Node)
           (batchSize uBehaviorSize uBehaviorDim iFeatureDim : Z) : Node :=
  App (opReshape [batchSize; uBehaviorSize * uBehaviorDim * iFeatureDim])
      [App (opConcat 0)
           (map (outProdVec_node ubMatrix xItemFeature
                                 uBehaviorSize uBehaviorDim iFeatureDim)
                (range batchSize))].

Definition actOut_node (xUserBehaviors outProducts xItemFeature a0 a1 : Node)
           (i : Z) : Node :=
  let ub := App (opSlice [SAll; S1 i]) [xUserBehaviors] in
  let actConcat := App (opConcat 1) [ub; outProducts; xItemFeature] in
  App (opBroadcastHadamardProd [] [1])
      [ub; App opRectify [App opMul [App opMul [actConcat; a0]; a1]]].

Definition actOuts_node (xUserBehaviors outProducts xItemFeature : Node)
           (a0 a1 : Z -> Node) (batchSize uBehaviorSize uBehaviorDim : Z) : Node :=
  fold_left (fun acc i =>
               App opAdd [acc; actOut_node xUserBehaviors outProducts xItemFeature
                                           (a0 i) (a1 i) i])
            (range uBehaviorSize)
            (Leaf "actOuts" [batchSize; uBehaviorDim] Zeroes).

(** The activation unit as C1 words it, with the ReLU between the two
    matrix products. *)
Definition claimed_actOut_node (xUserBehaviors outProducts xItemFeature a0 a1 : Node)
           (i : Z) : Node :=
  let ub := App (opSlice [SAll; S1 i]) [xUserBehaviors] in
  let actConcat := App (opConcat 1) [ub; outProducts; xItemFeature] in
  App (opBroadcastHadamardProd [] [1])
      [ub; App opMul [App opRectify [App opMul [actConcat; a0]]; a1]].

(** The values, example by example.  [du] is the behavior matrix
    ([nB] rows of [nS] behaviors of [nD] numbers) and [di] the item matrix
    ([nB] rows of [nD] numbers). *)
Section Examplewise.

Variables (nS nD nk : nat) (du di : Value).

(** The flattened behavior vector of example [b], of length [nS * nD]. *)
Definition behaviors (b : nat) : Value := chunk (nS * nD) b du.
(** Its [i]-th behavior, [ub[b, i, :]]. *)
Definition behavior (b i : nat) : Value := chunk nD i (behaviors b).
Definition item (b : nat) : Value := chunk nD b di.
(** The flattened outer product of example [b]. *)
Definition outProd (b : nat) : Value := outer (behaviors b) (item b).
(** Row [b] of [actConcat] for slot [i]. *)
Definition actConcat (b i : nat) : Value := behavior b i ++ outProd b ++ item b.
(** The relevance score of slot [i] for example [b], as the code computes
    it: the ReLU of the product with both weight matrices. *)
Definition score (A0 A1 : Value) (b i : nat) : float :=
  relu (hd 0%float
           (vecmat nk 1 (vecmat (nD + nS * nD * nD + nD) nk (actConcat b i) A0) A1)).
(** The behavior gated by its score. *)
Definition gated (A0 A1 : Value) (b i : nat) : Value :=
  map (fun u => (u * score A0 A1 b i)%float) (behavior b i).

End Examplewise.

(** The sum of [vs] on top of [acc], element by element, in list order. *)
Definition sum_onto (acc : Value) (vs : list Value) : Value :=
  fold_left (map2 PrimFloat.add) vs acc.

(** A store given by a list of bindings. *)
Fixpoint env_of (bs : list (string * Value)) : Env :=
  fun name =>
    match bs with
    | [] => None
    | (n, v) :: bs' => if String.eqb n name then Some v else env_of bs' name
    end.

(** The stores of the worked examples. *)
Definition example_store : Env :=
  env_of [("ubMatrix"%string, [1; 2]%float); ("xItemFeature"%string, [3]%float);
          ("att0-0"%string, repeat 1%float 144); ("att0-1"%string, repeat 1%float 144);
          ("att1-0"%string, repeat 1%float 36); ("att1-1"%string, repeat 1%float 36)].

Definition relu_store : Env :=
  env_of [("ubMatrix"%string, [1]%float); ("xItemFeature"%string, [1]%float);
          ("att0-0"%string, (-1)%float :: repeat 0%float 107);
          ("att1-0"%string, (-1)%float :: repeat 0%float 35)].

(** The backend calls of one batch, of one epoch and of a whole run of
    [Train] in which no call fails. *)
Definition batch_events (si : SampleInfo)
           (xUserProfile xUserBehaviorMatrix xItemFeature xCtxFeature y : Node)
           (ps : Nodes) (batchSize b : Z) : list Event :=
  let rows := (b * batchSize, b * batchSize + batchSize) in
  [EvSliceInputs rows (UserProfileRange si);
   EvLet xUserProfile (EvSliceInputs rows (UserProfileRange si));
   EvSliceInputs rows (UserBehaviorRange si);
   EvLet xUserBehaviorMatrix (EvSliceInputs rows (UserBehaviorRange si));
   EvSliceInputs rows (ItemFeatureRange si);
   EvLet xItemFeature (EvSliceInputs rows (ItemFeatureRange si));
   EvSliceInputs rows (CtxFeatureRange si);
   EvLet xCtxFeature (EvSliceInputs rows (CtxFeatureRange si));
   EvSliceTargets rows;
   EvLet y (EvSliceTargets rows);
   EvRunAll;
   EvStep ps;
   EvReset].

Definition epoch_events (si : SampleInfo)
           (xUserProfile xUserBehaviorMatrix xItemFeature xCtxFeature y : Node)
           (ps : Nodes) (batchSize batches i : Z) : list Event :=
  flat_map (batch_events si xUserProfile xUserBehaviorMatrix xItemFeature xCtxFeature
                         y ps batchSize)
           (range batches)
  ++ [EvLogEpoch i].

Definition train_events (si : SampleInfo) (o : Node) (ps : Nodes)
           (uBehaviorSize uBehaviorDim uProfileDim iFeatureDim cFeatureDim
            numExamples batchSize epochs : Z) : list Event :=
  let xUserProfile := Leaf "xUserProfile" [batchSize; uProfileDim] NoInit in
  let xUserBehaviorMatrix :=
    Leaf "xUserBehaviorMatrix" [batchSize; uBehaviorSize * uBehaviorDim] NoInit in
  let xItemFeature := Leaf "xItemFeature" [batchSize; iFeatureDim] NoInit in
  let xCtxFeature := Leaf "xCtxFeature" [batchSize; cFeatureDim] NoInit in
  let y := Leaf "y" [batchSize; 1] NoInit in
  [EvSeed 2120;
   EvGrad (App opMean [App opSquare [App opSub [o; y]]]) ps;
   EvCompile;
   EvNewTapeMachine ps;
   EvNewAdamSolver 0.001]
  ++ flat_map (epoch_events si xUserProfile xUserBehaviorMatrix xItemFeature
                            xCtxFeature y ps batchSize (numExamples / batchSize))
              (range epochs)
  ++ [EvClose].

Definition is_RunAll (ev : Event) : bool :=
  match ev with EvRunAll => true | _ => false end.
Definition is_Step (ev : Event) : bool :=
  match ev with EvStep _ => true | _ => false end.

(** A backend on which no call fails, and column ranges for an example. *)
Definition never_fails : list Event -> Event -> bool := fun _ _ => false.

Definition si_example : SampleInfo :=
  {| UserProfileRange := (0, 1); UserBehaviorRange := (1, 3);
     ItemFeatureRange := (3, 4); CtxFeatureRange := (4, 5) |}.

(** Whether the graph of [n] contains a dropout node, that is, draws random
    samples when it is run. *)
Fixpoint stochastic (n : Node) : bool :=
  match n with
  | Leaf _ _ _ => false
  | App op args =>
      match op with opDropout _ => true | _ => false end
      || existsb stochastic args
  end.

(** The probabilities of the dropout nodes of a graph, outermost first. *)
Fixpoint dropout_probs (n : Node) : list float :=
  match n with
  | Leaf _ _ _ => []
  | App op args =>
      match op with opDropout p => [p] | _ => [] end
      ++ flat_map dropout_probs args
  end.

(** ** The backend's float64 kernels *)

(** Modelled from the library: the float64 kernel behind [G.Sigmoid], the
    logistic function [1 / (1 + math.Exp(-x))], which the library cuts off
    to 0 below -709 and to 1 above 19.  [exp] stands for Go's [math.Exp]. *)
Definition sigmoidF64 (exp : float -> float) (x : float) : float :=
  (if x <? -709 then 0 else if 19 <? x then 1 else 1 / (1 + exp (- x)))%float.

(** Modelled from the library: [G.Dropout(x, p)] multiplies [x] by the 0/1
    mask of the samples above [p] and divides by [1 - p]. *)
Definition dropoutF64 (p sample x : float) : float :=
  (x * (if p <? sample then 1 else 0) / (1 - p))%float.


(** The baseline as [NewSimpleMLP 1 1 1 1 1] returns it. *)
Definition small_mlp : SimpleMLP.t :=
  SimpleMLP.mk (Leaf "mlp0" [4; 200] (Gaussian 0 1))
               (Leaf "mlp1" [200; 80] (Gaussian 0 1))
               (Leaf "mlp2" [80; 1] (Gaussian 0 1)) 0.01 0.01 None.


(** One example whose four features are 1, with the weights of the last
    layer alternating between 1 and -1. *)
Definition alternating_store : Env :=
  env_of [("xUserProfile"%string, [1%float]);
          ("xUserBehaviorMatrix"%string, [1%float]);
          ("xItemFeature"%string, [1%float]);
          ("xCtxFeature"%string, [1%float]);
          ("mlp0"%string, repeat 1%float (4 * 200));
          ("mlp1"%string, repeat 1%float (200 * 80));
          ("mlp2"%string, flat_map (fun _ => [1; -1]%float) (seq 0 40))].

(** A run in which every sample is above the dropout probabilities, so
    that nothing is dropped. *)
Definition keep_all : Node -> nat -> float := fun _ _ => 0.5%float.

(** Two runs: one draws a sample above every dropout probability at the
    even elements and 0 at the odd ones, the other the opposite. *)
Definition keep_even : Node -> nat -> float :=
  fun _ k => if Nat.even k then 0.5%float else 0%float.
Definition keep_odd : Node -> nat -> float :=
  fun _ k => if Nat.even k then 0%float else 0.5%float.

(** Whether [G.Dropout] attaches a node for the probability [p]. *)
Definition attaches (p : float) : bool := negb (p =? 0)%float.

(** What [G.Dropout(n, p)] returns when the backend accepts it. *)
Definition dropped (p : float) (n : Node) : Node :=
  if attaches p then App (opDropout p) [n] else n.

(** The nodes at which a run of the graph draws samples: the operands of
    its dropout nodes. *)
Fixpoint dropout_inputs (n : Node) : list Node :=
  match n with
  | Leaf _ _ _ => []
  | App op args =>
      match op with opDropout _ => [hd n args] | _ => [] end
      ++ flat_map dropout_inputs args
  end.

(** ** Definitions used to state the further properties *)

(** [x] is a node of the graph of [n]: [n] itself or a node of one of its
    operands. *)
Fixpoint occurs (x n : Node) : Prop :=
  x = n
  \/ match n with
     | Leaf _ _ _ => False
     | App _ args =>
         (fix any (l : list Node) : Prop :=
            match l with
            | [] => False
            | a :: l' => occurs x a \/ any l'
            end) args
     end.

(** The models the constructors return for one profile feature, two
    behavior slots of one feature, one item and one context feature. *)
Definition example_mlp : SimpleMLP.t :=
  SimpleMLP.mk (Leaf "mlp0" [5; 200] (Gaussian 0 1))
               (Leaf "mlp1" [200; 80] (Gaussian 0 1))
               (Leaf "mlp2" [80; 1] (Gaussian 0 1)) 0.01 0.01 None.

Definition example_din : DinNet.t :=
  DinNet.mk 1 2 1 1 1
            (Leaf "mlp0" [4; 200] (Gaussian 0 1))
            (Leaf "mlp1" [200; 80] (Gaussian 0 1))
            (Leaf "mlp2" [80; 1] (Gaussian 0 1)) 0.001 0.001
            (map (att0_leaf 2 1 1) (range 2)) (map att1_leaf (range 2)) None.

(** The name of a leaf, and whether a store binds a leaf to an array of the
    size of its shape. *)
Definition leaf_name (n : Node) : string :=
  match n with Leaf name _ _ => name | App _ _ => EmptyString end.

Definition binds (env : Env) (n : Node) : Prop :=
  match n with
  | Leaf name sh init =>
      init <> Zeroes /\ exists v, env name = Some v /\ List.length v = size sh
  | App _ _ => False
  end.

(** The store that binds every leaf of [ls] to zeros. *)
Definition zero_store (ls : list Node) : Env :=
  env_of (map (fun l => (leaf_name l,
                         match l with
                         | Leaf _ sh _ => repeat 0%float (size sh)
                         | App _ _ => []
                         end)) ls).

(** The calls whose result [Train] does not check. *)
Definition unchecked (ev : Event) : bool :=
  match ev with
  | EvSeed _ | EvNewTapeMachine _ | EvNewAdamSolver _ | EvReset | EvLogEpoch _
  | EvClose => true
  | _ => false
  end.

(** The calls [evs] made one after the other on a backend that may fail:
    the first checked call that fails ends the process. *)
Fixpoint perform (fails : list Event -> Event -> bool) (evs : list Event)
  : run unit :=
  match evs with
  | [] => ret tt
  | ev :: evs' =>
      bindR (if unchecked ev then emit ev else call fails ev)
            (fun _ => perform fails evs')
  end.

(** A backend on which the second run of the graph fails, and everything
    else succeeds. *)
Definition second_run_fails : list Event -> Event -> bool :=
  fun tr ev => is_RunAll ev && (List.length (filter is_RunAll tr) =? 1)%nat.

(** * Properties *)

(** ** Generic facts *)

Lemma range_length n : List.length (range n) = Z.to_nat n.
Proof. unfold range. now rewrite length_map, length_seq. Qed.

Lemma range_nth_error n i :
  0 <= i < n -> nth_error (range n) (Z.to_nat i) = Some i.
Proof.
  intros Hi. unfold range.
  rewrite nth_error_map, nth_error_seq.
  destruct (Nat.ltb_spec (Z.to_nat i) (Z.to_nat n)); [|lia].
  simpl. f_equal. lia.
Qed.

Lemma range_In n i : In i (range n) <-> 0 <= i < n.
Proof.
  unfold range. rewrite in_map_iff. split.
  - intros (k & <- & Hk). apply in_seq in Hk. lia.
  - intros Hi. exists (Z.to_nat i). split; [lia|]. apply in_seq. lia.
Qed.

Lemma range_NoDup n : NoDup (range n).
Proof.
  unfold range. apply NoDup_map_NoDup_ForallPairs; [|apply seq_NoDup].
  intros a b _ _ Hab. lia.
Qed.

Lemma itoa_inj i j : itoa i = itoa j -> i = j.
Proof.
  unfold itoa. intros E.
  assert (N : forall z, Z.to_int z <> Pos Nil /\ Z.to_int z <> Neg Nil).
  { intros [|p|p]; simpl; split; try discriminate;
      intros [= Hp]; now apply Unsigned.to_uint_nonnil in Hp. }
  assert (E' : Some (Z.to_int i) = Some (Z.to_int j)).
  { rewrite <- (NilZero.isi (Z.to_int i)) by apply N.
    rewrite <- (NilZero.isi (Z.to_int j)) by apply N.
    now rewrite E. }
  injection E' as E'.
  rewrite <- (DecimalZ.of_to i), <- (DecimalZ.of_to j). now rewrite E'.
Qed.

(** ** Construction *)

(** C3 (as amended): when [uBehaviorDim <> iFeatureDim], the DIN constructor
    exits fatally with the mismatch, while the baseline constructor has no
    such check: it returns a model whose first layer has
    [uProfileDim + uBehaviorSize*uBehaviorDim + iFeatureDim + ctxFeatureDim]
    rows, the two dimensions entering independently. *)
Theorem constructors_on_dim_mismatch
        (uProfileDim uBehaviorSize uBehaviorDim iFeatureDim ctxFeatureDim : Z) :
  uBehaviorDim <> iFeatureDim ->
  NewDinNet uProfileDim uBehaviorSize uBehaviorDim iFeatureDim ctxFeatureDim
  = Fatal (ErrDimMismatch uBehaviorDim iFeatureDim)
  /\ exists mlp,
      NewSimpleMLP uProfileDim uBehaviorSize uBehaviorDim iFeatureDim ctxFeatureDim
      = Ret mlp
      /\ shapeOf (SimpleMLP.mlp0 mlp)
         = Some [uProfileDim + uBehaviorSize * uBehaviorDim + iFeatureDim
                 + ctxFeatureDim; 200].
Proof.
  intros Hne. split.
  - unfold NewDinNet. destruct (Z.eqb_spec uBehaviorDim iFeatureDim); [contradiction|].
    reflexivity.
  - eexists. split; [reflexivity|]. reflexivity.
Qed.

Lemma constructors_on_dim_mismatch_witness :
  NewDinNet 1 2 8 4 1 = Fatal (ErrDimMismatch 8 4)
  /\ exists mlp,
      NewSimpleMLP 1 2 8 4 1 = Ret mlp
      /\ shapeOf (SimpleMLP.mlp0 mlp) = Some [1 + 2 * 8 + 4 + 1; 200].
Proof. apply (constructors_on_dim_mismatch 1 2 8 4 1). lia. Defined.

(** C3, the claim as stated fails: with behaviorDim 8 and itemFeatureDim 4
    the baseline constructor returns a model, and its forward pass over
    inputs of these dimensions builds the graph without any error. *)
Lemma NewSimpleMLP_accepts_dim_mismatch :
  exists mlp mlp',
    NewSimpleMLP 1 2 8 4 1 = Ret mlp
    /\ SimpleMLP.Fwd mlp (Leaf "xUserProfile" [3; 1] NoInit)
                     (Leaf "xUserBehaviorMatrix" [3; 16] NoInit)
                     (Leaf "xItemFeature" [3; 4] NoInit)
                     (Leaf "xCtxFeature" [3; 1] NoInit) 3 2 8
       = Ret (mlp', None)
    /\ option_map shapeOf (SimpleMLP.Out mlp') = Some (Some [3; 1]).
Proof. do 2 eexists. repeat split; vm_compute; reflexivity. Qed.

(** C4: when [uBehaviorDim] differs from the second dimension of the item
    tensor, [DinNet.Fwd] returns the mismatch as an error value (it neither
    exits nor panics), whatever the other arguments are, so no tensor
    operation has been attempted; the model comes back as it was, its output
    still unset. *)
Theorem DinNet_Fwd_dim_mismatch
        (din : DinNet.t) (xUserProfile ubMatrix xItemFeature xCtxFeature : Node)
        (batchSize uBehaviorSize uBehaviorDim : Z) (sh : Shape) (iFeatureDim : Z) :
  shapeOf xItemFeature = Some sh ->
  nth_error sh 1 = Some iFeatureDim ->
  uBehaviorDim <> iFeatureDim ->
  DinNet.Fwd din xUserProfile ubMatrix xItemFeature xCtxFeature
             batchSize uBehaviorSize uBehaviorDim
  = Ret (din, Some (ErrDimMismatch uBehaviorDim iFeatureDim)).
Proof.
  intros Hsh Hnth Hne. unfold DinNet.Fwd.
  rewrite Hsh. cbn [bind]. unfold index.
  change (1 <? 0) with false. change (Z.to_nat 1) with 1%nat. cbv iota.
  rewrite Hnth. cbn [bind].
  destruct (Z.eqb_spec uBehaviorDim iFeatureDim); [contradiction|]. reflexivity.
Qed.

Lemma DinNet_Fwd_dim_mismatch_witness :
  exists din,
    NewDinNet 1 2 8 8 1 = Ret din
    /\ DinNet.Fwd din (Leaf "xUserProfile" [3; 1] NoInit)
                  (Leaf "xUserBehaviorMatrix" [3; 7] NoInit)
                  (Leaf "xItemFeature" [3; 4] NoInit)
                  (Leaf "xCtxFeature" [3; 1] NoInit) 3 2 8
       = Ret (din, Some (ErrDimMismatch 8 4))
    /\ DinNet.Out din = None.
Proof.
  eexists. split; [reflexivity|]. split; [|reflexivity].
  apply (DinNet_Fwd_dim_mismatch _ _ _ _ _ 3 2 8 [3; 4] 4);
    [reflexivity | reflexivity | lia].
Defined.

(** ** The learnable parameters *)

Lemma att0_leaf_inj S D I i j : att0_leaf S D I i = att0_leaf S D I j -> i = j.
Proof.
  unfold att0_leaf. intros [= E]. now apply itoa_inj.
Qed.

Lemma att1_leaf_inj i j : att1_leaf i = att1_leaf j -> i = j.
Proof.
  unfold att1_leaf. intros [= E]. now apply itoa_inj.
Qed.

Lemma NoDup_map_inj {A B} (f : A -> B) (l : list A) :
  (forall a b, f a = f b -> a = b) -> NoDup l -> NoDup (map f l).
Proof.
  intros Hf Hl. apply NoDup_map_NoDup_ForallPairs; [|exact Hl].
  intros a b _ _. apply Hf.
Qed.

(** C10: for every slot count [S >= 0] the DIN model built by [NewDinNet]
    has [learnable() = mlp0, mlp1, mlp2, att0-0 .. att0-(S-1),
    att1-0 .. att1-(S-1)]: [3 + 2*S] nodes, one [att0]/[att1] pair per slot,
    no node twice; the baseline's [learnable()] is always the three nodes
    [mlp0, mlp1, mlp2], distinct for a model built by [NewSimpleMLP]. *)
Theorem learnable_nodes
        (uProfileDim uBehaviorSize uBehaviorDim iFeatureDim ctxFeatureDim : Z) :
  0 <= uBehaviorSize ->
  (exists din ps,
      NewDinNet uProfileDim uBehaviorSize uBehaviorDim uBehaviorDim ctxFeatureDim
      = Ret din
      /\ DinNet.learnable din = Ret ps
      /\ ps = [DinNet.mlp0 din; DinNet.mlp1 din; DinNet.mlp2 din]
              ++ map (att0_leaf uBehaviorSize uBehaviorDim uBehaviorDim)
                     (range uBehaviorSize)
              ++ map att1_leaf (range uBehaviorSize)
      /\ DinNet.att0 din
         = map (att0_leaf uBehaviorSize uBehaviorDim uBehaviorDim) (range uBehaviorSize)
      /\ DinNet.att1 din = map att1_leaf (range uBehaviorSize)
      /\ Z.of_nat (List.length ps) = 3 + 2 * uBehaviorSize
      /\ NoDup ps)
  /\ (forall mlp : SimpleMLP.t,
         SimpleMLP.learnable mlp
         = [SimpleMLP.mlp0 mlp; SimpleMLP.mlp1 mlp; SimpleMLP.mlp2 mlp])
  /\ (exists mlp,
         NewSimpleMLP uProfileDim uBehaviorSize uBehaviorDim iFeatureDim ctxFeatureDim
         = Ret mlp
         /\ List.length (SimpleMLP.learnable mlp) = 3%nat
         /\ NoDup (SimpleMLP.learnable mlp)).
Proof.
  intros HS. split; [|split].
  - unfold NewDinNet. rewrite Z.eqb_refl. cbn [negb].
    unfold make_check. destruct (Z.ltb_spec uBehaviorSize 0); [lia|]. cbn [bind].
    eexists. eexists. split; [reflexivity|].
    unfold DinNet.learnable.
    cbn [DinNet.uBehaviorSize DinNet.mlp0 DinNet.mlp1 DinNet.mlp2 DinNet.att0 DinNet.att1].
    destruct (Z.ltb_spec (3 + 2 * uBehaviorSize) 3); [lia|].
    split; [reflexivity|].
    split; [rewrite <- app_assoc; reflexivity|].
    split; [reflexivity|]. split; [reflexivity|].
    split.
    + rewrite !length_app, !length_map, !range_length. cbn [List.length]. lia.
    + rewrite <- app_assoc.
      assert (D0 : NoDup (map (att0_leaf uBehaviorSize uBehaviorDim uBehaviorDim)
                              (range uBehaviorSize)))
        by (apply NoDup_map_inj; [apply att0_leaf_inj | apply range_NoDup]).
      assert (D1 : NoDup (map att1_leaf (range uBehaviorSize)))
        by (apply NoDup_map_inj; [apply att1_leaf_inj | apply range_NoDup]).
      assert (D01 : NoDup (map (att0_leaf uBehaviorSize uBehaviorDim uBehaviorDim)
                               (range uBehaviorSize)
                           ++ map att1_leaf (range uBehaviorSize))).
      { apply NoDup_app; [exact D0 | exact D1 |].
        intros a Ha Hb. apply in_map_iff in Ha as (i & <- & _).
        apply in_map_iff in Hb as (j & E & _). discriminate E. }
      unfold G_NewMatrix, G_NewTensor, att0_leaf, att1_leaf in *. cbn [List.app].
      repeat (apply NoDup_cons;
              [ intros Hin; cbn [In] in Hin;
                rewrite ?in_app_iff, ?in_map_iff in Hin;
                repeat match goal with
                       | H : _ \/ _ |- _ => destruct H
                       | H : exists _, _ /\ _ |- _ => destruct H as (? & H & _)
                       | H : False |- _ => destruct H
                       | H : _ = _ |- _ => discriminate H
                       end
              | ]).
      exact D01.
  - reflexivity.
  - eexists. split; [reflexivity|]. split; [reflexivity|].
    unfold SimpleMLP.learnable. cbn.
    repeat (apply NoDup_cons;
            [ cbn [In]; intros Hin;
              repeat match goal with
                     | H : _ \/ _ |- _ => destruct H
                     | H : False |- _ => destruct H
                     | H : _ = _ |- _ => discriminate H
                     end
            | ]).
    constructor.
Qed.

Lemma learnable_nodes_witness :
  (exists din ps,
      NewDinNet 1 2 4 4 1 = Ret din
      /\ DinNet.learnable din = Ret ps
      /\ ps = [DinNet.mlp0 din; DinNet.mlp1 din; DinNet.mlp2 din]
              ++ map (att0_leaf 2 4 4) (range 2) ++ map att1_leaf (range 2)
      /\ DinNet.att0 din = map (att0_leaf 2 4 4) (range 2)
      /\ DinNet.att1 din = map att1_leaf (range 2)
      /\ Z.of_nat (List.length ps) = 3 + 2 * 2
      /\ NoDup ps)
  /\ (forall mlp : SimpleMLP.t,
         SimpleMLP.learnable mlp
         = [SimpleMLP.mlp0 mlp; SimpleMLP.mlp1 mlp; SimpleMLP.mlp2 mlp])
  /\ (exists mlp,
         NewSimpleMLP 1 2 4 4 1 = Ret mlp
         /\ List.length (SimpleMLP.learnable mlp) = 3%nat
         /\ NoDup (SimpleMLP.learnable mlp)).
Proof. apply (learnable_nodes 1 2 4 4 1). lia. Defined.

(** ** The accuracy metric *)

Lemma skipn_nth_error_cons {A} (l : list A) i x :
  nth_error l i = Some x -> skipn i l = x :: skipn (S i) l.
Proof.
  revert i. induction l as [|a l IH]; intros [|i] H; try discriminate.
  - now injection H as ->.
  - cbn [skipn]. now apply IH.
Qed.

Lemma accuracy_loop_count (prediction y : list float) :
  forall n i ok,
    (i + n = List.length prediction)%nat ->
    (List.length prediction <= List.length y)%nat ->
    accuracy_loop prediction y n i ok
    = Ret (Nat.iter (count_ok (skipn i prediction) (skipn i y))
                    (fun a => (a + 1)%float) ok).
Proof.
  induction n as [|n IH]; intros i ok Hi Hle.
  - cbn [accuracy_loop]. rewrite Nat.add_0_r in Hi. subst i.
    rewrite skipn_all. reflexivity.
  - cbn [accuracy_loop].
    destruct (nth_error prediction i) as [p|] eqn:Ep;
      [|apply nth_error_None in Ep; lia].
    destruct (nth_error y i) as [l|] eqn:El;
      [|apply nth_error_None in El; lia].
    rewrite IH by lia.
    rewrite (skipn_nth_error_cons prediction i p Ep).
    rewrite (skipn_nth_error_cons y i l El).
    rewrite Nat.add_1_r. unfold count_ok. cbn [combine filter fst snd].
    destruct (math_Round (p - l) =? 0)%float; cbn [List.length].
    + now rewrite Nat.iter_succ_r.
    + reflexivity.
Qed.

(** C8: on a prediction and a label vector of the same length, [accuracy]
    returns the number of indices [i] with [round(prediction[i] - y[i]) == 0]
    (counted up in float64) divided by the length; and
    [accuracy([0.6,0.4],[1,0]) = 1.0], [accuracy([0.4,0.4],[1,0]) = 0.5]. *)
Theorem accuracy_is_fraction_of_round_matches :
  (forall prediction y : list float,
      List.length prediction = List.length y ->
      accuracy prediction y
      = Ret (count_up (count_ok prediction y) / float_of_nat (List.length y))%float)
  /\ accuracy [0.6; 0.4]%float [1; 0]%float = Ret 1%float
  /\ accuracy [0.4; 0.4]%float [1; 0]%float = Ret 0.5%float.
Proof.
  split; [|split; vm_compute; reflexivity].
  intros prediction y Hlen. unfold accuracy.
  rewrite (accuracy_loop_count prediction y (List.length prediction) 0 0%float)
    by lia.
  reflexivity.
Qed.

Lemma accuracy_is_fraction_of_round_matches_witness :
  accuracy [0.6; 0.4; 0.9]%float [1; 0; 0]%float
  = Ret (count_up (count_ok [0.6; 0.4; 0.9]%float [1; 0; 0]%float)
         / float_of_nat 3)%float.
Proof.
  exact (proj1 accuracy_is_fraction_of_round_matches
               [0.6; 0.4; 0.9]%float [1; 0; 0]%float eq_refl).
Defined.

(** Counting up in float64 is exact on small counts. *)
Lemma count_up_small :
  Forall (fun k => count_up k = float_of_nat k) (seq 0 64).
Proof. vm_compute. repeat constructor. Qed.

(** ** Blocks of a row-major array *)

Lemma chunk_length n k (v : Value) :
  (k * n + n <= List.length v)%nat -> List.length (chunk n k v) = n.
Proof.
  intros H. unfold chunk. rewrite length_firstn, length_skipn. lia.
Qed.

Lemma flat_map_length_const {A} (f : A -> Value) (l : list A) n :
  (forall x, In x l -> List.length (f x) = n) ->
  List.length (flat_map f l) = (List.length l * n)%nat.
Proof.
  induction l as [|a l IH]; intros H; [reflexivity|].
  cbn [flat_map List.length]. rewrite length_app, IH, (H a).
  - lia.
  - now left.
  - intros x Hx. apply H. now right.
Qed.

Lemma chunk_app_skip n k (u w : Value) :
  List.length u = (k * n)%nat -> chunk n k (u ++ w) = firstn n w.
Proof.
  intros H. unfold chunk. rewrite skipn_app, H, Nat.sub_diag.
  rewrite skipn_all2 by lia. reflexivity.
Qed.

Lemma chunk_flat_map_seq (f : nat -> Value) m n k :
  (forall j, (j < m)%nat -> List.length (f j) = n) ->
  (k < m)%nat ->
  chunk n k (flat_map f (seq 0 m)) = f k.
Proof.
  intros Hlen Hk.
  replace m with (k + (1 + (m - k - 1)))%nat by lia.
  rewrite seq_app, flat_map_app. rewrite seq_app, flat_map_app.
  rewrite chunk_app_skip.
  - cbn [seq flat_map]. rewrite app_nil_r.
    rewrite firstn_app, firstn_all2 by (rewrite Hlen; lia).
    rewrite Hlen, Nat.sub_diag by lia. cbn [firstn]. now rewrite app_nil_r.
  - rewrite (flat_map_length_const f (seq 0 k) n), length_seq; [reflexivity|].
    intros x Hx. apply in_seq in Hx. apply Hlen. lia.
Qed.

Lemma flat_map_ext_In {A B} (f g : A -> list B) (l : list A) :
  (forall a, In a l -> f a = g a) -> flat_map f l = flat_map g l.
Proof.
  induction l as [|a l IH]; intros H; [reflexivity|].
  cbn [flat_map]. rewrite (H a) by now left.
  rewrite IH; [reflexivity|]. intros x Hx. apply H. now right.
Qed.

Lemma flat_map_chunk_all n m (v : Value) :
  List.length v = (m * n)%nat ->
  flat_map (fun o => chunk n o v) (seq 0 m) = v.
Proof.
  revert v. induction m as [|m IH]; intros v H.
  - destruct v; [reflexivity|discriminate].
  - rewrite seq_S, flat_map_app. cbn [flat_map Nat.add]. rewrite app_nil_r.
    transitivity (firstn (m * n) v ++ skipn (m * n) v); [|apply firstn_skipn].
    f_equal.
    + rewrite <- (IH (firstn (m * n) v)) by (rewrite length_firstn; lia).
      apply flat_map_ext_In. intros a Ha. apply in_seq in Ha.
      unfold chunk. rewrite skipn_firstn_comm, firstn_firstn.
      f_equal. nia.
    + unfold chunk. apply firstn_all2. rewrite length_skipn. lia.
Qed.

(** ** Shapes and values of the operations *)

Lemma size_nil : size [] = 1%nat.
Proof. reflexivity. Qed.

Lemma size_cons d rest :
  0 <= d -> 0 <= zprod rest -> size (d :: rest) = (Z.to_nat d * size rest)%nat.
Proof. intros Hd Hr. unfold size. cbn [zprod fold_right]. fold (zprod rest). apply Z2Nat.inj_mul; assumption. Qed.

Lemma size_1 d : size [d] = Z.to_nat d.
Proof. unfold size. cbn [zprod fold_right]. now rewrite Z.mul_1_r. Qed.

Lemma size_2 a b : 0 <= a -> 0 <= b -> size [a; b] = (Z.to_nat a * Z.to_nat b)%nat.
Proof. intros Ha Hb. rewrite size_cons, size_1; cbn [zprod fold_right]; lia. Qed.

Lemma size_3 a b c :
  0 <= a -> 0 <= b -> 0 <= c ->
  size [a; b; c] = (Z.to_nat a * (Z.to_nat b * Z.to_nat c))%nat.
Proof.
  intros Ha Hb Hc. rewrite size_cons, size_2; cbn [zprod fold_right]; nia.
Qed.

Lemma shape_eqb_refl sh : shape_eqb sh sh = true.
Proof. induction sh as [|d sh IH]; [reflexivity|]. cbn [shape_eqb]. now rewrite Z.eqb_refl, IH. Qed.

Lemma map2_length f a b :
  List.length a = List.length b -> List.length (map2 f a b) = List.length a.
Proof.
  revert b. induction a as [|x a IH]; intros [|y b] H; try discriminate; [reflexivity|].
  cbn [map2 List.length]. f_equal. apply IH. now injection H.
Qed.

Section NodeValues.

Variable sigmoid : float -> float.
Variable dropout : float -> float -> float -> float.
Variable env : Env.
Variable rnd : Node -> nat -> float.

Local Abbreviation has := (has_value sigmoid dropout env rnd).
Local Abbreviation evalOp' := (evalOp sigmoid dropout).

Lemma has_app1 op a sa va sh v :
  has a sa va ->
  inferShape op [sa] = Some sh ->
  evalOp' op [sa] [va] (rnd a) = v ->
  List.length v = size sh ->
  has (App op [a]) sh v.
Proof.
  intros (Hs & He & _) Hi Hv Hl. unfold has_value.
  cbn [shapeOf eval map all_some]. rewrite Hs, He. cbn [option_map hd].
  rewrite Hi, Hv. auto.
Qed.

Lemma has_app2 op a b sa sb va vb sh v :
  has a sa va -> has b sb vb ->
  inferShape op [sa; sb] = Some sh ->
  evalOp' op [sa; sb] [va; vb] (rnd a) = v ->
  List.length v = size sh ->
  has (App op [a; b]) sh v.
Proof.
  intros (Hs & He & _) (Hs' & He' & _) Hi Hv Hl. unfold has_value.
  cbn [shapeOf eval map all_some]. rewrite Hs, He, Hs', He'. cbn [option_map hd].
  rewrite Hi, Hv. auto.
Qed.

Lemma has_G_apply op args sh v :
  has (App op args) sh v -> G_apply op args = Some (App op args).
Proof. intros (Hs & _). unfold G_apply. now rewrite Hs. Qed.

Lemma has_leaf name sh init v :
  init <> Zeroes -> env name = Some v -> List.length v = size sh ->
  has (Leaf name sh init) sh v.
Proof.
  intros Hi He Hl. unfold has_value. cbn [shapeOf eval]. rewrite He, Hl, Nat.eqb_refl.
  destruct init; try contradiction; auto.
Qed.

Lemma has_zeroes name sh :
  has (Leaf name sh Zeroes) sh (repeat 0%float (size sh)).
Proof. unfold has_value. cbn [shapeOf eval]. now rewrite repeat_length. Qed.

Lemma has_reshape n sh v to :
  has n sh v -> valid_shape to = true -> zprod sh = zprod to ->
  has (App (opReshape to) [n]) to v.
Proof.
  intros H Hv Hz. eapply has_app1; [exact H | | reflexivity |].
  - cbn [inferShape]. now rewrite Hv, Hz, Z.eqb_refl.
  - destruct H as (_ & _ & Hl). rewrite Hl. unfold size. now rewrite Hz.
Qed.

Lemma has_slice_row n d rest v i :
  has n (d :: rest) v -> 0 <= i < d -> 0 <= zprod rest ->
  has (App (opSlice [S1 i]) [n]) rest (chunk (size rest) (Z.to_nat i) v).
Proof.
  intros H Hi Hr. eapply has_app1; [exact H | | reflexivity |].
  - cbn [inferShape slice_shape].
    destruct (Z.leb_spec 0 i); [|lia]. destruct (Z.ltb_spec i d); [|lia]. reflexivity.
  - destruct H as (_ & _ & Hl). apply chunk_length. rewrite Hl, size_cons by lia. nia.
Qed.

Lemma has_outer a b n m va vb :
  has a [n] va -> has b [m] vb -> 0 <= n -> 0 <= m ->
  has (App opOuterProd [a; b]) [n; m] (outer va vb).
Proof.
  intros Ha Hb Hn Hm. eapply has_app2; [exact Ha | exact Hb | reflexivity | reflexivity |].
  destruct Ha as (_ & _ & La), Hb as (_ & _ & Lb).
  unfold outer. rewrite (flat_map_length_const _ _ (List.length vb)).
  - rewrite La, Lb, !size_1, size_2 by lia. reflexivity.
  - intros x _. now rewrite length_map.
Qed.


Lemma has_unary op a sh va f :
  has a sh va ->
  inferShape op [sh] = Some sh ->
  (forall s, evalOp' op [sh] [va] s = map f va) ->
  has (App op [a]) sh (map f va).
Proof.
  intros H Hi Hv. eapply has_app1; [exact H | exact Hi | apply Hv |].
  destruct H as (_ & _ & Hl). now rewrite length_map.
Qed.

Lemma has_rectify a sh va :
  has a sh va -> has (App opRectify [a]) sh (map relu va).
Proof. intros H. apply has_unary; [exact H | reflexivity | reflexivity]. Qed.

Lemma has_binary op a b sh va vb f :
  has a sh va -> has b sh vb ->
  inferShape op [sh; sh] = Some sh ->
  (forall s, evalOp' op [sh; sh] [va; vb] s = map2 f va vb) ->
  has (App op [a; b]) sh (map2 f va vb).
Proof.
  intros Ha Hb Hi Hv. eapply has_app2; [exact Ha | exact Hb | exact Hi | apply Hv |].
  destruct Ha as (_ & _ & La), Hb as (_ & _ & Lb).
  rewrite map2_length; congruence.
Qed.

Lemma has_add a b sh va vb :
  has a sh va -> has b sh vb ->
  has (App opAdd [a; b]) sh (map2 PrimFloat.add va vb).
Proof.
  intros Ha Hb. apply has_binary; [exact Ha | exact Hb | | reflexivity].
  cbn [inferShape]. now rewrite shape_eqb_refl.
Qed.

Lemma has_sub a b sh va vb :
  has a sh va -> has b sh vb ->
  has (App opSub [a; b]) sh (map2 PrimFloat.sub va vb).
Proof.
  intros Ha Hb. apply has_binary; [exact Ha | exact Hb | | reflexivity].
  cbn [inferShape]. now rewrite shape_eqb_refl.
Qed.

Lemma matmul_length m k n a b : List.length (matmul m k n a b) = (m * n)%nat.
Proof.
  unfold matmul. rewrite (flat_map_length_const _ _ n), length_seq; [reflexivity|].
  intros x _. unfold vecmat. now rewrite length_map, length_seq.
Qed.

Lemma has_mul a b m k n va vb :
  has a [m; k] va -> has b [k; n] vb -> 0 <= m -> 0 <= n ->
  has (App opMul [a; b]) [m; n]
      (matmul (Z.to_nat m) (Z.to_nat k) (Z.to_nat n) va vb).
Proof.
  intros Ha Hb Hm Hn. eapply has_app2; [exact Ha | exact Hb | | reflexivity |].
  - cbn [inferShape]. now rewrite Z.eqb_refl.
  - rewrite matmul_length, size_2 by lia. reflexivity.
Qed.

Lemma has_slice_col n B S D v i :
  has n [B; S; D] v -> 0 <= i < S -> 0 <= B -> 0 <= D ->
  has (App (opSlice [SAll; S1 i]) [n]) [B; D]
      (flat_map (fun b => chunk (Z.to_nat D) (Z.to_nat i)
                                (chunk (Z.to_nat S * Z.to_nat D) b v))
                (seq 0 (Z.to_nat B))).
Proof.
  intros H Hi HB HD. eapply has_app1; [exact H | | |].
  - cbn [inferShape slice_shape].
    destruct (Z.leb_spec 0 i); [|lia]. destruct (Z.ltb_spec i S); [|lia]. reflexivity.
  - cbn [evalOp slice_data]. rewrite size_1, size_2 by lia. reflexivity.
  - destruct H as (_ & _ & Hl).
    rewrite size_3 in Hl by lia.
    rewrite size_2 by lia.
    rewrite (flat_map_length_const _ _ (Z.to_nat D)); [now rewrite length_seq|].
    intros b Hb. apply in_seq in Hb. apply chunk_length.
    rewrite chunk_length; nia.
Qed.


Lemma has_concat1_3 a b c B x y z va vb vc :
  has a [B; x] va -> has b [B; y] vb -> has c [B; z] vc ->
  0 <= B -> 0 <= x -> 0 <= y -> 0 <= z ->
  has (App (opConcat 1) [a; b; c]) [B; x + y + z]
      (flat_map (fun o => chunk (Z.to_nat x) o va ++ chunk (Z.to_nat y) o vb
                          ++ chunk (Z.to_nat z) o vc)
                (seq 0 (Z.to_nat B))).
Proof.
  intros (Sa & Ea & La) (Sb & Eb & Lb) (Sc & Ec & Lc) HB Hx Hy Hz.
  rewrite size_2 in La, Lb, Lc by lia.
  unfold has_value. cbn [shapeOf eval map all_some].
  rewrite Sa, Sb, Sc, Ea, Eb, Ec. cbn [option_map hd].
  match goal with
  | |- ?X = _ /\ _ => assert (Hi : X = Some [B; x + y + z])
  end.
  { cbn [inferShape]. change (1 <? 0) with false. cbv iota.
    change (Z.to_nat 1) with 1%nat. cbn [List.length Nat.ltb Nat.leb fold_left].
    cbn [concat_shape]. rewrite !Z.eqb_refl. cbn [option_map concat_shape shape_eqb].
    rewrite Z.eqb_refl. reflexivity. }
  rewrite Hi. split; [reflexivity|]. split.
  - f_equal. cbn [evalOp]. change (Z.to_nat 1) with 1%nat.
    unfold concat_data. cbn [firstn combine].
    rewrite size_1. apply flat_map_ext. intros o.
    cbn [flat_map fst snd skipn]. now rewrite !size_1, app_nil_r.
  - rewrite size_2 by lia.
    rewrite (flat_map_length_const _ _ (Z.to_nat (x + y + z))); [now rewrite length_seq|].
    intros o Ho. apply in_seq in Ho.
    rewrite !length_app, !chunk_length by nia. lia.
Qed.

Lemma concat_repeat_length (c : Value) k :
  List.length (List.concat (repeat c k)) = (k * List.length c)%nat.
Proof.
  induction k as [|k IH]; [reflexivity|].
  cbn [repeat List.concat]. rewrite length_app, IH. lia.
Qed.

Lemma has_bhp_right1 a b B D va vb :
  has a [B; D] va -> has b [B; 1] vb -> 0 <= B -> 0 <= D ->
  has (App (opBroadcastHadamardProd [] [1]) [a; b]) [B; D]
      (map2 PrimFloat.mul va
            (flat_map (fun o => List.concat (repeat (chunk 1 o vb) (Z.to_nat D)))
                      (seq 0 (Z.to_nat B)))).
Proof.
  intros Ha Hb HB HD. eapply has_app2; [exact Ha | exact Hb | | |].
  - cbn [inferShape expand_shape existsb Z.eqb Z.add Pos.add Pos.succ orb Pos.eqb].
    rewrite shape_eqb_refl. reflexivity.
  - cbn [evalOp broadcast expand_data existsb Z.eqb Z.add Pos.add Pos.succ orb Pos.eqb].
    rewrite size_1. reflexivity.
  - destruct Ha as (_ & _ & La), Hb as (_ & _ & Lb).
    rewrite size_2 in La, Lb by lia.
    assert (Lx : List.length
                   (flat_map (fun o => List.concat (repeat (chunk 1 o vb) (Z.to_nat D)))
                             (seq 0 (Z.to_nat B)))
                 = (Z.to_nat B * Z.to_nat D)%nat).
    { rewrite (flat_map_length_const _ _ (Z.to_nat D)); [now rewrite length_seq|].
      intros o Ho. apply in_seq in Ho.
      rewrite concat_repeat_length, chunk_length; [lia|].
      change (Z.to_nat 1) with 1%nat in Lb. lia. }
    rewrite map2_length, size_2 by lia. exact La.
Qed.

Lemma all_some_map {A B} (F : A -> option B) (G : A -> B) (l : list A) :
  (forall x, In x l -> F x = Some (G x)) ->
  all_some (map F l) = Some (map G l).
Proof.
  induction l as [|a l IH]; intros H; [reflexivity|].
  cbn [map all_some]. rewrite (H a) by now left.
  rewrite IH; [reflexivity|]. intros x Hx. apply H. now right.
Qed.

Lemma concat0_shape_fold (L : Z) (l : list Shape) (a : Z) :
  (forall s, In s l -> s = [L]) ->
  fold_left (fun acc s' => match acc with
                           | Some x => concat_shape 0 x s'
                           | None => None
                           end) l (Some [a])
  = Some [a + Z.of_nat (List.length l) * L].
Proof.
  revert a. induction l as [|s l IH]; intros a H.
  - cbn [fold_left List.length]. f_equal. f_equal. lia.
  - cbn [fold_left]. rewrite (H s) by now left. cbn [concat_shape shape_eqb].
    rewrite IH by (intros x Hx; apply H; now right).
    f_equal. f_equal. cbn [List.length]. lia.
Qed.

Lemma flat_map_combine_map {A} (F : Shape * Value -> Value)
      (f : A -> Shape) (g : A -> Value) (l : list A) :
  flat_map F (combine (map f l) (map g l)) = flat_map (fun x => F (f x, g x)) l.
Proof.
  induction l as [|a l IH]; [reflexivity|].
  cbn [map combine flat_map]. now rewrite IH.
Qed.

(** Concatenating, along axis 0, vectors of one length [L]. *)
Lemma has_concat0 {A} (f : A -> Node) (g : A -> Value) (l : list A) (L : Z) :
  l <> [] -> 0 <= L ->
  (forall x, In x l -> has (f x) [L] (g x)) ->
  has (App (opConcat 0) (map f l)) [Z.of_nat (List.length l) * L] (flat_map g l).
Proof.
  intros Hne HL H. unfold has_value. cbn [shapeOf eval].
  rewrite map_map, (all_some_map _ (fun _ => [L])) by (intros x Hx; apply (H x Hx)).
  rewrite map_map, (all_some_map _ g) by (intros x Hx; apply (H x Hx)).
  match goal with
  | |- ?X = _ /\ _ => assert (Hi : X = Some [Z.of_nat (List.length l) * L])
  end.
  { destruct l as [|a l]; [contradiction|].
    cbn [map inferShape]. change (0 <? 0) with false. cbv iota.
    change (Z.to_nat 0) with 0%nat. cbn [List.length Nat.ltb Nat.leb].
    rewrite (concat0_shape_fold L).
    - rewrite length_map. f_equal. f_equal. lia.
    - intros s Hs. apply in_map_iff in Hs as (x & <- & _). reflexivity. }
  rewrite Hi. split; [reflexivity|]. split.
  - f_equal. cbn [evalOp]. change (Z.to_nat 0) with 0%nat.
    unfold concat_data. destruct l as [|a l]; [contradiction|].
    cbn [map]. cbn [firstn]. rewrite size_nil. cbn [seq flat_map].
    rewrite app_nil_r.
    change ([L] :: map (fun _ : A => [L]) l) with (map (fun _ : A => [L]) (a :: l)).
    change (g a :: map g l) with (map g (a :: l)).
    rewrite flat_map_combine_map.
    change (g a ++ flat_map g l) with (flat_map g (a :: l)).
    apply flat_map_ext_In.
    intros x Hx. cbn [fst snd skipn]. unfold chunk. cbn [Nat.mul skipn].
    apply firstn_all2. destruct (H x Hx) as (_ & _ & Lx). rewrite Lx. lia.
  - rewrite (flat_map_length_const _ _ (Z.to_nat L)).
    + rewrite size_1. lia.
    + intros x Hx. destruct (H x Hx) as (_ & _ & Lx). now rewrite Lx, size_1.
Qed.

End NodeValues.

(** ** Lists of floats, block by block *)

Lemma chunk_map (f : float -> float) n k (v : Value) :
  chunk n k (map f v) = map f (chunk n k v).
Proof. unfold chunk. now rewrite skipn_map, firstn_map. Qed.

Lemma chunk_matmul m k n a b r :
  (r < m)%nat -> chunk n r (matmul m k n a b) = vecmat k n (chunk k r a) b.
Proof.
  intros Hr. unfold matmul. apply chunk_flat_map_seq; [|exact Hr].
  intros j _. unfold vecmat. now rewrite length_map, length_seq.
Qed.

Lemma map2_app f (a a' b b' : Value) :
  List.length a = List.length b ->
  map2 f (a ++ a') (b ++ b') = map2 f a b ++ map2 f a' b'.
Proof.
  revert b. induction a as [|x a IH]; intros [|y b] H; try discriminate; [reflexivity|].
  cbn [List.app map2]. f_equal. apply IH. now injection H.
Qed.

Lemma map2_flat_map {A} f (F G : A -> Value) (l : list A) :
  (forall x, In x l -> List.length (F x) = List.length (G x)) ->
  map2 f (flat_map F l) (flat_map G l) = flat_map (fun x => map2 f (F x) (G x)) l.
Proof.
  induction l as [|a l IH]; intros H; [reflexivity|].
  cbn [flat_map]. rewrite map2_app by (apply H; now left).
  rewrite IH; [reflexivity|]. intros x Hx. apply H. now right.
Qed.

Lemma map2_repeat f (a : Value) s :
  map2 f a (repeat s (List.length a)) = map (fun u => f u s) a.
Proof. induction a as [|x a IH]; [reflexivity|]. cbn. now rewrite IH. Qed.

Lemma concat_repeat_singleton (s : float) n :
  List.concat (repeat [s] n) = repeat s n.
Proof. induction n as [|n IH]; [reflexivity|]. cbn. now rewrite IH. Qed.

Lemma outer_length a b : List.length (outer a b) = (List.length a * List.length b)%nat.
Proof.
  unfold outer. apply flat_map_length_const. intros x _. apply length_map.
Qed.

Lemma fold_left_map {A B C} (f : A -> C -> A) (g : B -> C) (l : list B) (a : A) :
  fold_left (fun acc x => f acc (g x)) l a = fold_left f (map g l) a.
Proof. revert a. induction l as [|x l IH]; intros a; [reflexivity|]. cbn. apply IH. Qed.

(** ** The values of the DIN layers, example by example *)

Section ExamplewiseFacts.

Variables (nB nS nD nk : nat) (du di : Value).
Hypothesis Hdu : List.length du = (nB * (nS * nD))%nat.
Hypothesis Hdi : List.length di = (nB * nD)%nat.

Lemma behaviors_length b : (b < nB)%nat -> List.length (behaviors nS nD du b) = (nS * nD)%nat.
Proof. intros Hb. unfold behaviors. apply chunk_length. nia. Qed.

Lemma behavior_length b i :
  (b < nB)%nat -> (i < nS)%nat -> List.length (behavior nS nD du b i) = nD.
Proof.
  intros Hb Hi. unfold behavior. apply chunk_length. rewrite behaviors_length by lia. nia.
Qed.

Lemma item_length b : (b < nB)%nat -> List.length (item nD di b) = nD.
Proof. intros Hb. unfold item. apply chunk_length. nia. Qed.

Lemma outProd_length b :
  (b < nB)%nat -> List.length (outProd nS nD du di b) = (nS * nD * nD)%nat.
Proof.
  intros Hb. unfold outProd. now rewrite outer_length, behaviors_length, item_length.
Qed.

Lemma actConcat_length b i :
  (b < nB)%nat -> (i < nS)%nat ->
  List.length (actConcat nS nD du di b i) = (nD + nS * nD * nD + nD)%nat.
Proof.
  intros Hb Hi. unfold actConcat.
  rewrite !length_app, behavior_length, outProd_length, item_length by lia. lia.
Qed.

(** The value of the whole activation unit is, example after example, the
    behavior gated by its score. *)
Lemma actOut_value (A0 A1 : Value) i :
  (i < nS)%nat ->
  let ubi := flat_map (fun b => behavior nS nD du b i) (seq 0 nB) in
  let dop := flat_map (outProd nS nD du di) (seq 0 nB) in
  let ac := flat_map (fun o => chunk nD o ubi ++ chunk (nS * nD * nD) o dop
                               ++ chunk nD o di) (seq 0 nB) in
  let s := map relu (matmul nB nk 1
                            (matmul nB (nD + nS * nD * nD + nD) nk ac A0) A1) in
  map2 PrimFloat.mul ubi
       (flat_map (fun o => List.concat (repeat (chunk 1 o s) nD)) (seq 0 nB))
  = flat_map (fun b => gated nS nD nk du di A0 A1 b i) (seq 0 nB).
Proof.
  intros Hi ubi dop ac s.
  assert (Hs : forall b, (b < nB)%nat ->
                         chunk 1 b s = [score nS nD nk du di A0 A1 b i]).
  { intros b Hb. unfold s. rewrite chunk_map, !chunk_matmul by exact Hb.
    unfold ac. rewrite chunk_flat_map_seq; [|intros j Hj|exact Hb].
    - unfold ubi at 1. rewrite chunk_flat_map_seq;
        [|intros j Hj; apply behavior_length; lia|exact Hb].
      unfold dop at 1. rewrite chunk_flat_map_seq;
        [|intros j Hj; apply outProd_length; lia|exact Hb].
      reflexivity.
    - unfold ubi, dop.
      rewrite !length_app.
      rewrite !chunk_flat_map_seq;
        try (intros; first [apply behavior_length | apply outProd_length]; lia);
        try exact Hj.
      rewrite behavior_length, outProd_length by lia.
      fold (item nD di j). rewrite item_length by lia. lia. }
  unfold ubi at 1. rewrite map2_flat_map.
  - apply flat_map_ext_In. intros b Hb. apply in_seq in Hb.
    rewrite Hs by lia. rewrite concat_repeat_singleton.
    unfold gated. rewrite <- map2_repeat.
    now rewrite behavior_length by lia.
  - intros b Hb. apply in_seq in Hb.
    rewrite Hs by lia. rewrite concat_repeat_singleton, repeat_length.
    apply behavior_length; lia.
Qed.

End ExamplewiseFacts.

(** ** The graph of the DIN layers *)

Lemma mapM_Ret {A B} (f : A -> outcome B) (g : A -> B) (l : list A) :
  (forall x, In x l -> f x = Ret (g x)) -> mapM f l = Ret (map g l).
Proof.
  induction l as [|a l IH]; intros H; [reflexivity|].
  cbn [mapM map]. rewrite (H a) by now left. cbn [bind].
  rewrite IH; [reflexivity|]. intros x Hx. apply H. now right.
Qed.

Lemma flat_map_range (g : nat -> Value) n :
  flat_map (fun i => g (Z.to_nat i)) (range n) = flat_map g (seq 0 (Z.to_nat n)).
Proof.
  unfold range. rewrite !flat_map_concat_map, map_map. f_equal.
  apply map_ext. intros a. now rewrite Nat2Z.id.
Qed.

Section DinGraph.

Variable sigmoid : float -> float.
Variable dropout : float -> float -> float -> float.
Variable env : Env.
Variable rnd : Node -> nat -> float.

Local Abbreviation has := (has_value sigmoid dropout env rnd).

Lemma has_eq n sh v v' : has n sh v -> v = v' -> has n sh v'.
Proof. now intros H <-. Qed.

Lemma has_shape_eq n sh sh' v : has n sh v -> sh = sh' -> has n sh' v.
Proof. now intros H <-. Qed.

Lemma Must_has op args sh v :
  has (App op args) sh v -> Must (G_apply op args) = Ret (App op args).
Proof. intros H. now rewrite (has_G_apply _ _ _ _ _ _ _ _ H). Qed.

Variables (ubMatrix xItemFeature : Node) (B S D : Z) (du di : Value).
Hypothesis HB : 0 < B.
Hypothesis HS : 0 <= S.
Hypothesis HD : 0 <= D.
Hypothesis Hub : has ubMatrix [B; S * D] du.
Hypothesis Hitem : has xItemFeature [B; D] di.

Local Abbreviation nB := (Z.to_nat B).
Local Abbreviation nS := (Z.to_nat S).
Local Abbreviation nD := (Z.to_nat D).

Lemma du_length : List.length du = (nB * (nS * nD))%nat.
Proof.
  destruct Hub as (_ & _ & L). rewrite L, size_2 by nia.
  now rewrite Z2Nat.inj_mul by lia.
Qed.

Lemma di_length : List.length di = (nB * nD)%nat.
Proof. destruct Hitem as (_ & _ & L). now rewrite L, size_2 by lia. Qed.

Lemma outProdVec_has i :
  0 <= i < B ->
  has (outProdVec_node ubMatrix xItemFeature S D D i) [S * D * D]
      (outProd nS nD du di (Z.to_nat i)).
Proof.
  intros Hi. unfold outProdVec_node, outProd, behaviors, item.
  eapply has_reshape.
  - apply has_outer.
    + eapply has_eq.
      * apply (has_slice_row _ _ _ _ _ _ _ _ i Hub); cbn [zprod fold_right]; nia.
      * rewrite size_1. now rewrite Z2Nat.inj_mul by lia.
    + eapply has_eq.
      * apply (has_slice_row _ _ _ _ _ _ _ _ i Hitem); cbn [zprod fold_right]; nia.
      * now rewrite size_1.
    + nia.
    + lia.
  - cbn [valid_shape forallb]. rewrite andb_true_r. apply Z.leb_le. nia.
  - cbn [zprod fold_right]. ring.
Qed.

Lemma outProdVec_ok i :
  0 <= i < B ->
  DinNet.outProdVec ubMatrix xItemFeature S D D i
  = Ret (outProdVec_node ubMatrix xItemFeature S D D i).
Proof.
  intros Hi. pose proof (outProdVec_has i Hi) as H.
  unfold outProdVec_node in H. unfold DinNet.outProdVec.
  assert (Hu : has (App (opSlice [S1 i]) [ubMatrix]) [S * D]
                   (chunk (size [S * D]) (Z.to_nat i) du))
    by (apply (has_slice_row _ _ _ _ _ _ _ _ i Hub); cbn [zprod fold_right]; nia).
  assert (Hv : has (App (opSlice [S1 i]) [xItemFeature]) [D]
                   (chunk (size [D]) (Z.to_nat i) di))
    by (apply (has_slice_row _ _ _ _ _ _ _ _ i Hitem); cbn [zprod fold_right]; nia).
  unfold G_Slice. rewrite (Must_has _ _ _ _ Hu). cbn [bind].
  rewrite (Must_has _ _ _ _ Hv). cbn [bind].
  assert (Ho := has_outer _ _ _ _ _ _ _ _ _ _ Hu Hv ltac:(nia) HD).
  unfold G_OuterProd. rewrite (Must_has _ _ _ _ Ho). cbn [bind].
  unfold G_Reshape. apply (Must_has _ _ _ _ H).
Qed.

Lemma outProducts_has :
  has (outProducts_node ubMatrix xItemFeature B S D D) [B; S * D * D]
      (flat_map (outProd nS nD du di) (seq 0 nB)).
Proof.
  unfold outProducts_node. eapply has_reshape.
  - eapply has_eq.
    + apply (has_concat0 _ _ _ _ _
                         (fun i => outProd nS nD du di (Z.to_nat i))
                         (range B) (S * D * D)).
      * intros E. apply (f_equal (@List.length Z)) in E.
        rewrite range_length in E. cbn in E. lia.
      * nia.
      * intros i Hi. apply range_In in Hi. now apply outProdVec_has.
    + apply flat_map_range.
  - cbn [valid_shape forallb]. rewrite andb_true_r.
    apply andb_true_intro. split; apply Z.leb_le; nia.
  - rewrite range_length. cbn [zprod fold_right]. rewrite Z2Nat.id by lia. ring.
Qed.

Lemma outProducts_ok :
  DinNet.outProducts ubMatrix xItemFeature B S D D
  = Ret (outProducts_node ubMatrix xItemFeature B S D D).
Proof.
  pose proof outProducts_has as H. unfold outProducts_node in H.
  unfold DinNet.outProducts, make_check.
  destruct (Z.ltb_spec B 0); [lia|]. cbn [bind].
  rewrite (mapM_Ret _ (outProdVec_node ubMatrix xItemFeature S D D))
    by (intros i Hi; apply range_In in Hi; now apply outProdVec_ok).
  cbn [bind].
  assert (Hc : has (App (opConcat 0)
                        (map (outProdVec_node ubMatrix xItemFeature S D D) (range B)))
                   [Z.of_nat (List.length (range B)) * (S * D * D)]
                   (flat_map (fun i => outProd nS nD du di (Z.to_nat i)) (range B))).
  { apply has_concat0.
    - intros E. apply (f_equal (@List.length Z)) in E.
      rewrite range_length in E. cbn in E. lia.
    - nia.
    - intros i Hi. apply range_In in Hi. now apply outProdVec_has. }
  unfold G_Concat. rewrite (Must_has _ _ _ _ Hc). cbn [bind].
  unfold G_Reshape. apply (Must_has _ _ _ _ H).
Qed.


Variables (din : DinNet.t) (a0 a1 : Z -> Node) (A0 A1 : nat -> Value) (k : Z).
Hypothesis Hk : 0 <= k.
Hypothesis Hatt0 : forall i, 0 <= i < S ->
  index (DinNet.att0 din) i = Ret (a0 i)
  /\ has (a0 i) [D + D + S * D * D; k] (A0 (Z.to_nat i)).
Hypothesis Hatt1 : forall i, 0 <= i < S ->
  index (DinNet.att1 din) i = Ret (a1 i)
  /\ has (a1 i) [k; 1] (A1 (Z.to_nat i)).

Local Abbreviation nk := (Z.to_nat k).
Local Abbreviation xUserBehaviors := (App (opReshape [B; S; D]) [ubMatrix]).
Local Abbreviation outProds := (outProducts_node ubMatrix xItemFeature B S D D).

Lemma xUserBehaviors_has : has xUserBehaviors [B; S; D] du.
Proof.
  eapply has_reshape; [exact Hub | |].
  - cbn [valid_shape forallb]. rewrite andb_true_r.
    repeat (apply andb_true_intro; split); apply Z.leb_le; lia.
  - cbn [zprod fold_right]. ring.
Qed.

Lemma ub_slot_has i :
  0 <= i < S ->
  has (App (opSlice [SAll; S1 i]) [xUserBehaviors]) [B; D]
      (flat_map (fun b => behavior nS nD du b (Z.to_nat i)) (seq 0 nB)).
Proof.
  intros Hi. apply (has_slice_col _ _ _ _ _ _ _ _ _ _ xUserBehaviors_has); lia.
Qed.

Lemma nat_of_actConcat_width :
  Z.to_nat (D + S * D * D + D) = (nD + nS * nD * nD + nD)%nat.
Proof.
  rewrite !Z2Nat.inj_add, !Z2Nat.inj_mul by nia. reflexivity.
Qed.

Lemma actOut_has i :
  0 <= i < S ->
  has (actOut_node xUserBehaviors outProds xItemFeature (a0 i) (a1 i) i) [B; D]
      (flat_map (fun b => gated nS nD nk du di (A0 (Z.to_nat i)) (A1 (Z.to_nat i))
                                b (Z.to_nat i))
                (seq 0 nB)).
Proof.
  intros Hi. unfold actOut_node.
  pose proof (ub_slot_has i Hi) as Hu.
  assert (Hc := has_concat1_3 _ _ _ _ _ _ _ _ _ _ _ _ _ _ Hu outProducts_has Hitem
                              ltac:(lia) HD ltac:(nia) HD).
  destruct (Hatt0 i Hi) as (_ & H0). destruct (Hatt1 i Hi) as (_ & H1).
  assert (H0' : has (a0 i) [D + S * D * D + D; k] (A0 (Z.to_nat i))).
  { eapply has_shape_eq; [exact H0|]. f_equal. ring. }
  assert (Hm0 := has_mul _ _ _ _ _ _ _ _ _ _ _ Hc H0' ltac:(lia) Hk).
  assert (Hm1 := has_mul _ _ _ _ _ _ _ _ _ _ _ Hm0 H1 ltac:(lia) ltac:(lia)).
  assert (Hr := has_rectify _ _ _ _ _ _ _ Hm1).
  assert (Hb := has_bhp_right1 _ _ _ _ _ _ _ _ _ _ Hu Hr ltac:(lia) HD).
  eapply has_eq; [exact Hb|].
  rewrite nat_of_actConcat_width.
  replace (Z.to_nat (S * D * D)) with (nS * nD * nD)%nat
    by (now rewrite !Z2Nat.inj_mul by nia).
  change (Z.to_nat 1) with 1%nat.
  apply (actOut_value nB nS nD nk du di du_length di_length).
  lia.
Qed.

Lemma actOut_ok i :
  0 <= i < S ->
  DinNet.actOut din xUserBehaviors outProds xItemFeature i
  = Ret (actOut_node xUserBehaviors outProds xItemFeature (a0 i) (a1 i) i).
Proof.
  intros Hi. pose proof (actOut_has i Hi) as H. unfold actOut_node in H.
  pose proof (ub_slot_has i Hi) as Hu.
  assert (Hc := has_concat1_3 _ _ _ _ _ _ _ _ _ _ _ _ _ _ Hu outProducts_has Hitem
                              ltac:(lia) HD ltac:(nia) HD).
  destruct (Hatt0 i Hi) as (I0 & H0). destruct (Hatt1 i Hi) as (I1 & H1).
  assert (H0' : has (a0 i) [D + S * D * D + D; k] (A0 (Z.to_nat i))).
  { eapply has_shape_eq; [exact H0|]. f_equal. ring. }
  assert (Hm0 := has_mul _ _ _ _ _ _ _ _ _ _ _ Hc H0' ltac:(lia) Hk).
  assert (Hm1 := has_mul _ _ _ _ _ _ _ _ _ _ _ Hm0 H1 ltac:(lia) ltac:(lia)).
  assert (Hr := has_rectify _ _ _ _ _ _ _ Hm1).
  unfold DinNet.actOut.
  unfold G_Slice. rewrite (Must_has _ _ _ _ Hu). cbn [bind].
  unfold G_Concat. rewrite (Must_has _ _ _ _ Hc). cbn [bind].
  rewrite I0. cbn [bind].
  unfold G_Mul. rewrite (Must_has _ _ _ _ Hm0). cbn [bind].
  rewrite I1. cbn [bind].
  rewrite (Must_has _ _ _ _ Hm1). cbn [bind].
  unfold G_Rectify. rewrite (Must_has _ _ _ _ Hr). cbn [bind].
  unfold G_BroadcastHadamardProd. apply (Must_has _ _ _ _ H).
Qed.

(** The value of slot [i] over the whole batch. *)
Local Abbreviation slot_value i :=
  (flat_map (fun b => gated nS nD nk du di (A0 i) (A1 i) b i) (seq 0 nB)).

Lemma pooling_ok (l : list Z) :
  (forall i, In i l -> 0 <= i < S) ->
  forall acc vacc,
    has acc [B; D] vacc ->
    let step := fun acc i =>
                  App opAdd [acc; actOut_node xUserBehaviors outProds xItemFeature
                                              (a0 i) (a1 i) i] in
    foldM (fun acc i =>
             a <- DinNet.actOut din xUserBehaviors outProds xItemFeature i ;;
             Must (G_Add acc a)) l acc
    = Ret (fold_left step l acc)
    /\ has (fold_left step l acc) [B; D]
           (sum_onto vacc (map (fun i => slot_value (Z.to_nat i)) l)).
Proof.
  induction l as [|i l IH]; intros Hl acc vacc Hacc step.
  - cbn. split; [reflexivity|exact Hacc].
  - assert (Hi : 0 <= i < S) by (apply Hl; now left).
    pose proof (actOut_has i Hi) as Ha.
    pose proof (has_add _ _ _ _ _ _ _ _ _ Hacc Ha) as Hadd.
    cbn [foldM fold_left map]. rewrite (actOut_ok i Hi). cbn [bind].
    unfold G_Add. rewrite (Must_has _ _ _ _ Hadd). cbn [bind].
    unfold sum_onto. cbn [fold_left].
    apply IH; [|exact Hadd]. intros j Hj. apply Hl. now right.
Qed.

Lemma userInterest_ok :
  DinNet.userInterest din ubMatrix xItemFeature B S D D
  = Ret (actOuts_node xUserBehaviors outProds xItemFeature a0 a1 B S D)
  /\ has (actOuts_node xUserBehaviors outProds xItemFeature a0 a1 B S D) [B; D]
         (sum_onto (repeat 0%float (nB * nD)) (map (fun i => slot_value i) (seq 0 nS))).
Proof.
  unfold DinNet.userInterest.
  unfold G_Reshape. rewrite (Must_has _ _ _ _ xUserBehaviors_has). cbn [bind].
  rewrite outProducts_ok. cbn [bind].
  unfold DinNet.actOuts, actOuts_node, G_NewTensor.
  assert (Hz : has (Leaf "actOuts" [B; D] Zeroes) [B; D] (repeat 0%float (nB * nD))).
  { eapply has_eq; [apply has_zeroes|]. now rewrite size_2 by lia. }
  destruct (pooling_ok (range S) (fun i Hi => proj1 (range_In S i) Hi) _ _ Hz)
    as (E & H).
  split; [exact E|].
  eapply has_eq; [exact H|]. f_equal. unfold range. now rewrite map_map,
    (map_ext _ (fun i => slot_value i)) by (intros; now rewrite Nat2Z.id).
Qed.

End DinGraph.

(** ** The interaction tensor *)

(** C2: for well-shaped inputs [DinNet.outProducts] returns a node of shape
    [B, S*D*D] whose row [b] is the flattened outer product of row [b] of the
    behavior matrix (all [S*D] numbers) with row [b] of the item matrix, and
    of nothing else; the outer product of [1,2] and [3,4] flattens to
    [3,4,6,8], which is also what the graph built for that one example
    evaluates to. *)
Theorem outProducts_is_examplewise_outer_product :
  (forall sigmoid dropout env rnd ubMatrix xItemFeature B S D du di,
      0 < B -> 0 <= S -> 0 <= D ->
      has_value sigmoid dropout env rnd ubMatrix [B; S * D] du ->
      has_value sigmoid dropout env rnd xItemFeature [B; D] di ->
      exists n v,
        DinNet.outProducts ubMatrix xItemFeature B S D D = Ret n
        /\ has_value sigmoid dropout env rnd n [B; S * D * D] v
        /\ forall b, (b < Z.to_nat B)%nat ->
             chunk (Z.to_nat S * Z.to_nat D * Z.to_nat D) b v
             = outer (chunk (Z.to_nat S * Z.to_nat D) b du)
                     (chunk (Z.to_nat D) b di))
  /\ outer [1; 2]%float [3; 4]%float = [3; 4; 6; 8]%float
  /\ (forall sigmoid dropout rnd,
         exists n,
           DinNet.outProducts (Leaf "ubMatrix" [1; 2] NoInit)
                              (Leaf "xItemFeature" [1; 2] NoInit) 1 1 2 2 = Ret n
           /\ eval sigmoid dropout
                   (env_of [("ubMatrix"%string, [1; 2]%float); ("xItemFeature"%string, [3; 4]%float)])
                   rnd n
              = Some [3; 4; 6; 8]%float).
Proof.
  split; [|split].
  - intros sigmoid dropout env rnd ubMatrix xItemFeature B S D du di HB HS HD Hub Hit.
    exists (outProducts_node ubMatrix xItemFeature B S D D).
    exists (flat_map (outProd (Z.to_nat S) (Z.to_nat D) du di) (seq 0 (Z.to_nat B))).
    split; [|split].
    + exact (outProducts_ok sigmoid dropout env rnd _ _ B S D du di HB HS HD Hub Hit).
    + exact (outProducts_has sigmoid dropout env rnd _ _ B S D du di HB HS HD Hub Hit).
    + intros b Hb. rewrite chunk_flat_map_seq; [reflexivity| |exact Hb].
      intros j Hj.
      apply (outProd_length (Z.to_nat B)); [| |exact Hj].
      * eapply du_length; eassumption.
      * eapply di_length; eassumption.
  - vm_compute. reflexivity.
  - intros sigmoid dropout rnd. eexists. split; vm_compute; reflexivity.
Qed.

Lemma outProducts_is_examplewise_outer_product_witness :
  exists n v,
    DinNet.outProducts (Leaf "ubMatrix" [2; 1 * 2] NoInit)
                       (Leaf "xItemFeature" [2; 2] NoInit) 2 1 2 2 = Ret n
    /\ has_value (fun x => x) (fun _ _ x => x)
                 (env_of [("ubMatrix"%string, [1; 2; 5; 6]%float);
                          ("xItemFeature"%string, [3; 4; 7; 8]%float)])
                 (fun _ _ => 0%float) n [2; 1 * 2 * 2] v
    /\ forall b, (b < Z.to_nat 2)%nat ->
         chunk (Z.to_nat 1 * Z.to_nat 2 * Z.to_nat 2) b v
         = outer (chunk (Z.to_nat 1 * Z.to_nat 2) b [1; 2; 5; 6]%float)
                 (chunk (Z.to_nat 2) b [3; 4; 7; 8]%float).
Proof.
  apply (proj1 outProducts_is_examplewise_outer_product
               (fun x => x) (fun _ _ x => x)
               (env_of [("ubMatrix"%string, [1; 2; 5; 6]%float);
                        ("xItemFeature"%string, [3; 4; 7; 8]%float)])
               (fun _ _ => 0%float)
               (Leaf "ubMatrix" [2; 1 * 2] NoInit)
               (Leaf "xItemFeature" [2; 2] NoInit) 2 1 2);
    [lia | lia | lia | repeat split; reflexivity | repeat split; reflexivity].
Defined.

(** ** Sum pooling *)

(** C5: for every slot count [S >= 0], on well-shaped inputs the pooled
    user interest built by [DinNet.Fwd] is the zero-initialised leaf
    [actOuts] of shape [B, D] with the [S] activation-unit outputs added to
    it one after the other; it has shape [B, D] whatever [S] is, and its
    value is the all-zero array plus, slot after slot, the behaviors gated by
    their scores. *)
Theorem sum_pooling_is_sum_over_slots
        (sigmoid : float -> float) (dropout : float -> float -> float -> float)
        (env : Env) (rnd : Node -> nat -> float)
        (din : DinNet.t) (ubMatrix xItemFeature : Node) (B S D k : Z)
        (du di : Value) (a0 a1 : Z -> Node) (A0 A1 : nat -> Value) :
  0 < B -> 0 <= S -> 0 <= D -> 0 <= k ->
  has_value sigmoid dropout env rnd ubMatrix [B; S * D] du ->
  has_value sigmoid dropout env rnd xItemFeature [B; D] di ->
  (forall i, 0 <= i < S ->
     index (DinNet.att0 din) i = Ret (a0 i)
     /\ has_value sigmoid dropout env rnd (a0 i) [D + D + S * D * D; k]
                  (A0 (Z.to_nat i))) ->
  (forall i, 0 <= i < S ->
     index (DinNet.att1 din) i = Ret (a1 i)
     /\ has_value sigmoid dropout env rnd (a1 i) [k; 1] (A1 (Z.to_nat i))) ->
  exists n,
    DinNet.userInterest din ubMatrix xItemFeature B S D D = Ret n
    /\ n = actOuts_node (App (opReshape [B; S; D]) [ubMatrix])
                        (outProducts_node ubMatrix xItemFeature B S D D)
                        xItemFeature a0 a1 B S D
    /\ has_value sigmoid dropout env rnd n [B; D]
         (sum_onto (repeat 0%float (Z.to_nat B * Z.to_nat D))
            (map (fun i =>
                    flat_map (fun b => gated (Z.to_nat S) (Z.to_nat D) (Z.to_nat k)
                                             du di (A0 i) (A1 i) b i)
                             (seq 0 (Z.to_nat B)))
                 (seq 0 (Z.to_nat S)))).
Proof.
  intros HB HS HD Hk Hub Hit H0 H1.
  destruct (userInterest_ok sigmoid dropout env rnd ubMatrix xItemFeature B S D du di
                            HB HS HD Hub Hit din a0 a1 A0 A1 k Hk H0 H1) as (E & H).
  eexists. split; [exact E|]. split; [reflexivity|exact H].
Qed.

(** ** The activation unit *)

(** C1 (as amended): on well-shaped inputs the activation unit of slot [i]
    is [ub_i * ReLU((actConcat @ Att0[i]) @ Att1[i])], the ReLU applied after
    both matrix products: for every example [b] the slot output is the
    behavior [ub[b,i,:]] with every one of its [D] numbers multiplied by the
    one score [relu(((ub[b,i,:] ++ OutProd_b ++ item_b) @ Att0[i]) @ Att1[i])]. *)
Theorem activation_unit_scores_after_both_products
        (sigmoid : float -> float) (dropout : float -> float -> float -> float)
        (env : Env) (rnd : Node -> nat -> float)
        (din : DinNet.t) (ubMatrix xItemFeature : Node) (B S D k : Z)
        (du di : Value) (a0 a1 : Z -> Node) (A0 A1 : nat -> Value) (i : Z) :
  0 < B -> 0 <= S -> 0 <= D -> 0 <= k ->
  has_value sigmoid dropout env rnd ubMatrix [B; S * D] du ->
  has_value sigmoid dropout env rnd xItemFeature [B; D] di ->
  (forall i, 0 <= i < S ->
     index (DinNet.att0 din) i = Ret (a0 i)
     /\ has_value sigmoid dropout env rnd (a0 i) [D + D + S * D * D; k]
                  (A0 (Z.to_nat i))) ->
  (forall i, 0 <= i < S ->
     index (DinNet.att1 din) i = Ret (a1 i)
     /\ has_value sigmoid dropout env rnd (a1 i) [k; 1] (A1 (Z.to_nat i))) ->
  0 <= i < S ->
  exists n,
    DinNet.actOut din (App (opReshape [B; S; D]) [ubMatrix])
                  (outProducts_node ubMatrix xItemFeature B S D D) xItemFeature i
    = Ret n
    /\ n = actOut_node (App (opReshape [B; S; D]) [ubMatrix])
                       (outProducts_node ubMatrix xItemFeature B S D D)
                       xItemFeature (a0 i) (a1 i) i
    /\ has_value sigmoid dropout env rnd n [B; D]
         (flat_map (fun b => gated (Z.to_nat S) (Z.to_nat D) (Z.to_nat k) du di
                                   (A0 (Z.to_nat i)) (A1 (Z.to_nat i)) b (Z.to_nat i))
                   (seq 0 (Z.to_nat B))).
Proof.
  intros HB HS HD Hk Hub Hit H0 H1 Hi.
  eexists. split; [|split; [reflexivity|]].
  - eapply actOut_ok; eassumption.
  - eapply actOut_has; eassumption.
Qed.

Lemma sum_pooling_is_sum_over_slots_witness :
  exists din n,
    NewDinNet 1 2 1 1 1 = Ret din
    /\ DinNet.userInterest din (Leaf "ubMatrix" [1; 2 * 1] NoInit)
                           (Leaf "xItemFeature" [1; 1] NoInit) 1 2 1 1 = Ret n
    /\ has_value (fun x => x) (fun _ _ x => x) example_store (fun _ _ => 0%float) n [1; 1]
         (sum_onto (repeat 0%float (Z.to_nat 1 * Z.to_nat 1))
            (map (fun i =>
                    flat_map (fun b => gated (Z.to_nat 2) (Z.to_nat 1) (Z.to_nat 36)
                                             [1; 2]%float [3]%float
                                             (repeat 1%float 144) (repeat 1%float 36) b i)
                             (seq 0 (Z.to_nat 1)))
                 (seq 0 (Z.to_nat 2)))).
Proof.
  eexists. 
  destruct (sum_pooling_is_sum_over_slots
              (fun x => x) (fun _ _ x => x) example_store (fun _ _ => 0%float)
              (DinNet.mk 1 2 1 1 1 (Leaf "mlp0" [1 + 1 + 1 + 1; 200] (Gaussian 0 1))
                         (Leaf "mlp1" [200; 80] (Gaussian 0 1))
                         (Leaf "mlp2" [80; 1] (Gaussian 0 1)) 0.001 0.001
                         (map (att0_leaf 2 1 1) (range 2)) (map att1_leaf (range 2)) None)
              (Leaf "ubMatrix" [1; 2 * 1] NoInit)
              (Leaf "xItemFeature" [1; 1] NoInit) 1 2 1 36
              [1; 2]%float [3]%float (att0_leaf 2 1 1) att1_leaf
              (fun _ => repeat 1%float 144) (fun _ => repeat 1%float 36))
    as (n & E & _ & H).
  - lia.
  - lia.
  - lia.
  - lia.
  - repeat split; reflexivity.
  - repeat split; reflexivity.
  - intros i Hi. assert (Hc : i = 0 \/ i = 1) by lia.
    destruct Hc as [-> | ->]; (split; [reflexivity | repeat split; reflexivity]).
  - intros i Hi. assert (Hc : i = 0 \/ i = 1) by lia.
    destruct Hc as [-> | ->]; (split; [reflexivity | repeat split; reflexivity]).
  - exists n. split; [reflexivity|]. split; [exact E | exact H].
Defined.

Lemma activation_unit_scores_after_both_products_witness :
  exists din n,
    NewDinNet 1 2 1 1 1 = Ret din
    /\ DinNet.actOut din
                     (App (opReshape [1; 2; 1]) [Leaf "ubMatrix" [1; 2 * 1] NoInit])
                     (outProducts_node (Leaf "ubMatrix" [1; 2 * 1] NoInit)
                                       (Leaf "xItemFeature" [1; 1] NoInit) 1 2 1 1)
                     (Leaf "xItemFeature" [1; 1] NoInit) 1
       = Ret n
    /\ has_value (fun x => x) (fun _ _ x => x) example_store (fun _ _ => 0%float) n [1; 1]
         (flat_map (fun b => gated (Z.to_nat 2) (Z.to_nat 1) (Z.to_nat 36)
                                   [1; 2]%float [3]%float
                                   (repeat 1%float 144) (repeat 1%float 36)
                                   b (Z.to_nat 1))
                   (seq 0 (Z.to_nat 1))).
Proof.
  eexists.
  destruct (activation_unit_scores_after_both_products
              (fun x => x) (fun _ _ x => x) example_store (fun _ _ => 0%float)
              (DinNet.mk 1 2 1 1 1 (Leaf "mlp0" [1 + 1 + 1 + 1; 200] (Gaussian 0 1))
                         (Leaf "mlp1" [200; 80] (Gaussian 0 1))
                         (Leaf "mlp2" [80; 1] (Gaussian 0 1)) 0.001 0.001
                         (map (att0_leaf 2 1 1) (range 2)) (map att1_leaf (range 2)) None)
              (Leaf "ubMatrix" [1; 2 * 1] NoInit)
              (Leaf "xItemFeature" [1; 1] NoInit) 1 2 1 36
              [1; 2]%float [3]%float (att0_leaf 2 1 1) att1_leaf
              (fun _ => repeat 1%float 144) (fun _ => repeat 1%float 36) 1)
    as (n & E & _ & H).
  - lia.
  - lia.
  - lia.
  - lia.
  - repeat split; reflexivity.
  - repeat split; reflexivity.
  - intros i Hi. assert (Hc : i = 0 \/ i = 1) by lia.
    destruct Hc as [-> | ->]; (split; [reflexivity | repeat split; reflexivity]).
  - intros i Hi. assert (Hc : i = 0 \/ i = 1) by lia.
    destruct Hc as [-> | ->]; (split; [reflexivity | repeat split; reflexivity]).
  - lia.
  - exists n. split; [reflexivity|]. split; [exact E | exact H].
Defined.

(** C1, the claim as stated fails: with one example, one slot and [D = 1],
    [ub = item = 1], [Att0[0]] mapping [actConcat] to [-1, 0, ..., 0] and
    [Att1[0] = -1, 0, ..., 0], the code gates the behavior by
    [ReLU((-1) * (-1)) = 1] and outputs [1]; with the ReLU between the two
    products the score would be [ReLU(-1) * (-1) = 0] and the output [0]. *)
Lemma claimed_score_differs_from_code :
  exists din a0 a1,
    NewDinNet 1 1 1 1 1 = Ret din
    /\ index (DinNet.att0 din) 0 = Ret a0
    /\ index (DinNet.att1 din) 0 = Ret a1
    /\ DinNet.actOut din
                     (App (opReshape [1; 1; 1]) [Leaf "ubMatrix" [1; 1] NoInit])
                     (outProducts_node (Leaf "ubMatrix" [1; 1] NoInit)
                                       (Leaf "xItemFeature" [1; 1] NoInit) 1 1 1 1)
                     (Leaf "xItemFeature" [1; 1] NoInit) 0
       = Ret (actOut_node
                (App (opReshape [1; 1; 1]) [Leaf "ubMatrix" [1; 1] NoInit])
                (outProducts_node (Leaf "ubMatrix" [1; 1] NoInit)
                                  (Leaf "xItemFeature" [1; 1] NoInit) 1 1 1 1)
                (Leaf "xItemFeature" [1; 1] NoInit) a0 a1 0)
    /\ (forall sigmoid dropout rnd,
           eval sigmoid dropout relu_store rnd
                (actOut_node
                   (App (opReshape [1; 1; 1]) [Leaf "ubMatrix" [1; 1] NoInit])
                   (outProducts_node (Leaf "ubMatrix" [1; 1] NoInit)
                                     (Leaf "xItemFeature" [1; 1] NoInit) 1 1 1 1)
                   (Leaf "xItemFeature" [1; 1] NoInit) a0 a1 0)
           = Some [1]%float
           /\ eval sigmoid dropout relu_store rnd
                   (claimed_actOut_node
                      (App (opReshape [1; 1; 1]) [Leaf "ubMatrix" [1; 1] NoInit])
                      (outProducts_node (Leaf "ubMatrix" [1; 1] NoInit)
                                        (Leaf "xItemFeature" [1; 1] NoInit) 1 1 1 1)
                      (Leaf "xItemFeature" [1; 1] NoInit) a0 a1 0)
              = Some [0]%float).
Proof.
  do 3 eexists. split; [reflexivity|]. split; [reflexivity|]. split; [reflexivity|].
  split; [vm_compute; reflexivity|].
  intros sigmoid dropout rnd. split; vm_compute; reflexivity.
Qed.

(** ** The training loop *)

Section TrainFacts.

Variable fails : list Event -> Event -> bool.
Hypothesis Hnever : forall tr ev, fails tr ev = false.

Context {M : Type} `{model M}.

Lemma call_ok ev tr : call fails ev tr = (Ret tt, tr ++ [ev]).
Proof. unfold call. now rewrite Hnever. Qed.

Variables (numExamples batchSize : Z) (si : SampleInfo) (m : M) (ps : Nodes).
Variables (xUserProfile xUserBehaviorMatrix xItemFeature xCtxFeature y : Node).
Hypothesis Hps : learnable m = Ret ps.
Hypothesis HN : 0 <= numExamples.
Hypothesis HB : 0 < batchSize.

Lemma batch_ok b tr :
  batch fails si m xUserProfile xUserBehaviorMatrix xItemFeature xCtxFeature y
        (b * batchSize) (b * batchSize + batchSize) tr
  = (Ret tt, tr ++ batch_events si xUserProfile xUserBehaviorMatrix xItemFeature
                                xCtxFeature y ps batchSize b).
Proof.
  unfold batch, bindR, lift, emit. rewrite !call_ok, Hps, call_ok.
  unfold batch_events. rewrite <- !app_assoc. reflexivity.
Qed.

Lemma batch_loop_ok bs :
  (forall b, In b bs -> 0 <= b < numExamples / batchSize) ->
  forall tr,
    batch_loop fails numExamples batchSize si m
               xUserProfile xUserBehaviorMatrix xItemFeature xCtxFeature y bs tr
    = (Ret tt, tr ++ flat_map (batch_events si xUserProfile xUserBehaviorMatrix
                                            xItemFeature xCtxFeature y ps batchSize) bs).
Proof.
  induction bs as [|b bs IH]; intros Hbs tr.
  - cbn. now rewrite app_nil_r.
  - cbn [batch_loop flat_map].
    assert (Hb : 0 <= b < numExamples / batchSize) by (apply Hbs; now left).
    assert (Hle : b * batchSize + batchSize <= numExamples).
    { assert (batchSize * (numExamples / batchSize) <= numExamples)
        by (apply Z.mul_div_le; lia). nia. }
    destruct (Z.geb_spec (b * batchSize) numExamples); [lia|].
    destruct (Z.gtb_spec (b * batchSize + batchSize) numExamples); [lia|].
    unfold bindR at 1. rewrite batch_ok.
    rewrite IH by (intros x Hx; apply Hbs; now right).
    now rewrite <- app_assoc.
Qed.

Lemma epoch_loop_ok epochs_left :
  forall tr,
    epoch_loop fails numExamples batchSize si m
               xUserProfile xUserBehaviorMatrix xItemFeature xCtxFeature y
               (numExamples / batchSize) epochs_left tr
    = (Ret tt, tr ++ flat_map (epoch_events si xUserProfile xUserBehaviorMatrix
                                            xItemFeature xCtxFeature y ps batchSize
                                            (numExamples / batchSize)) epochs_left).
Proof.
  induction epochs_left as [|i epochs_left IH]; intros tr.
  - cbn. now rewrite app_nil_r.
  - cbn [epoch_loop flat_map]. unfold bindR at 1.
    rewrite batch_loop_ok by (intros b Hb; now apply range_In in Hb).
    unfold bindR at 1. unfold emit at 1. rewrite IH.
    unfold epoch_events at 2. now rewrite <- !app_assoc.
Qed.


End TrainFacts.

Lemma filter_flat_map_length {A B} (p : B -> bool) (f : A -> list B) (l : list A) c :
  (forall x, In x l -> List.length (filter p (f x)) = c) ->
  List.length (filter p (flat_map f l)) = (List.length l * c)%nat.
Proof.
  induction l as [|a l IH]; intros Hc; [reflexivity|].
  cbn [flat_map List.length]. rewrite filter_app, length_app, IH, (Hc a).
  - lia.
  - now left.
  - intros x Hx. apply Hc. now right.
Qed.

Lemma Must_shape op args sh :
  shapeOf (App op args) = Some sh -> Must (G_apply op args) = Ret (App op args).
Proof. intros Hs. unfold G_apply. now rewrite Hs. Qed.

(** The cost node is the mean of the squared differences. *)
Lemma cost_has sigmoid dropout env rnd o y sh vo vy :
  has_value sigmoid dropout env rnd o sh vo ->
  has_value sigmoid dropout env rnd y sh vy ->
  has_value sigmoid dropout env rnd
            (App opMean [App opSquare [App opSub [o; y]]]) []
            [vmean (map (fun d => (d * d)%float) (map2 PrimFloat.sub vo vy))].
Proof.
  intros Ho Hy.
  pose proof (has_sub _ _ _ _ _ _ _ _ _ Ho Hy) as Hd.
  assert (Hs : has_value sigmoid dropout env rnd (App opSquare [App opSub [o; y]]) sh
                         (map (fun d => (d * d)%float) (map2 PrimFloat.sub vo vy)))
    by (apply has_unary; [exact Hd | reflexivity | reflexivity]).
  eapply has_app1; [exact Hs | reflexivity | reflexivity | reflexivity].
Qed.

Section TrainTheorem.

Variable fails : list Event -> Event -> bool.
Context {M : Type} `{model M}.

(** C6: if no backend call fails, [Train] on [N >= 0] examples with batch
    size [B > 0] returns normally after exactly the calls of [train_events]:
    the set-up, then for each of the [E] epochs the [floor(N/B)] batches one
    after the other (each: the four feature slices and the label slice, each
    bound to its placeholder, one run of the compiled graph, one optimizer
    step over [learnable()], one reset) followed by the epoch's log line, and
    the close at the end; nothing else is called, so there are [E * floor(N/B)]
    runs and as many optimizer steps; and the cost whose gradient is taken is
    the mean of the squared differences between the model output and [y]. *)
Theorem Train_runs_every_batch_of_every_epoch
        (uBehaviorSize uBehaviorDim uProfileDim iFeatureDim cFeatureDim
         numExamples batchSize epochs : Z)
        (si : SampleInfo) (m m' : M) (o : Node) (ps : Nodes) :
  (forall tr ev, fails tr ev = false) ->
  0 <= numExamples -> 0 < batchSize ->
  Fwd m (Leaf "xUserProfile" [batchSize; uProfileDim] NoInit)
      (Leaf "xUserBehaviorMatrix" [batchSize; uBehaviorSize * uBehaviorDim] NoInit)
      (Leaf "xItemFeature" [batchSize; iFeatureDim] NoInit)
      (Leaf "xCtxFeature" [batchSize; cFeatureDim] NoInit)
      batchSize uBehaviorSize uBehaviorDim
  = Ret (m', None) ->
  Out m' = Some o ->
  shapeOf o = Some [batchSize; 1] ->
  learnable m' = Ret ps ->
  Train fails uBehaviorSize uBehaviorDim uProfileDim iFeatureDim cFeatureDim
        numExamples batchSize epochs si m []
  = (Ret None,
     train_events si o ps uBehaviorSize uBehaviorDim uProfileDim iFeatureDim
                  cFeatureDim numExamples batchSize epochs)
  /\ List.length
       (filter is_RunAll
               (train_events si o ps uBehaviorSize uBehaviorDim uProfileDim
                             iFeatureDim cFeatureDim numExamples batchSize epochs))
     = (Z.to_nat epochs * Z.to_nat (numExamples / batchSize))%nat
  /\ List.length
       (filter is_Step
               (train_events si o ps uBehaviorSize uBehaviorDim uProfileDim
                             iFeatureDim cFeatureDim numExamples batchSize epochs))
     = (Z.to_nat epochs * Z.to_nat (numExamples / batchSize))%nat
  /\ (forall sigmoid dropout env rnd vo vy,
         has_value sigmoid dropout env rnd o [batchSize; 1] vo ->
         has_value sigmoid dropout env rnd (Leaf "y" [batchSize; 1] NoInit)
                   [batchSize; 1] vy ->
         has_value sigmoid dropout env rnd
                   (App opMean [App opSquare
                                  [App opSub [o; Leaf "y" [batchSize; 1] NoInit]]])
                   []
                   [vmean (map (fun d => (d * d)%float)
                               (map2 PrimFloat.sub vo vy))]).
Proof.
  intros Hnf HN HB HFwd HOut Hsh Hps. split; [|split; [|split]].
  - unfold Train, G_NewMatrix, G_NewTensor.
    unfold bindR at 1. unfold emit at 1.
    unfold bindR at 1. unfold lift at 1. rewrite HFwd. cbn [fst snd].
    unfold bindR at 1. unfold lift at 1. rewrite HOut.
    assert (Hd : shapeOf (App opSub [o; Leaf "y" [batchSize; 1] NoInit])
                 = Some [batchSize; 1]).
    { cbn [shapeOf map all_some]. rewrite Hsh. cbn [option_map inferShape].
      now rewrite shape_eqb_refl. }
    assert (Hq : shapeOf (App opSquare [App opSub [o; Leaf "y" [batchSize; 1] NoInit]])
                 = Some [batchSize; 1]).
    { change (shapeOf (App opSquare [?a])) with
        (match all_some [shapeOf a] with
         | Some shs => inferShape opSquare shs | None => None end).
      now rewrite Hd. }
    assert (Hm : shapeOf (App opMean
                            [App opSquare
                                 [App opSub [o; Leaf "y" [batchSize; 1] NoInit]]])
                 = Some []).
    { change (shapeOf (App opMean [?a])) with
        (match all_some [shapeOf a] with
         | Some shs => inferShape opMean shs | None => None end).
      now rewrite Hq. }
    unfold bindR at 1. unfold lift at 1. unfold G_Sub. rewrite (Must_shape _ _ _ Hd).
    unfold bindR at 1. unfold lift at 1. unfold G_Square. rewrite (Must_shape _ _ _ Hq).
    unfold bindR at 1. unfold lift at 1. unfold G_Mean. rewrite (Must_shape _ _ _ Hm).
    unfold bindR at 1. unfold lift at 1. rewrite Hps.
    unfold bindR at 1. rewrite (call_ok fails Hnf).
    unfold bindR at 1. rewrite (call_ok fails Hnf).
    unfold bindR at 1. unfold lift at 1.
    unfold bindR at 1. unfold emit at 1.
    unfold bindR at 1. unfold emit at 1.
    destruct (Z.eqb_spec batchSize 0); [lia|].
    rewrite Z.quot_div_nonneg by lia.
    erewrite epoch_loop_ok by eassumption.
    unfold train_events. rewrite <- !app_assoc. reflexivity.
  - unfold train_events. cbn [List.app filter is_RunAll].
    rewrite filter_app, length_app. cbn [filter is_RunAll List.length].
    rewrite (filter_flat_map_length _ _ _ (Z.to_nat (numExamples / batchSize))).
    + rewrite range_length. lia.
    + intros i _. unfold epoch_events. rewrite filter_app, length_app.
      rewrite (filter_flat_map_length _ _ _ 1%nat) by (intros; reflexivity).
      rewrite range_length. cbn. lia.
  - unfold train_events. cbn [List.app filter is_Step].
    rewrite filter_app, length_app. cbn [filter is_Step List.length].
    rewrite (filter_flat_map_length _ _ _ (Z.to_nat (numExamples / batchSize))).
    + rewrite range_length. lia.
    + intros i _. unfold epoch_events. rewrite filter_app, length_app.
      rewrite (filter_flat_map_length _ _ _ 1%nat) by (intros; reflexivity).
      rewrite range_length. cbn. lia.
  - intros sigmoid dropout env rnd vo vy Ho Hy. eapply cost_has; eassumption.
Qed.

End TrainTheorem.

Lemma Train_runs_every_batch_of_every_epoch_witness :
  exists mlp o ps,
    NewSimpleMLP 1 2 1 1 1 = Ret mlp
    /\ Train (M := SimpleMLP.t) never_fails 2 1 1 1 1 7 2 3 si_example mlp []
       = (Ret None, train_events si_example o ps 2 1 1 1 1 7 2 3)
    /\ List.length (filter is_RunAll
                           (train_events si_example o ps 2 1 1 1 1 7 2 3))
       = (Z.to_nat 3 * Z.to_nat (7 / 2))%nat.
Proof.
  edestruct (Train_runs_every_batch_of_every_epoch
               (M := SimpleMLP.t) never_fails 2 1 1 1 1 7 2 3 si_example
               (SimpleMLP.mk (Leaf "mlp0" [1 + 2 * 1 + 1 + 1; 200] (Gaussian 0 1))
                             (Leaf "mlp1" [200; 80] (Gaussian 0 1))
                             (Leaf "mlp2" [80; 1] (Gaussian 0 1)) 0.01 0.01 None))
    as (E & C & _);
    [ intros; reflexivity | lia | lia
    | reflexivity | reflexivity | reflexivity | reflexivity | ].
  do 3 eexists. split; [reflexivity|]. split; [exact E | exact C].
Defined.

(** ** Dropout and determinism *)

Lemma Node_induction (P : Node -> Prop) :
  (forall name sh init, P (Leaf name sh init)) ->
  (forall op args, Forall P args -> P (App op args)) ->
  forall n, P n.
Proof.
  intros HLeaf HApp. fix IH 1. intros [name sh init|op args].
  - apply HLeaf.
  - apply HApp. induction args as [|a args IHargs]; constructor.
    + apply IH.
    + exact IHargs.
Qed.

Lemma evalOp_ignores_samples sigmoid dropout op shs vs s1 s2 :
  match op with opDropout _ => False | _ => True end ->
  evalOp sigmoid dropout op shs vs s1 = evalOp sigmoid dropout op shs vs s2.
Proof. destruct op; intros Hop; try contradiction; reflexivity. Qed.

(** A graph without dropout nodes has the same value in every run. *)
Lemma eval_deterministic sigmoid dropout env rnd1 rnd2 :
  forall n, stochastic n = false ->
            eval sigmoid dropout env rnd1 n = eval sigmoid dropout env rnd2 n.
Proof.
  induction n as [name sh init|op args IH] using Node_induction; intros Hs.
  - reflexivity.
  - cbn [stochastic] in Hs. apply orb_false_elim in Hs as [Hop Hargs].
    cbn [eval].
    assert (E : map (eval sigmoid dropout env rnd1) args
                = map (eval sigmoid dropout env rnd2) args).
    { induction args as [|a args IHa]; [reflexivity|].
      cbn [existsb] in Hargs. apply orb_false_elim in Hargs as [Ha Hr].
      inversion IH as [|? ? Pa Pr]; subst. cbn [map].
      rewrite (Pa Ha), (IHa Pr Hr). reflexivity. }
    rewrite E.
    destruct (all_some (map shapeOf args)) as [shs|]; [|reflexivity].
    destruct (all_some (map (eval sigmoid dropout env rnd2) args)) as [vs|];
      [|reflexivity].
    destruct (inferShape op shs); [|reflexivity].
    f_equal. apply evalOp_ignores_samples. destruct op; try exact I; discriminate.
Qed.

Lemma Must_G_apply_inv op args n :
  Must (G_apply op args) = Ret n -> n = App op args.
Proof.
  unfold G_apply. destruct (shapeOf (App op args)); cbn [Must]; [|discriminate].
  now intros [= <-].
Qed.

Lemma Must_G_Dropout_zero x p n :
  (p =? 0)%float = true -> Must (G_Dropout x p) = Ret n -> n = x.
Proof. unfold G_Dropout. intros ->. cbn [Must]. now intros [= <-]. Qed.

Lemma bind_Ret_inv {A B} (m : outcome A) (k : A -> outcome B) b :
  bind m k = Ret b -> exists a, m = Ret a /\ k a = Ret b.
Proof. destruct m; cbn [bind]; try discriminate. intros E. eauto. Qed.

Lemma mapM_inv {A B} (f : A -> outcome B) (P : B -> Prop) (l : list A) :
  (forall x b, In x l -> f x = Ret b -> P b) ->
  forall bs, mapM f l = Ret bs -> Forall P bs.
Proof.
  induction l as [|a l IH]; intros Hf bs E.
  - cbn in E. injection E as <-. constructor.
  - cbn [mapM] in E.
    apply bind_Ret_inv in E as (b & Eb & E).
    apply bind_Ret_inv in E as (bs' & Ebs & E). injection E as <-.
    constructor.
    + apply (Hf a b); [now left | exact Eb].
    + apply IH; [|exact Ebs]. intros x y Hx. apply Hf. now right.
Qed.

Lemma foldM_inv {A B} (f : A -> B -> outcome A) (P : A -> Prop) (l : list B) :
  (forall a x a', In x l -> P a -> f a x = Ret a' -> P a') ->
  forall a a', P a -> foldM f l a = Ret a' -> P a'.
Proof.
  induction l as [|x l IH]; intros Hf a a' Pa E.
  - cbn in E. now injection E as <-.
  - cbn [foldM] in E. apply bind_Ret_inv in E as (a1 & E1 & E).
    apply (IH (fun a0 y a2 Hy => Hf a0 y a2 (or_intror Hy)) a1 a');
      [|exact E].
    apply (Hf a x a1); [now left | exact Pa | exact E1].
Qed.

Lemma index_In {A} (s : list A) i a : index s i = Ret a -> In a s.
Proof.
  unfold index. destruct (i <? 0); [discriminate|].
  destruct (nth_error s (Z.to_nat i)) eqn:E; [|discriminate].
  intros [= <-]. eapply nth_error_In; eassumption.
Qed.

Lemma existsb_stochastic_false (l : list Node) :
  Forall (fun n => stochastic n = false) l -> existsb stochastic l = false.
Proof.
  induction 1 as [|a l Ha _ IH]; [reflexivity|]. cbn [existsb]. now rewrite Ha, IH.
Qed.

(** Peel one [Must (G_... )] off a successful run. *)
Ltac peel E n :=
  let E1 := fresh "E" in
  apply bind_Ret_inv in E as (n & E1 & E);
  first [ apply Must_G_apply_inv in E1; subst n
        | idtac ].

Lemma SimpleMLP_Fwd_graph mlp xUserProfile ubMatrix xItemFeature xCtxFeature
      batchSize uBehaviorSize uBehaviorDim mlp' e o :
  (SimpleMLP.d0 mlp =? 0)%float = true ->
  (SimpleMLP.d1 mlp =? 0)%float = true ->
  Forall (fun n => stochastic n = false)
         ([xUserProfile; ubMatrix; xItemFeature; xCtxFeature]
            ++ SimpleMLP.learnable mlp) ->
  SimpleMLP.Fwd mlp xUserProfile ubMatrix xItemFeature xCtxFeature
                batchSize uBehaviorSize uBehaviorDim = Ret (mlp', e) ->
  SimpleMLP.Out mlp' = Some o ->
  stochastic o = false.
Proof.
  intros H0 H1 Hin E Ho. unfold SimpleMLP.Fwd in E.
  unfold G_Reshape, G_Concat, G_Mul, G_LeakyRelu, G_Sigmoid in E.
  peel E n1. peel E n2. peel E n3. peel E n4.
  apply bind_Ret_inv in E as (n5 & E5 & E).
  apply (Must_G_Dropout_zero _ _ _ H0) in E5. subst n5.
  peel E n6. peel E n7.
  apply bind_Ret_inv in E as (n8 & E8 & E).
  apply (Must_G_Dropout_zero _ _ _ H1) in E8. subst n8.
  peel E n9. peel E n10.
  injection E as <- <-. cbn in Ho. injection Ho as <-.
  unfold SimpleMLP.learnable in Hin. cbn [List.app] in Hin.
  repeat match goal with
         | H : Forall _ (_ :: _) |- _ => inversion H; clear H; subst
         end.
  cbn [stochastic existsb orb].
  repeat match goal with H : stochastic _ = false |- _ => rewrite H; clear H end.
  reflexivity.
Qed.

Section DinNetGraph.

Variables (din : DinNet.t) (ubMatrix xItemFeature : Node).
Hypothesis Hub : stochastic ubMatrix = false.
Hypothesis Hitem : stochastic xItemFeature = false.
Hypothesis Hatt0 : Forall (fun n => stochastic n = false) (DinNet.att0 din).
Hypothesis Hatt1 : Forall (fun n => stochastic n = false) (DinNet.att1 din).

Lemma outProdVec_graph S D I i n :
  DinNet.outProdVec ubMatrix xItemFeature S D I i = Ret n -> stochastic n = false.
Proof.
  intros E. unfold DinNet.outProdVec, G_Slice, G_OuterProd, G_Reshape in E.
  peel E n1. peel E n2. peel E n3. apply Must_G_apply_inv in E. subst n.
  cbn [stochastic existsb orb]. now rewrite Hub, Hitem.
Qed.

Lemma outProducts_graph B S D I n :
  DinNet.outProducts ubMatrix xItemFeature B S D I = Ret n -> stochastic n = false.
Proof.
  intros E. unfold DinNet.outProducts, G_Concat, G_Reshape in E.
  apply bind_Ret_inv in E as (u & _ & E).
  apply bind_Ret_inv in E as (vecs & Ev & E).
  peel E n1. apply Must_G_apply_inv in E. subst n.
  assert (Hv : Forall (fun n => stochastic n = false) vecs).
  { apply (mapM_inv _ _ _ (fun x b _ Hb => outProdVec_graph _ _ _ x b Hb) _ Ev). }
  cbn [stochastic existsb orb]. now rewrite (existsb_stochastic_false _ Hv).
Qed.

Lemma actOut_graph xub outProds i n :
  stochastic xub = false -> stochastic outProds = false ->
  DinNet.actOut din xub outProds xItemFeature i = Ret n -> stochastic n = false.
Proof.
  intros Hx Ho E.
  unfold DinNet.actOut, G_Slice, G_Concat, G_Mul, G_Rectify,
    G_BroadcastHadamardProd in E.
  peel E n1. peel E n2.
  apply bind_Ret_inv in E as (a0 & E0 & E).
  peel E n3.
  apply bind_Ret_inv in E as (a1 & E1 & E).
  peel E n4. peel E n5. apply Must_G_apply_inv in E. subst n.
  apply index_In in E0, E1.
  rewrite Forall_forall in Hatt0, Hatt1.
  cbn [stochastic existsb orb].
  now rewrite Hx, Ho, Hitem, (Hatt0 _ E0), (Hatt1 _ E1).
Qed.

Lemma userInterest_graph B S D I n :
  DinNet.userInterest din ubMatrix xItemFeature B S D I = Ret n ->
  stochastic n = false.
Proof.
  intros E. unfold DinNet.userInterest, G_Reshape in E.
  peel E xub.
  apply bind_Ret_inv in E as (outProds & Eo & E).
  apply outProducts_graph in Eo.
  unfold DinNet.actOuts in E.
  refine (foldM_inv _ (fun a => stochastic a = false) _ _ _ _ _ E); [|reflexivity].
  intros acc i acc' _ Hacc Estep.
  apply bind_Ret_inv in Estep as (a & Ea & Estep).
  apply actOut_graph in Ea; [| cbn [stochastic existsb orb]; now rewrite Hub | exact Eo].
  unfold G_Add in Estep. apply Must_G_apply_inv in Estep. subst acc'.
  cbn [stochastic existsb orb]. now rewrite Hacc, Ea.
Qed.

End DinNetGraph.

Lemma DinNet_Fwd_graph din xUserProfile ubMatrix xItemFeature xCtxFeature
      batchSize uBehaviorSize uBehaviorDim din' o :
  (DinNet.d0 din =? 0)%float = true ->
  (DinNet.d1 din =? 0)%float = true ->
  Forall (fun n => stochastic n = false)
         ([xUserProfile; ubMatrix; xItemFeature; xCtxFeature]
            ++ [DinNet.mlp0 din; DinNet.mlp1 din; DinNet.mlp2 din]
            ++ DinNet.att0 din ++ DinNet.att1 din) ->
  DinNet.Fwd din xUserProfile ubMatrix xItemFeature xCtxFeature
             batchSize uBehaviorSize uBehaviorDim = Ret (din', None) ->
  DinNet.Out din' = Some o ->
  stochastic o = false.
Proof.
  intros H0 H1 Hin E Ho. unfold DinNet.Fwd in E.
  apply bind_Ret_inv in E as (sh & _ & E).
  apply bind_Ret_inv in E as (iFeatureDim & _ & E).
  destruct (negb (uBehaviorDim =? iFeatureDim)); [discriminate E|].
  cbn [List.app] in Hin.
  repeat match goal with
         | H : Forall _ (_ :: _) |- _ => inversion H; clear H; subst
         end.
  match goal with
  | H : Forall _ (_ ++ _) |- _ => apply Forall_app in H as [Ha0 Ha1]
  end.
  apply bind_Ret_inv in E as (pooled & Ep & E).
  apply userInterest_graph in Ep; try assumption.
  unfold G_Concat, G_Mul, G_LeakyRelu, G_Sigmoid in E.
  peel E n2. peel E n3. peel E n4.
  apply bind_Ret_inv in E as (n5 & E5 & E).
  apply (Must_G_Dropout_zero _ _ _ H0) in E5. subst n5.
  peel E n6. peel E n7.
  apply bind_Ret_inv in E as (n8 & E8 & E).
  apply (Must_G_Dropout_zero _ _ _ H1) in E8. subst n8.
  peel E n9. peel E n10.
  injection E as <-. cbn in Ho. injection Ho as <-.
  cbn [stochastic existsb orb].
  repeat match goal with H : stochastic _ = false |- _ => rewrite H; clear H end.
  reflexivity.
Qed.

(** ** Dropout in every forward pass *)

Lemma Must_G_Dropout_dropped x p n :
  Must (G_Dropout x p) = Ret n -> n = dropped p x.
Proof.
  unfold G_Dropout, dropped, attaches. destruct (p =? 0)%float; cbn [negb Must].
  - now intros [= <-].
  - apply Must_G_apply_inv.
Qed.

Lemma stochastic_false_no_dropout n :
  stochastic n = false -> dropout_probs n = [] /\ dropout_inputs n = [].
Proof.
  induction n as [name sh init|op args IH] using Node_induction; intros Hs.
  - split; reflexivity.
  - cbn [stochastic] in Hs. apply orb_false_elim in Hs as [Hop Hargs].
    assert (Hall : flat_map dropout_probs args = []
                   /\ flat_map dropout_inputs args = []).
    { induction args as [|a args IHa]; [split; reflexivity|].
      cbn [existsb] in Hargs. apply orb_false_elim in Hargs as [Ha Hr].
      inversion IH as [|? ? Pa Pr]; subst.
      destruct (Pa Ha) as [E1 E2]. destruct (IHa Pr Hr) as [E3 E4].
      cbn [flat_map]. now rewrite E1, E2, E3, E4. }
    destruct Hall as [E1 E2]. cbn [dropout_probs dropout_inputs].
    rewrite E1, E2. destruct op; try discriminate Hop; split; reflexivity.
Qed.

Lemma dropout_probs_dropped p n :
  dropout_probs (dropped p n) = (if attaches p then [p] else []) ++ dropout_probs n.
Proof.
  unfold dropped. destruct (attaches p); [|reflexivity].
  cbn [dropout_probs flat_map List.app]. now rewrite app_nil_r.
Qed.

(** Two runs that draw the same samples at the dropout nodes of a graph
    give it the same value. *)
Lemma eval_agree sigmoid dropout env rnd1 rnd2 :
  forall n,
    (forall x, In x (dropout_inputs n) -> forall k, rnd1 x k = rnd2 x k) ->
    eval sigmoid dropout env rnd1 n = eval sigmoid dropout env rnd2 n.
Proof.
  induction n as [name sh init|op args IH] using Node_induction; intros Hag.
  - reflexivity.
  - cbn [eval].
    assert (E : map (eval sigmoid dropout env rnd1) args
                = map (eval sigmoid dropout env rnd2) args).
    { assert (Hargs : forall x, In x (flat_map dropout_inputs args) ->
                                forall k, rnd1 x k = rnd2 x k).
      { intros x Hx. apply Hag. cbn [dropout_inputs]. apply in_or_app. now right. }
      clear Hag. induction args as [|a args IHa]; [reflexivity|].
      inversion IH as [|? ? Pa Pr]; subst. cbn [map]. f_equal.
      - apply Pa. intros x Hx. apply Hargs. cbn [flat_map]. apply in_or_app. now left.
      - apply IHa; [exact Pr|]. intros x Hx. apply Hargs. cbn [flat_map].
        apply in_or_app. now right. }
    rewrite E.
    destruct (all_some (map shapeOf args)) as [shs|]; [|reflexivity].
    destruct (all_some (map (eval sigmoid dropout env rnd2) args)) as [vs|];
      [|reflexivity].
    destruct (inferShape op shs); [|reflexivity].
    f_equal.
    destruct op; try (apply evalOp_ignores_samples; exact I).
    destruct vs as [|v [|v' vs]]; try reflexivity.
    cbn [evalOp]. apply map_ext. intros [k x]. cbn [fst snd].
    rewrite (Hag (hd (App (opDropout prob) args) args)); [reflexivity|].
    cbn [dropout_inputs]. now left.
Qed.

Lemma SimpleMLP_Fwd_out mlp xp ub item ctx B S D mlp' e :
  SimpleMLP.Fwd mlp xp ub item ctx B S D = Ret (mlp', e) ->
  SimpleMLP.Out mlp'
  = Some (App opSigmoid
            [App opMul
               [dropped (SimpleMLP.d1 mlp)
                  (App (opLeakyRelu 0.1)
                     [App opMul
                        [dropped (SimpleMLP.d0 mlp)
                           (App (opLeakyRelu 0.1)
                              [App opMul
                                 [App (opConcat 1)
                                      [xp; App (opReshape [B; S * D]) [ub]; item; ctx];
                                  SimpleMLP.mlp0 mlp]]);
                         SimpleMLP.mlp1 mlp]]);
                SimpleMLP.mlp2 mlp]]).
Proof.
  intros E. unfold SimpleMLP.Fwd in E.
  unfold G_Reshape, G_Concat, G_Mul, G_LeakyRelu, G_Sigmoid in E.
  peel E n1. peel E n2. peel E n3. peel E n4.
  apply bind_Ret_inv in E as (n5 & E5 & E).
  apply Must_G_Dropout_dropped in E5. subst n5.
  peel E n6. peel E n7.
  apply bind_Ret_inv in E as (n8 & E8 & E).
  apply Must_G_Dropout_dropped in E8. subst n8.
  peel E n9. peel E n10.
  injection E as <- <-. reflexivity.
Qed.

Lemma DinNet_Fwd_out din xp ub item ctx B S D din' :
  DinNet.Fwd din xp ub item ctx B S D = Ret (din', None) ->
  exists I pooled,
    DinNet.userInterest din ub item B S D I = Ret pooled
    /\ DinNet.Out din'
       = Some (App opSigmoid
                 [App opMul
                    [dropped (DinNet.d1 din)
                       (App (opLeakyRelu 0.1)
                          [App opMul
                             [dropped (DinNet.d0 din)
                                (App (opLeakyRelu 0.1)
                                   [App opMul
                                      [App (opConcat 1) [xp; pooled; item; ctx];
                                       DinNet.mlp0 din]]);
                              DinNet.mlp1 din]]);
                     DinNet.mlp2 din]]).
Proof.
  intros E. unfold DinNet.Fwd in E.
  apply bind_Ret_inv in E as (sh & _ & E).
  apply bind_Ret_inv in E as (I & _ & E).
  destruct (negb (D =? I)); [discriminate E|].
  apply bind_Ret_inv in E as (pooled & Ep & E).
  unfold G_Concat, G_Mul, G_LeakyRelu, G_Sigmoid in E.
  peel E n2. peel E n3. peel E n4.
  apply bind_Ret_inv in E as (n5 & E5 & E).
  apply Must_G_Dropout_dropped in E5. subst n5.
  peel E n6. peel E n7.
  apply bind_Ret_inv in E as (n8 & E8 & E).
  apply Must_G_Dropout_dropped in E8. subst n8.
  peel E n9. peel E n10.
  injection E as <-. exists I, pooled. split; [exact Ep | reflexivity].
Qed.

Lemma dropout_probs_of_the_layers d0 d1 x m0 m1 m2 :
  dropout_probs x = [] -> dropout_probs m0 = [] ->
  dropout_probs m1 = [] -> dropout_probs m2 = [] ->
  dropout_probs
    (App opSigmoid
       [App opMul
          [dropped d1
             (App (opLeakyRelu 0.1)
                [App opMul
                   [dropped d0 (App (opLeakyRelu 0.1) [App opMul [x; m0]]); m1]]);
           m2]])
  = filter attaches [d1; d0].
Proof.
  intros Hx H0 H1 H2.
  cbn [dropout_probs flat_map List.app]. rewrite !dropout_probs_dropped.
  cbn [dropout_probs flat_map List.app]. rewrite !dropout_probs_dropped.
  cbn [dropout_probs flat_map List.app]. rewrite Hx, H0, H1, H2.
  cbn [filter]. destruct (attaches d1), (attaches d0); reflexivity.
Qed.

(** C9 (as amended): neither [Fwd] has a training or evaluation mode.
    Both apply [G.Dropout] with the model's own probabilities after each of
    the two hidden layers, on every call: the output is
    [Sigmoid(Mul(drop d1 (LeakyRelu(Mul(drop d0 (LeakyRelu(Mul(x, mlp0))),
    mlp1))), mlp2))], where [drop p] attaches a dropout node unless
    [p == 0.0]; so on dropout-free inputs the dropout nodes of the graph are
    exactly those of the model's non-zero probabilities.  The constructors
    set both probabilities to 0.01 (baseline) and 0.001 (DIN), none of them
    zero.  Two runs on identical inputs and parameters give identical
    outputs when they draw the same samples at the dropout nodes of the
    graph, for every model; and with both probabilities zero the graph has
    no dropout node and any two runs agree, for both variants. *)
Theorem dropout_is_applied_in_every_forward_pass :
  (* the graph of the baseline *)
  (forall mlp xUserProfile ubMatrix xItemFeature xCtxFeature
          batchSize uBehaviorSize uBehaviorDim mlp' e,
      SimpleMLP.Fwd mlp xUserProfile ubMatrix xItemFeature xCtxFeature
                    batchSize uBehaviorSize uBehaviorDim = Ret (mlp', e) ->
      SimpleMLP.Out mlp'
      = Some (App opSigmoid
                [App opMul
                   [dropped (SimpleMLP.d1 mlp)
                      (App (opLeakyRelu 0.1)
                         [App opMul
                            [dropped (SimpleMLP.d0 mlp)
                               (App (opLeakyRelu 0.1)
                                  [App opMul
                                     [App (opConcat 1)
                                          [xUserProfile;
                                           App (opReshape
                                                  [batchSize;
                                                   uBehaviorSize * uBehaviorDim])
                                               [ubMatrix];
                                           xItemFeature; xCtxFeature];
                                      SimpleMLP.mlp0 mlp]]);
                             SimpleMLP.mlp1 mlp]]);
                    SimpleMLP.mlp2 mlp]]))
  (* the graph of the DIN model *)
  /\ (forall din xUserProfile ubMatrix xItemFeature xCtxFeature
             batchSize uBehaviorSize uBehaviorDim din',
         DinNet.Fwd din xUserProfile ubMatrix xItemFeature xCtxFeature
                    batchSize uBehaviorSize uBehaviorDim = Ret (din', None) ->
         exists iFeatureDim pooled,
           DinNet.userInterest din ubMatrix xItemFeature
                               batchSize uBehaviorSize uBehaviorDim iFeatureDim
           = Ret pooled
           /\ DinNet.Out din'
              = Some (App opSigmoid
                        [App opMul
                           [dropped (DinNet.d1 din)
                              (App (opLeakyRelu 0.1)
                                 [App opMul
                                    [dropped (DinNet.d0 din)
                                       (App (opLeakyRelu 0.1)
                                          [App opMul
                                             [App (opConcat 1)
                                                  [xUserProfile; pooled;
                                                   xItemFeature; xCtxFeature];
                                              DinNet.mlp0 din]]);
                                     DinNet.mlp1 din]]);
                            DinNet.mlp2 din]]))
  (* its dropout nodes are those of the model's probabilities *)
  /\ (forall mlp xUserProfile ubMatrix xItemFeature xCtxFeature
             batchSize uBehaviorSize uBehaviorDim mlp' e o,
         Forall (fun n => stochastic n = false)
                ([xUserProfile; ubMatrix; xItemFeature; xCtxFeature]
                   ++ SimpleMLP.learnable mlp) ->
         SimpleMLP.Fwd mlp xUserProfile ubMatrix xItemFeature xCtxFeature
                       batchSize uBehaviorSize uBehaviorDim = Ret (mlp', e) ->
         SimpleMLP.Out mlp' = Some o ->
         dropout_probs o = filter attaches [SimpleMLP.d1 mlp; SimpleMLP.d0 mlp])
  /\ (forall din xUserProfile ubMatrix xItemFeature xCtxFeature
             batchSize uBehaviorSize uBehaviorDim din' o,
         Forall (fun n => stochastic n = false)
                ([xUserProfile; ubMatrix; xItemFeature; xCtxFeature]
                   ++ [DinNet.mlp0 din; DinNet.mlp1 din; DinNet.mlp2 din]
                   ++ DinNet.att0 din ++ DinNet.att1 din) ->
         DinNet.Fwd din xUserProfile ubMatrix xItemFeature xCtxFeature
                    batchSize uBehaviorSize uBehaviorDim = Ret (din', None) ->
         DinNet.Out din' = Some o ->
         dropout_probs o = filter attaches [DinNet.d1 din; DinNet.d0 din])
  (* the probabilities of the constructed models, none of them zero *)
  /\ (forall P S D I C mlp,
         NewSimpleMLP P S D I C = Ret mlp ->
         SimpleMLP.d0 mlp = 0.01%float /\ SimpleMLP.d1 mlp = 0.01%float
         /\ filter attaches [SimpleMLP.d1 mlp; SimpleMLP.d0 mlp] = [0.01; 0.01]%float)
  /\ (forall P S D I C din,
         NewDinNet P S D I C = Ret din ->
         DinNet.d0 din = 0.001%float /\ DinNet.d1 din = 0.001%float
         /\ filter attaches [DinNet.d1 din; DinNet.d0 din] = [0.001; 0.001]%float)
  (* two runs agree when they draw the same samples at the dropout nodes *)
  /\ (forall mlp xUserProfile ubMatrix xItemFeature xCtxFeature
             batchSize uBehaviorSize uBehaviorDim mlp' e o,
         SimpleMLP.Fwd mlp xUserProfile ubMatrix xItemFeature xCtxFeature
                       batchSize uBehaviorSize uBehaviorDim = Ret (mlp', e) ->
         SimpleMLP.Out mlp' = Some o ->
         forall sigmoid dropout env rnd1 rnd2,
           (forall x, In x (dropout_inputs o) -> forall k, rnd1 x k = rnd2 x k) ->
           eval sigmoid dropout env rnd1 o = eval sigmoid dropout env rnd2 o)
  /\ (forall din xUserProfile ubMatrix xItemFeature xCtxFeature
             batchSize uBehaviorSize uBehaviorDim din' e o,
         DinNet.Fwd din xUserProfile ubMatrix xItemFeature xCtxFeature
                    batchSize uBehaviorSize uBehaviorDim = Ret (din', e) ->
         DinNet.Out din' = Some o ->
         forall sigmoid dropout env rnd1 rnd2,
           (forall x, In x (dropout_inputs o) -> forall k, rnd1 x k = rnd2 x k) ->
           eval sigmoid dropout env rnd1 o = eval sigmoid dropout env rnd2 o)
  (* with both probabilities zero there is no dropout node, and any two
     runs agree *)
  /\ (forall mlp xUserProfile ubMatrix xItemFeature xCtxFeature
             batchSize uBehaviorSize uBehaviorDim mlp' o,
         (SimpleMLP.d0 mlp =? 0)%float = true ->
         (SimpleMLP.d1 mlp =? 0)%float = true ->
         Forall (fun n => stochastic n = false)
                ([xUserProfile; ubMatrix; xItemFeature; xCtxFeature]
                   ++ SimpleMLP.learnable mlp) ->
         SimpleMLP.Fwd mlp xUserProfile ubMatrix xItemFeature xCtxFeature
                       batchSize uBehaviorSize uBehaviorDim = Ret (mlp', None) ->
         SimpleMLP.Out mlp' = Some o ->
         forall sigmoid dropout env rnd1 rnd2,
           eval sigmoid dropout env rnd1 o = eval sigmoid dropout env rnd2 o)
  /\ (forall din xUserProfile ubMatrix xItemFeature xCtxFeature
             batchSize uBehaviorSize uBehaviorDim din' o,
         (DinNet.d0 din =? 0)%float = true ->
         (DinNet.d1 din =? 0)%float = true ->
         Forall (fun n => stochastic n = false)
                ([xUserProfile; ubMatrix; xItemFeature; xCtxFeature]
                   ++ [DinNet.mlp0 din; DinNet.mlp1 din; DinNet.mlp2 din]
                   ++ DinNet.att0 din ++ DinNet.att1 din) ->
         DinNet.Fwd din xUserProfile ubMatrix xItemFeature xCtxFeature
                    batchSize uBehaviorSize uBehaviorDim = Ret (din', None) ->
         DinNet.Out din' = Some o ->
         forall sigmoid dropout env rnd1 rnd2,
           eval sigmoid dropout env rnd1 o = eval sigmoid dropout env rnd2 o).
Proof.
  repeat apply conj.
  - intros mlp xp ub it ctx B S D mlp' e E. eapply SimpleMLP_Fwd_out; exact E.
  - intros din xp ub it ctx B S D din' E. eapply DinNet_Fwd_out; exact E.
  - intros mlp xp ub it ctx B S D mlp' e o Hin E Ho.
    apply SimpleMLP_Fwd_out in E. rewrite E in Ho. injection Ho as <-.
    unfold SimpleMLP.learnable in Hin. cbn [List.app] in Hin.
    repeat match goal with
           | H : Forall _ (_ :: _) |- _ => inversion H; clear H; subst
           end.
    repeat match goal with
           | H : stochastic _ = false |- _ =>
               apply stochastic_false_no_dropout in H; destruct H as [H _]
           end.
    apply dropout_probs_of_the_layers; try assumption.
    cbn [dropout_probs flat_map List.app].
    repeat match goal with H : dropout_probs _ = [] |- _ => rewrite H; clear H end.
    reflexivity.
  - intros din xp ub it ctx B S D din' o Hin E Ho.
    apply DinNet_Fwd_out in E as (I & pooled & Ep & E).
    rewrite E in Ho. injection Ho as <-.
    cbn [List.app] in Hin.
    repeat match goal with
           | H : Forall _ (_ :: _) |- _ => inversion H; clear H; subst
           end.
    match goal with
    | H : Forall _ (_ ++ _) |- _ => apply Forall_app in H as [Ha0 Ha1]
    end.
    apply userInterest_graph in Ep; try assumption.
    repeat match goal with
           | H : stochastic _ = false |- _ =>
               apply stochastic_false_no_dropout in H; destruct H as [H _]
           end.
    apply dropout_probs_of_the_layers; try assumption.
    cbn [dropout_probs flat_map List.app].
    repeat match goal with H : dropout_probs _ = [] |- _ => rewrite H; clear H end.
    reflexivity.
  - intros P S D I C mlp [= <-]. repeat split.
  - intros P S D I C din E. unfold NewDinNet in E.
    destruct (negb (D =? I)); [discriminate|].
    apply bind_Ret_inv in E as (u & _ & E). injection E as <-. repeat split.
  - intros mlp xp ub it ctx B S D mlp' e o _ _ sigmoid dropout env rnd1 rnd2 Hag.
    now apply eval_agree.
  - intros din xp ub it ctx B S D din' e o _ _ sigmoid dropout env rnd1 rnd2 Hag.
    now apply eval_agree.
  - intros mlp xp ub it ctx B S D mlp' o H0 H1 Hin E Ho sigmoid dropout env rnd1 rnd2.
    apply eval_deterministic. eapply SimpleMLP_Fwd_graph; eassumption.
  - intros din xp ub it ctx B S D din' o H0 H1 Hin E Ho sigmoid dropout env rnd1 rnd2.
    apply eval_deterministic. eapply DinNet_Fwd_graph; eassumption.
Qed.

Lemma dropout_is_applied_in_every_forward_pass_witness :
  exists mlp' o,
    NewSimpleMLP 1 1 1 1 1 = Ret small_mlp
    /\ SimpleMLP.Fwd small_mlp (Leaf "xUserProfile" [1; 1] NoInit)
                     (Leaf "xUserBehaviorMatrix" [1; 1 * 1] NoInit)
                     (Leaf "xItemFeature" [1; 1] NoInit)
                     (Leaf "xCtxFeature" [1; 1] NoInit) 1 1 1
       = Ret (mlp', None)
    /\ SimpleMLP.Out mlp' = Some o
    /\ dropout_probs o = [0.01; 0.01]%float
    /\ forall sigmoid dropout env,
        eval sigmoid dropout env keep_all o
        = eval sigmoid dropout env
               (fun x k => match x with
                           | App (opLeakyRelu _) _ => 0.5%float
                           | _ => 0%float
                           end) o.
Proof.
  do 2 eexists. split; [reflexivity|]. split; [vm_compute; reflexivity|].
  split; [reflexivity|].
  destruct dropout_is_applied_in_every_forward_pass
    as (_ & _ & Hprobs & _ & _ & _ & Hagree & _).
  split.
  - eapply (Hprobs small_mlp (Leaf "xUserProfile" [1; 1] NoInit)
                   (Leaf "xUserBehaviorMatrix" [1; 1 * 1] NoInit)
                   (Leaf "xItemFeature" [1; 1] NoInit)
                   (Leaf "xCtxFeature" [1; 1] NoInit) 1 1 1);
      [repeat constructor | vm_compute; reflexivity | reflexivity].
  - intros sigmoid dropout env.
    eapply (Hagree small_mlp (Leaf "xUserProfile" [1; 1] NoInit)
                   (Leaf "xUserBehaviorMatrix" [1; 1 * 1] NoInit)
                   (Leaf "xItemFeature" [1; 1] NoInit)
                   (Leaf "xCtxFeature" [1; 1] NoInit) 1 1 1);
      [vm_compute; reflexivity | reflexivity |].
    intros x Hx k. cbn in Hx. destruct Hx as [<-|[<-|[]]]; reflexivity.
Defined.

(** C9, the claim as stated fails: there is no evaluation mode in which
    dropout is off.  The graph [Fwd] builds for a model as its constructor
    returns it contains two dropout nodes, with probability 0.01 for the
    baseline and 0.001 for DIN, and it is the only graph the package ever
    runs; and two runs of it on identical inputs and parameters differ: for
    the constructed baseline on [alternating_store], the run that keeps the
    even elements has a last-layer value above 19 and the run that keeps the
    odd ones a value below -709, so the outputs are 1.0 and 0.0. *)
Lemma two_runs_of_a_constructed_model_differ :
  (exists mlp' o a b,
      NewSimpleMLP 1 1 1 1 1 = Ret small_mlp
      /\ SimpleMLP.Fwd small_mlp (Leaf "xUserProfile" [1; 1] NoInit)
                       (Leaf "xUserBehaviorMatrix" [1; 1 * 1] NoInit)
                       (Leaf "xItemFeature" [1; 1] NoInit)
                       (Leaf "xCtxFeature" [1; 1] NoInit) 1 1 1
         = Ret (mlp', None)
      /\ SimpleMLP.Out mlp' = Some o
      /\ stochastic o = true
      /\ dropout_probs o = [0.01; 0.01]%float
      /\ (forall sigmoid,
             eval sigmoid dropoutF64 alternating_store keep_even o = Some [sigmoid a]
             /\ eval sigmoid dropoutF64 alternating_store keep_odd o = Some [sigmoid b])
      /\ (19 <? a)%float = true
      /\ (b <? -709)%float = true
      /\ (forall exp,
             eval (sigmoidF64 exp) dropoutF64 alternating_store keep_even o
             = Some [1%float]
             /\ eval (sigmoidF64 exp) dropoutF64 alternating_store keep_odd o
                = Some [0%float])
      /\ (1 =? 0)%float = false)
  /\ (exists mlp mlp' o,
         NewSimpleMLP 1 2 1 1 1 = Ret mlp
         /\ SimpleMLP.Fwd mlp (Leaf "xUserProfile" [2; 1] NoInit)
                          (Leaf "xUserBehaviorMatrix" [2; 2] NoInit)
                          (Leaf "xItemFeature" [2; 1] NoInit)
                          (Leaf "xCtxFeature" [2; 1] NoInit) 2 2 1
            = Ret (mlp', None)
         /\ SimpleMLP.Out mlp' = Some o
         /\ stochastic o = true
         /\ dropout_probs o = [0.01; 0.01]%float)
  /\ (exists din din' o,
         NewDinNet 1 2 1 1 1 = Ret din
         /\ DinNet.Fwd din (Leaf "xUserProfile" [2; 1] NoInit)
                       (Leaf "xUserBehaviorMatrix" [2; 2] NoInit)
                       (Leaf "xItemFeature" [2; 1] NoInit)
                       (Leaf "xCtxFeature" [2; 1] NoInit) 2 2 1
            = Ret (din', None)
         /\ DinNet.Out din' = Some o
         /\ stochastic o = true
         /\ dropout_probs o = [0.001; 0.001]%float).
Proof.
  split; [|split].
  - eexists _, _, ?[a], ?[b]. split; [reflexivity|]. split; [vm_compute; reflexivity|].
    split; [reflexivity|]. split; [reflexivity|]. split; [reflexivity|].
    assert (Hgen : forall sigmoid,
               eval sigmoid dropoutF64 alternating_store keep_even
                    (App opSigmoid
                       [App opMul
                          [App (opDropout 0.01)
                             [App (opLeakyRelu 0.1)
                                [App opMul
                                   [App (opDropout 0.01)
                                      [App (opLeakyRelu 0.1)
                                         [App opMul
                                            [App (opConcat 1)
                                               [Leaf "xUserProfile" [1; 1] NoInit;
                                                App (opReshape [1; 1 * 1])
                                                    [Leaf "xUserBehaviorMatrix"
                                                          [1; 1 * 1] NoInit];
                                                Leaf "xItemFeature" [1; 1] NoInit;
                                                Leaf "xCtxFeature" [1; 1] NoInit];
                                             Leaf "mlp0" [4; 200] (Gaussian 0 1)]]];
                                    Leaf "mlp1" [200; 80] (Gaussian 0 1)]]];
                           Leaf "mlp2" [80; 1] (Gaussian 0 1)]])
               = Some [sigmoid ?a]
               /\ eval sigmoid dropoutF64 alternating_store keep_odd
                       (App opSigmoid
                          [App opMul
                             [App (opDropout 0.01)
                                [App (opLeakyRelu 0.1)
                                   [App opMul
                                      [App (opDropout 0.01)
                                         [App (opLeakyRelu 0.1)
                                            [App opMul
                                               [App (opConcat 1)
                                                  [Leaf "xUserProfile" [1; 1] NoInit;
                                                   App (opReshape [1; 1 * 1])
                                                       [Leaf "xUserBehaviorMatrix"
                                                             [1; 1 * 1] NoInit];
                                                   Leaf "xItemFeature" [1; 1] NoInit;
                                                   Leaf "xCtxFeature" [1; 1] NoInit];
                                                Leaf "mlp0" [4; 200] (Gaussian 0 1)]]];
                                       Leaf "mlp1" [200; 80] (Gaussian 0 1)]]];
                              Leaf "mlp2" [80; 1] (Gaussian 0 1)]])
                  = Some [sigmoid ?b]).
    { intros sigmoid. split; vm_compute; reflexivity. }
    split; [exact Hgen|].
    split; [vm_compute; reflexivity|]. split; [vm_compute; reflexivity|].
    split; [|reflexivity].
    intros exp. destruct (Hgen (sigmoidF64 exp)) as [E1 E2].
    split; [refine (eq_trans E1 _) | refine (eq_trans E2 _)]; reflexivity.
  - do 3 eexists. split; [reflexivity|]. split; [vm_compute; reflexivity|].
    split; [reflexivity|]. split; vm_compute; reflexivity.
  - do 3 eexists. split; [reflexivity|]. split; [vm_compute; reflexivity|].
    split; [reflexivity|]. split; vm_compute; reflexivity.
Qed.

(** ** The whole forward pass *)

Section ForwardPass.

Variable sigmoid : float -> float.
Variable dropout : float -> float -> float -> float.
Variable env : Env.
Variable rnd : Node -> nat -> float.

Local Abbreviation has := (has_value sigmoid dropout env rnd).

Lemma has_concat1_4 a b c d B x y z w va vb vc vd :
  has a [B; x] va -> has b [B; y] vb -> has c [B; z] vc -> has d [B; w] vd ->
  0 <= B -> 0 <= x -> 0 <= y -> 0 <= z -> 0 <= w ->
  has (App (opConcat 1) [a; b; c; d]) [B; x + y + z + w]
      (flat_map (fun o => chunk (Z.to_nat x) o va ++ chunk (Z.to_nat y) o vb
                          ++ chunk (Z.to_nat z) o vc ++ chunk (Z.to_nat w) o vd)
                (seq 0 (Z.to_nat B))).
Proof.
  intros (Sa & Ea & La) (Sb & Eb & Lb) (Sc & Ec & Lc) (Sd & Ed & Ld) HB Hx Hy Hz Hw.
  rewrite size_2 in La, Lb, Lc, Ld by lia.
  unfold has_value. cbn [shapeOf eval map all_some].
  rewrite Sa, Sb, Sc, Sd, Ea, Eb, Ec, Ed. cbn [option_map hd].
  match goal with
  | |- ?X = _ /\ _ => assert (Hi : X = Some [B; x + y + z + w])
  end.
  { cbn [inferShape]. change (1 <? 0) with false. cbv iota.
    change (Z.to_nat 1) with 1%nat. cbn [List.length Nat.ltb Nat.leb fold_left].
    repeat (cbn [option_map concat_shape shape_eqb andb]; rewrite ?Z.eqb_refl).
    reflexivity. }
  rewrite Hi. split; [reflexivity|]. split.
  - f_equal. cbn [evalOp]. change (Z.to_nat 1) with 1%nat.
    unfold concat_data. cbn [firstn combine].
    rewrite size_1. apply flat_map_ext. intros o.
    cbn [flat_map fst snd skipn]. now rewrite !size_1, app_nil_r.
  - rewrite size_2 by lia.
    rewrite (flat_map_length_const _ _ (Z.to_nat (x + y + z + w)));
      [now rewrite length_seq|].
    intros o Ho. apply in_seq in Ho.
    rewrite !length_app, !chunk_length by nia. lia.
Qed.

Lemma has_leaky a sh va alpha :
  has a sh va -> has (App (opLeakyRelu alpha) [a]) sh (map (leaky_relu alpha) va).
Proof. intros H. apply has_unary; [exact H | reflexivity | reflexivity]. Qed.

Lemma has_sigmoid a sh va :
  has a sh va -> has (App opSigmoid [a]) sh (map sigmoid va).
Proof. intros H. apply has_unary; [exact H | reflexivity | reflexivity]. Qed.

Lemma G_Dropout_ok x sh v p :
  has x sh v ->
  exists n v', Must (G_Dropout x p) = Ret n /\ has n sh v'.
Proof.
  intros H. unfold G_Dropout. destruct (p =? 0)%float.
  - exists x, v. split; [reflexivity | exact H].
  - assert (Hd : has (App (opDropout p) [x]) sh
                     (map (fun kx => dropout p (rnd x (fst kx)) (snd kx))
                          (combine (seq 0 (List.length v)) v))).
    { eapply has_app1; [exact H | reflexivity | reflexivity |].
      destruct H as (_ & _ & L).
      now rewrite length_map, length_combine, length_seq, Nat.min_id. }
    eexists. eexists. split; [|exact Hd].
    apply (Must_has _ _ _ _ _ _ _ _ Hd).
Qed.

(** The three dense layers, from their input to the prediction. *)
Lemma mlp_ok x m0 m1 m2 (p0 p1 : float) B n0 vx w0 w1 w2 :
  0 <= B ->
  has x [B; n0] vx ->
  has m0 [n0; 200] w0 -> has m1 [200; 80] w1 -> has m2 [80; 1] w2 ->
  exists o z,
    (h0 <- Must (G_Mul x m0) ;;
     mlp0Out <- Must (G_LeakyRelu h0 0.1) ;;
     mlp0Out <- Must (G_Dropout mlp0Out p0) ;;
     h1 <- Must (G_Mul mlp0Out m1) ;;
     mlp1Out <- Must (G_LeakyRelu h1 0.1) ;;
     mlp1Out <- Must (G_Dropout mlp1Out p1) ;;
     h2 <- Must (G_Mul mlp1Out m2) ;;
     Must (G_Sigmoid h2)) = Ret o
    /\ has o [B; 1] (map sigmoid z).
Proof.
  intros HB Hx H0 H1 H2.
  assert (Hh0 := has_mul _ _ _ _ _ _ _ _ _ _ _ Hx H0 HB ltac:(lia)).
  assert (Hl0 := has_leaky _ _ _ 0.1%float Hh0).
  destruct (G_Dropout_ok _ _ _ p0 Hl0) as (d0n & d0v & Ed0 & Hd0).
  assert (Hh1 := has_mul _ _ _ _ _ _ _ _ _ _ _ Hd0 H1 HB ltac:(lia)).
  assert (Hl1 := has_leaky _ _ _ 0.1%float Hh1).
  destruct (G_Dropout_ok _ _ _ p1 Hl1) as (d1n & d1v & Ed1 & Hd1).
  assert (Hh2 := has_mul _ _ _ _ _ _ _ _ _ _ _ Hd1 H2 HB ltac:(lia)).
  assert (Ho := has_sigmoid _ _ _ Hh2).
  eexists. eexists. split; [|exact Ho].
  unfold G_Mul. rewrite (Must_has _ _ _ _ _ _ _ _ Hh0). cbn [bind].
  unfold G_LeakyRelu. rewrite (Must_has _ _ _ _ _ _ _ _ Hl0). cbn [bind].
  rewrite Ed0. cbn [bind].
  rewrite (Must_has _ _ _ _ _ _ _ _ Hh1). cbn [bind].
  rewrite (Must_has _ _ _ _ _ _ _ _ Hl1). cbn [bind].
  rewrite Ed1. cbn [bind].
  rewrite (Must_has _ _ _ _ _ _ _ _ Hh2). cbn [bind].
  unfold G_Sigmoid. apply (Must_has _ _ _ _ _ _ _ _ Ho).
Qed.

End ForwardPass.

(** On well-shaped inputs and weights the baseline's forward pass returns
    without error, and its output is a [B] x 1 node whose value is the
    backend's logistic kernel applied to every element of the last layer. *)
Lemma SimpleMLP_Fwd_ok sigmoid dropout env rnd
      (mlp : SimpleMLP.t) xUserProfile ubMatrix xItemFeature xCtxFeature
      (B S D P I C : Z) vp du di vc w0 w1 w2 :
  0 <= B -> 0 <= S -> 0 <= D -> 0 <= P -> 0 <= I -> 0 <= C ->
  has_value sigmoid dropout env rnd xUserProfile [B; P] vp ->
  has_value sigmoid dropout env rnd ubMatrix [B; S * D] du ->
  has_value sigmoid dropout env rnd xItemFeature [B; I] di ->
  has_value sigmoid dropout env rnd xCtxFeature [B; C] vc ->
  has_value sigmoid dropout env rnd (SimpleMLP.mlp0 mlp) [P + S * D + I + C; 200] w0 ->
  has_value sigmoid dropout env rnd (SimpleMLP.mlp1 mlp) [200; 80] w1 ->
  has_value sigmoid dropout env rnd (SimpleMLP.mlp2 mlp) [80; 1] w2 ->
  exists o z,
    SimpleMLP.Fwd mlp xUserProfile ubMatrix xItemFeature xCtxFeature B S D
    = Ret (SimpleMLP.set_out mlp o, None)
    /\ has_value sigmoid dropout env rnd o [B; 1] (map sigmoid z).
Proof.
  intros HB HS HD HP HI HC Hp Hu Hi Hc H0 H1 H2.
  assert (Hr : has_value sigmoid dropout env rnd
                         (App (opReshape [B; S * D]) [ubMatrix]) [B; S * D] du).
  { eapply has_reshape; [exact Hu | | reflexivity].
    cbn [valid_shape forallb]. rewrite andb_true_r.
    apply andb_true_intro. split; apply Z.leb_le; nia. }
  assert (Hx := has_concat1_4 sigmoid dropout env rnd _ _ _ _ _ _ _ _ _ _ _ _ _ Hp Hr Hi Hc
                              HB HP (Z.mul_nonneg_nonneg _ _ HS HD) HI HC).
  destruct (mlp_ok sigmoid dropout env rnd _ _ _ _
                   (SimpleMLP.d0 mlp) (SimpleMLP.d1 mlp) _ _ _ _ _ _
                   HB Hx H0 H1 H2) as (o & z & E & Ho).
  exists o, z. split; [|exact Ho].
  unfold SimpleMLP.Fwd.
  unfold G_Reshape. rewrite (Must_has _ _ _ _ _ _ _ _ Hr). cbn [bind].
  unfold G_Concat. rewrite (Must_has _ _ _ _ _ _ _ _ Hx). cbn [bind].
  revert E. generalize (App (opConcat 1)
    [xUserProfile; App (opReshape [B; S * D]) [ubMatrix]; xItemFeature; xCtxFeature]).
  intros x E.
  repeat match goal with
         | |- bind ?m _ = _ =>
             let r := fresh "r" in
             destruct m as [r| |] eqn:?; cbn [bind] in E |- *; try discriminate E
         end.
  now injection E as <-.
Qed.

(** The same for the DIN model. *)
Lemma DinNet_Fwd_ok sigmoid dropout env rnd
      (din : DinNet.t) xUserProfile ubMatrix xItemFeature xCtxFeature
      (B S D P C k : Z) vp du di vc w0 w1 w2
      (a0 a1 : Z -> Node) (A0 A1 : nat -> Value) :
  0 < B -> 0 <= S -> 0 <= D -> 0 <= P -> 0 <= C -> 0 <= k ->
  has_value sigmoid dropout env rnd xUserProfile [B; P] vp ->
  has_value sigmoid dropout env rnd ubMatrix [B; S * D] du ->
  has_value sigmoid dropout env rnd xItemFeature [B; D] di ->
  has_value sigmoid dropout env rnd xCtxFeature [B; C] vc ->
  (forall i, 0 <= i < S ->
     index (DinNet.att0 din) i = Ret (a0 i)
     /\ has_value sigmoid dropout env rnd (a0 i) [D + D + S * D * D; k]
                  (A0 (Z.to_nat i))) ->
  (forall i, 0 <= i < S ->
     index (DinNet.att1 din) i = Ret (a1 i)
     /\ has_value sigmoid dropout env rnd (a1 i) [k; 1] (A1 (Z.to_nat i))) ->
  has_value sigmoid dropout env rnd (DinNet.mlp0 din) [P + D + D + C; 200] w0 ->
  has_value sigmoid dropout env rnd (DinNet.mlp1 din) [200; 80] w1 ->
  has_value sigmoid dropout env rnd (DinNet.mlp2 din) [80; 1] w2 ->
  exists o z,
    DinNet.Fwd din xUserProfile ubMatrix xItemFeature xCtxFeature B S D
    = Ret (DinNet.set_out din o, None)
    /\ has_value sigmoid dropout env rnd o [B; 1] (map sigmoid z).
Proof.
  intros HB HS HD HP HC Hk Hp Hu Hi Hc Ha0 Ha1 H0 H1 H2.
  destruct (userInterest_ok sigmoid dropout env rnd ubMatrix xItemFeature B S D du di
                            HB HS HD Hu Hi din a0 a1 A0 A1 k Hk Ha0 Ha1) as (Eu & Hn).
  assert (Hx := has_concat1_4 sigmoid dropout env rnd _ _ _ _ _ _ _ _ _ _ _ _ _ Hp Hn Hi Hc
                              (Z.lt_le_incl _ _ HB) HP HD HD HC).
  destruct (mlp_ok sigmoid dropout env rnd _ _ _ _
                   (DinNet.d0 din) (DinNet.d1 din) _ _ _ _ _ _
                   (Z.lt_le_incl _ _ HB) Hx H0 H1 H2) as (o & z & E & Ho).
  exists o, z. split; [|exact Ho].
  unfold DinNet.Fwd. destruct Hi as (Si & _ & _). rewrite Si. cbn [bind].
  unfold index. change (1 <? 0) with false. change (Z.to_nat 1) with 1%nat.
  cbn [nth_error bind]. rewrite Z.eqb_refl. cbn [negb].
  rewrite Eu. cbn [bind].
  unfold G_Concat. rewrite (Must_has _ _ _ _ _ _ _ _ Hx). cbn [bind].
  revert E. generalize (App (opConcat 1)
    [xUserProfile;
     actOuts_node (App (opReshape [B; S; D]) [ubMatrix])
                  (outProducts_node ubMatrix xItemFeature B S D D)
                  xItemFeature a0 a1 B S D;
     xItemFeature; xCtxFeature]).
  intros x E.
  repeat match goal with
         | |- bind ?m _ = _ =>
             let r := fresh "r" in
             destruct m as [r| |] eqn:?; cbn [bind] in E |- *; try discriminate E
         end.
  now injection E as <-.
Qed.

(** ** The range of the output *)




(** * Further properties of the code *)

(** ** Further properties of the metric *)

Lemma accuracy_loop_short_labels (prediction y : list float) :
  forall n i ok,
    (i + n = List.length prediction)%nat ->
    (i <= List.length y)%nat ->
    (List.length y < List.length prediction)%nat ->
    accuracy_loop prediction y n i ok = Panic.
Proof.
  induction n as [|n IH]; intros i ok Hi Hy Hlt.
  - lia.
  - cbn [accuracy_loop].
    destruct (nth_error prediction i) as [p|] eqn:Ep;
      [|apply nth_error_None in Ep; lia].
    destruct (nth_error y i) as [l|] eqn:El; [|reflexivity].
    apply IH; [lia | | exact Hlt].
    assert (i < List.length y)%nat by (apply nth_error_Some; congruence). lia.
Qed.

(** X1: [accuracy] reads [y[i]] for every index of [prediction]: with fewer
    labels than predictions it panics (index out of range) instead of
    returning a number. *)
Theorem accuracy_panics_when_labels_run_out (prediction y : list float) :
  (List.length y < List.length prediction)%nat ->
  accuracy prediction y = Panic.
Proof.
  intros Hlt. unfold accuracy.
  rewrite (accuracy_loop_short_labels prediction y (List.length prediction) 0 0%float)
    by lia.
  reflexivity.
Qed.

Lemma accuracy_panics_when_labels_run_out_witness :
  accuracy [0.6; 0.4]%float [1]%float = Panic.
Proof.
  apply (accuracy_panics_when_labels_run_out [0.6; 0.4]%float [1]%float).
  cbn. lia.
Defined.

(** X2: [accuracy] loops over the predictions but divides by the number of
    labels: with fewer predictions than labels it returns the matches among
    the predictions over [len(y)], so every label without a prediction lowers
    the result like a miss; and on two empty slices the result is [0/0], a
    NaN. *)
Theorem accuracy_divides_by_the_number_of_labels :
  (forall prediction y : list float,
      (List.length prediction <= List.length y)%nat ->
      accuracy prediction y
      = Ret (count_up (count_ok prediction y) / float_of_nat (List.length y))%float)
  /\ (forall prediction y : list float,
         (List.length prediction <= List.length y)%nat ->
         (count_ok prediction y <= List.length prediction)%nat)
  /\ accuracy [] [] = Ret nan.
Proof.
  split; [|split].
  - intros prediction y Hle. unfold accuracy.
    rewrite (accuracy_loop_count prediction y (List.length prediction) 0 0%float)
      by lia.
    reflexivity.
  - intros prediction y Hle. unfold count_ok.
    etransitivity; [apply filter_length_le|].
    rewrite length_combine. lia.
  - vm_compute. reflexivity.
Qed.

Lemma accuracy_divides_by_the_number_of_labels_witness :
  accuracy [0.6]%float [1; 0; 1; 1]%float = Ret 0.25%float.
Proof.
  rewrite (proj1 accuracy_divides_by_the_number_of_labels
                 [0.6]%float [1; 0; 1; 1]%float); [|cbn; lia].
  vm_compute. reflexivity.
Defined.

(** ** What the forward passes keep and what they never do *)

Lemma bind_not_Fatal {A B} (m : outcome A) (k : A -> outcome B) :
  (forall e, m <> Fatal e) -> (forall a e, k a <> Fatal e) ->
  forall e, bind m k <> Fatal e.
Proof.
  intros Hm Hk e. destruct m as [a|e'|]; cbn [bind].
  - apply Hk.
  - exfalso. now apply (Hm e').
  - discriminate.
Qed.

Lemma Must_not_Fatal r e : Must r <> Fatal e.
Proof. destruct r; discriminate. Qed.

Lemma index_not_Fatal {A} (s : list A) i e : index s i <> Fatal e.
Proof.
  unfold index. destruct (i <? 0); [discriminate|].
  destruct (nth_error s (Z.to_nat i)); discriminate.
Qed.

Lemma mapM_not_Fatal {A B} (f : A -> outcome B) (l : list A) :
  (forall a e, f a <> Fatal e) -> forall e, mapM f l <> Fatal e.
Proof.
  intros Hf. induction l as [|a l IH]; intros e; cbn [mapM]; [discriminate|].
  apply bind_not_Fatal; [apply Hf|]. intros b e'.
  apply bind_not_Fatal; [exact IH|]. discriminate.
Qed.

Lemma foldM_not_Fatal {A B} (f : A -> B -> outcome A) (l : list B) :
  (forall a b e, f a b <> Fatal e) -> forall a e, foldM f l a <> Fatal e.
Proof.
  intros Hf. induction l as [|b l IH]; intros a e; cbn [foldM]; [discriminate|].
  apply bind_not_Fatal; [apply Hf | intros a' e'; apply IH].
Qed.

Ltac not_fatal :=
  repeat first
    [ apply Must_not_Fatal
    | apply index_not_Fatal
    | apply bind_not_Fatal; [intros ? | intros ? ?]
    | discriminate ].

Lemma userInterest_not_Fatal din ub item B S D I e :
  DinNet.userInterest din ub item B S D I <> Fatal e.
Proof.
  revert e. unfold DinNet.userInterest.
  apply bind_not_Fatal; [intros e; apply Must_not_Fatal|]. intros xub e.
  revert e. apply bind_not_Fatal.
  - unfold DinNet.outProducts. intros e. revert e.
    apply bind_not_Fatal; [unfold make_check; destruct (B <? 0); discriminate|].
    intros _ e. revert e. apply bind_not_Fatal.
    + apply mapM_not_Fatal. intros i e. unfold DinNet.outProdVec. revert e. not_fatal.
    + intros vecs e. revert e. not_fatal.
  - intros outProds e. unfold DinNet.actOuts. apply foldM_not_Fatal.
    intros acc i e'. revert e'. apply bind_not_Fatal.
    + unfold DinNet.actOut. not_fatal.
    + intros a e'. apply Must_not_Fatal.
Qed.

(** Neither forward pass ever ends the process: a rejected operation
    panics, and the only error value is the dimension mismatch. *)
Lemma DinNet_Fwd_not_Fatal din xp ub item ctx B S D e :
  DinNet.Fwd din xp ub item ctx B S D <> Fatal e.
Proof.
  revert e. unfold DinNet.Fwd.
  apply bind_not_Fatal; [destruct (shapeOf item); discriminate|]. intros sh e.
  revert e. apply bind_not_Fatal; [intros e; apply index_not_Fatal|]. intros I e.
  destruct (negb (D =? I)); [discriminate|].
  revert e. apply bind_not_Fatal; [intros e; apply userInterest_not_Fatal|].
  intros pooled e. revert e. not_fatal.
Qed.

Lemma foldM_Ret_all {A B} (f : A -> B -> outcome A) (l : list B) :
  forall a a', foldM f l a = Ret a' ->
               forall x, In x l -> exists a1 a2, f a1 x = Ret a2.
Proof.
  induction l as [|b l IH]; intros a a' E x Hx; [destruct Hx|].
  cbn [foldM] in E. apply bind_Ret_inv in E as (a1 & E1 & E).
  destruct Hx as [<-|Hx]; [eauto | eapply IH; eassumption].
Qed.

Lemma index_lt {A} (s : list A) i a :
  index s i = Ret a -> 0 <= i < Z.of_nat (List.length s).
Proof.
  unfold index. destruct (Z.ltb_spec i 0); [discriminate|].
  destruct (nth_error s (Z.to_nat i)) eqn:E; [|discriminate]. intros _.
  assert (Z.to_nat i < List.length s)%nat by (apply nth_error_Some; congruence).
  lia.
Qed.

(** X3: [DinNet.Fwd] takes the number of behavior slots as an argument and
    indexes [att0] and [att1] with every slot: called with more slots than
    the model has attention weights it panics (index out of range), it does
    not return an error. *)
Theorem DinNet_Fwd_panics_on_more_slots_than_weights
        din xUserProfile ubMatrix xItemFeature xCtxFeature
        (batchSize uBehaviorSize uBehaviorDim rows : Z) :
  shapeOf xItemFeature = Some [rows; uBehaviorDim] ->
  Z.of_nat (Nat.min (List.length (DinNet.att0 din)) (List.length (DinNet.att1 din)))
  < uBehaviorSize ->
  DinNet.Fwd din xUserProfile ubMatrix xItemFeature xCtxFeature
             batchSize uBehaviorSize uBehaviorDim = Panic.
Proof.
  intros Hsh Hlen.
  destruct (DinNet.Fwd din xUserProfile ubMatrix xItemFeature xCtxFeature
                       batchSize uBehaviorSize uBehaviorDim) as [[din' e]|e|] eqn:E;
    [exfalso | exfalso; now apply DinNet_Fwd_not_Fatal in E | reflexivity].
  unfold DinNet.Fwd in E. rewrite Hsh in E. cbn [bind] in E.
  unfold index in E. change (1 <? 0) with false in E.
  change (Z.to_nat 1) with 1%nat in E. cbn [nth_error bind] in E.
  rewrite Z.eqb_refl in E. cbn [negb] in E.
  apply bind_Ret_inv in E as (pooled & Ep & _).
  unfold DinNet.userInterest in Ep.
  apply bind_Ret_inv in Ep as (xub & _ & Ep).
  apply bind_Ret_inv in Ep as (outProds & _ & Ep).
  unfold DinNet.actOuts in Ep.
  set (k := Z.of_nat (Nat.min (List.length (DinNet.att0 din))
                              (List.length (DinNet.att1 din)))) in *.
  destruct (foldM_Ret_all _ _ _ _ Ep k) as (acc & acc' & Estep).
  { apply range_In. lia. }
  apply bind_Ret_inv in Estep as (a & Ea & _).
  unfold DinNet.actOut in Ea.
  apply bind_Ret_inv in Ea as (n1 & _ & Ea).
  apply bind_Ret_inv in Ea as (n2 & _ & Ea).
  apply bind_Ret_inv in Ea as (a0 & E0 & Ea).
  apply bind_Ret_inv in Ea as (n3 & _ & Ea).
  apply bind_Ret_inv in Ea as (a1 & E1 & _).
  apply index_lt in E0, E1. subst k. lia.
Qed.

Lemma DinNet_Fwd_panics_on_more_slots_than_weights_witness :
  exists din,
    NewDinNet 1 2 1 1 1 = Ret din
    /\ DinNet.Fwd din (Leaf "xUserProfile" [2; 1] NoInit)
                  (Leaf "xUserBehaviorMatrix" [2; 3] NoInit)
                  (Leaf "xItemFeature" [2; 1] NoInit)
                  (Leaf "xCtxFeature" [2; 1] NoInit) 2 3 1 = Panic.
Proof.
  eexists. split; [reflexivity|].
  apply (DinNet_Fwd_panics_on_more_slots_than_weights _ _ _ _ _ 2 3 1 2);
    [reflexivity | vm_compute; reflexivity].
Defined.

(** X4: [DinNet.Fwd] allocates one node per example with [make]: on a
    negative batch size it panics (at that [make] at the latest), it does
    not report the size as an error. *)
Theorem DinNet_Fwd_panics_on_negative_batch_size
        din xUserProfile ubMatrix xItemFeature xCtxFeature
        (batchSize uBehaviorSize uBehaviorDim rows : Z) :
  shapeOf xItemFeature = Some [rows; uBehaviorDim] ->
  batchSize < 0 ->
  DinNet.Fwd din xUserProfile ubMatrix xItemFeature xCtxFeature
             batchSize uBehaviorSize uBehaviorDim = Panic.
Proof.
  intros Hsh HB.
  destruct (DinNet.Fwd din xUserProfile ubMatrix xItemFeature xCtxFeature
                       batchSize uBehaviorSize uBehaviorDim) as [[din' e]|e|] eqn:E;
    [exfalso | exfalso; now apply DinNet_Fwd_not_Fatal in E | reflexivity].
  unfold DinNet.Fwd in E. rewrite Hsh in E. cbn [bind] in E.
  unfold index in E. change (1 <? 0) with false in E.
  change (Z.to_nat 1) with 1%nat in E. cbn [nth_error bind] in E.
  rewrite Z.eqb_refl in E. cbn [negb] in E.
  apply bind_Ret_inv in E as (pooled & Ep & _).
  unfold DinNet.userInterest in Ep.
  apply bind_Ret_inv in Ep as (xub & _ & Ep).
  apply bind_Ret_inv in Ep as (outProds & Eo & _).
  unfold DinNet.outProducts in Eo.
  apply bind_Ret_inv in Eo as (u & Em & _).
  unfold make_check in Em. destruct (Z.ltb_spec batchSize 0); [discriminate | lia].
Qed.

Lemma DinNet_Fwd_panics_on_negative_batch_size_witness :
  exists din,
    NewDinNet 1 2 1 1 1 = Ret din
    /\ DinNet.Fwd din (Leaf "xUserProfile" [-1; 1] NoInit)
                  (Leaf "xUserBehaviorMatrix" [-1; 2] NoInit)
                  (Leaf "xItemFeature" [-1; 1] NoInit)
                  (Leaf "xCtxFeature" [-1; 1] NoInit) (-1) 2 1 = Panic.
Proof.
  eexists. split; [reflexivity|].
  apply (DinNet_Fwd_panics_on_negative_batch_size _ _ _ _ _ (-1) 2 1 (-1));
    [reflexivity | lia].
Defined.

Lemma SimpleMLP_Fwd_inv mlp xp ub item ctx B S D mlp' e :
  SimpleMLP.Fwd mlp xp ub item ctx B S D = Ret (mlp', e) ->
  exists x d0n d1n,
    Must (G_Dropout (App (opLeakyRelu 0.1) [App opMul [x; SimpleMLP.mlp0 mlp]])
                    (SimpleMLP.d0 mlp)) = Ret d0n
    /\ Must (G_Dropout (App (opLeakyRelu 0.1) [App opMul [d0n; SimpleMLP.mlp1 mlp]])
                       (SimpleMLP.d1 mlp)) = Ret d1n
    /\ e = None
    /\ mlp' = SimpleMLP.set_out mlp
                (App opSigmoid [App opMul [d1n; SimpleMLP.mlp2 mlp]]).
Proof.
  intros E. unfold SimpleMLP.Fwd in E.
  unfold G_Reshape, G_Concat, G_Mul, G_LeakyRelu, G_Sigmoid in E.
  peel E n1. peel E n2. peel E n3. peel E n4.
  apply bind_Ret_inv in E as (n5 & E5 & E).
  peel E n6. peel E n7.
  apply bind_Ret_inv in E as (n8 & E8 & E).
  peel E n9. peel E n10.
  injection E as <- <-. eauto 10.
Qed.

Lemma DinNet_Fwd_inv din xp ub item ctx B S D din' :
  DinNet.Fwd din xp ub item ctx B S D = Ret (din', None) ->
  exists I pooled d0n d1n,
    DinNet.userInterest din ub item B S D I = Ret pooled
    /\ Must (G_Dropout (App (opLeakyRelu 0.1)
                            [App opMul [App (opConcat 1) [xp; pooled; item; ctx];
                                        DinNet.mlp0 din]])
                       (DinNet.d0 din)) = Ret d0n
    /\ Must (G_Dropout (App (opLeakyRelu 0.1) [App opMul [d0n; DinNet.mlp1 din]])
                       (DinNet.d1 din)) = Ret d1n
    /\ din' = DinNet.set_out din
                (App opSigmoid [App opMul [d1n; DinNet.mlp2 din]]).
Proof.
  intros E. unfold DinNet.Fwd in E.
  apply bind_Ret_inv in E as (sh & _ & E).
  apply bind_Ret_inv in E as (I & _ & E).
  destruct (negb (D =? I)); [discriminate E|].
  apply bind_Ret_inv in E as (pooled & Ep & E).
  unfold G_Concat, G_Mul, G_LeakyRelu, G_Sigmoid in E.
  peel E n2. peel E n3. peel E n4.
  apply bind_Ret_inv in E as (n5 & E5 & E).
  peel E n6. peel E n7.
  apply bind_Ret_inv in E as (n8 & E8 & E).
  peel E n9. peel E n10.
  injection E as <-. eauto 10.
Qed.

Lemma DinNet_Fwd_error_inv din xp ub item ctx B S D din' err :
  DinNet.Fwd din xp ub item ctx B S D = Ret (din', Some err) -> din' = din.
Proof.
  intros E. unfold DinNet.Fwd in E.
  apply bind_Ret_inv in E as (sh & _ & E).
  apply bind_Ret_inv in E as (I & _ & E).
  destruct (negb (D =? I)); [now injection E as <- _|].
  apply bind_Ret_inv in E as (pooled & Ep & E).
  repeat (apply bind_Ret_inv in E as (? & _ & E)). discriminate E.
Qed.

(** X5: a forward pass changes nothing of the model but [out]: whenever [Fwd]
    returns, the weights, the dropout probabilities and so [learnable()] are
    the ones the model had, for both variants; the baseline's [Fwd] never
    returns an error value. *)
Theorem Fwd_only_sets_out :
  (forall mlp xUserProfile ubMatrix xItemFeature xCtxFeature
          batchSize uBehaviorSize uBehaviorDim mlp' e,
      SimpleMLP.Fwd mlp xUserProfile ubMatrix xItemFeature xCtxFeature
                    batchSize uBehaviorSize uBehaviorDim = Ret (mlp', e) ->
      e = None
      /\ (exists o, mlp' = SimpleMLP.set_out mlp o)
      /\ SimpleMLP.learnable mlp' = SimpleMLP.learnable mlp
      /\ SimpleMLP.d0 mlp' = SimpleMLP.d0 mlp
      /\ SimpleMLP.d1 mlp' = SimpleMLP.d1 mlp)
  /\ (forall din xUserProfile ubMatrix xItemFeature xCtxFeature
             batchSize uBehaviorSize uBehaviorDim din' e,
         DinNet.Fwd din xUserProfile ubMatrix xItemFeature xCtxFeature
                    batchSize uBehaviorSize uBehaviorDim = Ret (din', e) ->
         (din' = din \/ exists o, din' = DinNet.set_out din o)
         /\ DinNet.learnable din' = DinNet.learnable din
         /\ DinNet.d0 din' = DinNet.d0 din
         /\ DinNet.d1 din' = DinNet.d1 din).
Proof.
  split.
  - intros mlp xp ub item ctx B S D mlp' e E.
    apply SimpleMLP_Fwd_inv in E as (x & d0n & d1n & _ & _ & -> & ->).
    split; [reflexivity|]. split; [eauto|]. repeat split.
  - intros din xp ub item ctx B S D din' [err|] E.
    + apply DinNet_Fwd_error_inv in E as ->. split; [now left|]. repeat split.
    + apply DinNet_Fwd_inv in E as (I & pooled & d0n & d1n & _ & _ & _ & ->).
      split; [right; eauto|]. repeat split.
Qed.

Lemma Fwd_only_sets_out_witness :
  exists mlp mlp',
    NewSimpleMLP 1 2 1 1 1 = Ret mlp
    /\ SimpleMLP.Fwd mlp (Leaf "xUserProfile" [2; 1] NoInit)
                     (Leaf "xUserBehaviorMatrix" [2; 2] NoInit)
                     (Leaf "xItemFeature" [2; 1] NoInit)
                     (Leaf "xCtxFeature" [2; 1] NoInit) 2 2 1
       = Ret (mlp', None)
    /\ SimpleMLP.learnable mlp' = SimpleMLP.learnable mlp.
Proof.
  exists example_mlp. eexists.
  split; [reflexivity|]. split; [vm_compute; reflexivity|].
  edestruct (proj1 Fwd_only_sets_out example_mlp
                   (Leaf "xUserProfile" [2; 1] NoInit)
                   (Leaf "xUserBehaviorMatrix" [2; 2] NoInit)
                   (Leaf "xItemFeature" [2; 1] NoInit)
                   (Leaf "xCtxFeature" [2; 1] NoInit) 2 2 1)
    as (_ & _ & L & _); [vm_compute; reflexivity|].
  exact L.
Defined.

Lemma Must_G_Dropout_nonzero x p n :
  (p =? 0)%float = false -> Must (G_Dropout x p) = Ret n -> n = App (opDropout p) [x].
Proof. unfold G_Dropout. intros ->. apply Must_G_apply_inv. Qed.

Lemma Must_G_Dropout_cases x p n :
  Must (G_Dropout x p) = Ret n -> n = x \/ n = App (opDropout p) [x].
Proof.
  unfold G_Dropout. destruct (p =? 0)%float.
  - cbn [Must]. intros [= <-]. now left.
  - intros E. right. now apply Must_G_apply_inv.
Qed.

(** X6: dropout is part of every graph [Fwd] builds for a model one of whose
    probabilities is not zero (as [==] on float64 has it): whenever [Fwd]
    returns, the output draws random samples each time it is run.  There is
    no argument of [Fwd] that switches this off. *)
Theorem Fwd_output_is_stochastic_when_a_probability_is_nonzero :
  (forall mlp xUserProfile ubMatrix xItemFeature xCtxFeature
          batchSize uBehaviorSize uBehaviorDim mlp' e o,
      ((SimpleMLP.d0 mlp =? 0)%float = false
       \/ (SimpleMLP.d1 mlp =? 0)%float = false) ->
      SimpleMLP.Fwd mlp xUserProfile ubMatrix xItemFeature xCtxFeature
                    batchSize uBehaviorSize uBehaviorDim = Ret (mlp', e) ->
      SimpleMLP.Out mlp' = Some o ->
      stochastic o = true)
  /\ (forall din xUserProfile ubMatrix xItemFeature xCtxFeature
             batchSize uBehaviorSize uBehaviorDim din' o,
         ((DinNet.d0 din =? 0)%float = false
          \/ (DinNet.d1 din =? 0)%float = false) ->
         DinNet.Fwd din xUserProfile ubMatrix xItemFeature xCtxFeature
                    batchSize uBehaviorSize uBehaviorDim = Ret (din', None) ->
         DinNet.Out din' = Some o ->
         stochastic o = true).
Proof.
  split.
  - intros mlp xp ub item ctx B S D mlp' e o Hp E Ho.
    apply SimpleMLP_Fwd_inv in E as (x & d0n & d1n & E0 & E1 & -> & ->).
    cbn in Ho. injection Ho as <-.
    destruct Hp as [Hp|Hp].
    + apply (Must_G_Dropout_nonzero _ _ _ Hp) in E0. subst d0n.
      apply Must_G_Dropout_cases in E1 as [->| ->]; reflexivity.
    + apply (Must_G_Dropout_nonzero _ _ _ Hp) in E1. subst d1n. reflexivity.
  - intros din xp ub item ctx B S D din' o Hp E Ho.
    apply DinNet_Fwd_inv in E as (I & pooled & d0n & d1n & _ & E0 & E1 & ->).
    cbn in Ho. injection Ho as <-.
    destruct Hp as [Hp|Hp].
    + apply (Must_G_Dropout_nonzero _ _ _ Hp) in E0. subst d0n.
      apply Must_G_Dropout_cases in E1 as [->| ->]; reflexivity.
    + apply (Must_G_Dropout_nonzero _ _ _ Hp) in E1. subst d1n. reflexivity.
Qed.

Lemma Fwd_output_is_stochastic_when_a_probability_is_nonzero_witness :
  exists din din' o,
    NewDinNet 1 2 1 1 1 = Ret din
    /\ DinNet.Fwd din (Leaf "xUserProfile" [2; 1] NoInit)
                  (Leaf "xUserBehaviorMatrix" [2; 2] NoInit)
                  (Leaf "xItemFeature" [2; 1] NoInit)
                  (Leaf "xCtxFeature" [2; 1] NoInit) 2 2 1
       = Ret (din', None)
    /\ DinNet.Out din' = Some o
    /\ stochastic o = true.
Proof.
  exists example_din. do 2 eexists.
  split; [reflexivity|]. split; [vm_compute; reflexivity|].
  split; [reflexivity|].
  eapply (proj2 Fwd_output_is_stochastic_when_a_probability_is_nonzero example_din
                (Leaf "xUserProfile" [2; 1] NoInit)
                (Leaf "xUserBehaviorMatrix" [2; 2] NoInit)
                (Leaf "xItemFeature" [2; 1] NoInit)
                (Leaf "xCtxFeature" [2; 1] NoInit) 2 2 1);
    [left; vm_compute; reflexivity | vm_compute; reflexivity | reflexivity].
Defined.

(** ** The parameters in the graph *)

Lemma occurs_refl n : occurs n n.
Proof. destruct n; now left. Qed.

Lemma occurs_arg x op args a : In a args -> occurs x a -> occurs x (App op args).
Proof.
  intros Hin Ha. right. induction args as [|b args IH]; [destruct Hin|].
  destruct Hin as [->|Hin]; [now left | right; now apply IH].
Qed.

Lemma actOut_uses din xub outProds item i n :
  DinNet.actOut din xub outProds item i = Ret n ->
  exists a0 a1,
    index (DinNet.att0 din) i = Ret a0 /\ index (DinNet.att1 din) i = Ret a1
    /\ occurs a0 n /\ occurs a1 n.
Proof.
  intros E.
  unfold DinNet.actOut, G_Slice, G_Concat, G_Mul, G_Rectify,
    G_BroadcastHadamardProd in E.
  peel E n1. peel E n2.
  apply bind_Ret_inv in E as (a0 & E0 & E).
  peel E n3.
  apply bind_Ret_inv in E as (a1 & E1 & E).
  peel E n4. peel E n5. apply Must_G_apply_inv in E. subst n.
  exists a0, a1. split; [exact E0|]. split; [exact E1|].
  split.
  - eapply occurs_arg; [right; now left|].
    eapply occurs_arg; [now left|].
    eapply occurs_arg; [now left|].
    eapply occurs_arg; [right; now left|]. apply occurs_refl.
  - eapply occurs_arg; [right; now left|].
    eapply occurs_arg; [now left|].
    eapply occurs_arg; [right; now left|]. apply occurs_refl.
Qed.

Lemma actOuts_uses din xub outProds item (l : list Z) :
  forall acc acc',
    foldM (fun acc i =>
             a <- DinNet.actOut din xub outProds item i ;; Must (G_Add acc a))
          l acc = Ret acc' ->
    (forall x, occurs x acc -> occurs x acc')
    /\ (forall i, In i l ->
          exists a0 a1,
            index (DinNet.att0 din) i = Ret a0 /\ index (DinNet.att1 din) i = Ret a1
            /\ occurs a0 acc' /\ occurs a1 acc').
Proof.
  induction l as [|j l IH]; intros acc acc' E.
  - cbn in E. injection E as <-. split; [auto | intros i []].
  - cbn [foldM] in E. apply bind_Ret_inv in E as (acc1 & E1 & E).
    apply bind_Ret_inv in E1 as (a & Ea & E1).
    unfold G_Add in E1. apply Must_G_apply_inv in E1. subst acc1.
    destruct (IH _ _ E) as (Hmono & Hl). split.
    + intros x Hx. apply Hmono. eapply occurs_arg; [now left | exact Hx].
    + intros i [<-|Hi]; [|now apply Hl].
      destruct (actOut_uses _ _ _ _ _ _ Ea) as (a0 & a1 & E0 & E1' & O0 & O1).
      exists a0, a1. split; [exact E0|]. split; [exact E1'|].
      split; apply Hmono; (eapply occurs_arg; [right; now left | assumption]).
Qed.

Lemma index_of_In {A} (s : list A) a :
  In a s -> exists i, 0 <= i < Z.of_nat (List.length s) /\ index s i = Ret a.
Proof.
  intros Hin. apply In_nth_error in Hin as (k & Hk).
  assert (k < List.length s)%nat by (apply nth_error_Some; congruence).
  exists (Z.of_nat k). split; [lia|].
  unfold index. destruct (Z.ltb_spec (Z.of_nat k) 0); [lia|].
  now rewrite Nat2Z.id, Hk.
Qed.

Lemma dropout_uses x p n y : Must (G_Dropout x p) = Ret n -> occurs y x -> occurs y n.
Proof.
  intros E Hy. apply Must_G_Dropout_cases in E as [->| ->]; [exact Hy|].
  eapply occurs_arg; [now left | exact Hy].
Qed.

(** X7: every node of [learnable()] is part of the graph [Fwd] builds: the three
    dense weights always, and the attention weights of a DIN model when
    [Fwd] is called for as many slots as the model has weights.  So the
    gradient [Train] asks for is with respect to nodes of the cost. *)
Theorem Fwd_output_uses_every_learnable_node :
  (forall mlp xUserProfile ubMatrix xItemFeature xCtxFeature
          batchSize uBehaviorSize uBehaviorDim mlp' e o,
      SimpleMLP.Fwd mlp xUserProfile ubMatrix xItemFeature xCtxFeature
                    batchSize uBehaviorSize uBehaviorDim = Ret (mlp', e) ->
      SimpleMLP.Out mlp' = Some o ->
      forall p, In p (SimpleMLP.learnable mlp') -> occurs p o)
  /\ (forall din xUserProfile ubMatrix xItemFeature xCtxFeature
             batchSize uBehaviorSize uBehaviorDim din' o ps,
         DinNet.Fwd din xUserProfile ubMatrix xItemFeature xCtxFeature
                    batchSize uBehaviorSize uBehaviorDim = Ret (din', None) ->
         DinNet.Out din' = Some o ->
         Z.of_nat (List.length (DinNet.att0 din)) <= uBehaviorSize ->
         Z.of_nat (List.length (DinNet.att1 din)) <= uBehaviorSize ->
         DinNet.learnable din' = Ret ps ->
         forall p, In p ps -> occurs p o).
Proof.
  split.
  - intros mlp xp ub item ctx B S D mlp' e o E Ho p Hp.
    apply SimpleMLP_Fwd_inv in E as (x & d0n & d1n & E0 & E1 & -> & ->).
    cbn in Ho. injection Ho as <-.
    assert (O0 : occurs (SimpleMLP.mlp0 mlp) d0n).
    { apply (dropout_uses _ _ _ _ E0).
      eapply occurs_arg; [now left|].
      eapply occurs_arg; [right; now left | apply occurs_refl]. }
    assert (O1 : forall y, occurs y (App opMul [d0n; SimpleMLP.mlp1 mlp]) ->
                           occurs y d1n).
    { intros y Hy. apply (dropout_uses _ _ _ _ E1).
      eapply occurs_arg; [now left | exact Hy]. }
    assert (O2 : forall y, occurs y d1n ->
                           occurs y (App opSigmoid [App opMul [d1n; SimpleMLP.mlp2 mlp]])).
    { intros y Hy. eapply occurs_arg; [now left|].
      eapply occurs_arg; [now left | exact Hy]. }
    unfold SimpleMLP.learnable in Hp. cbn [SimpleMLP.set_out SimpleMLP.mlp0
      SimpleMLP.mlp1 SimpleMLP.mlp2 In] in Hp.
    destruct Hp as [<-|[<-|[<-|[]]]].
    + apply O2, O1. eapply occurs_arg; [now left | exact O0].
    + apply O2, O1. eapply occurs_arg; [right; now left | apply occurs_refl].
    + eapply occurs_arg; [now left|].
      eapply occurs_arg; [right; now left | apply occurs_refl].
  - intros din xp ub item ctx B S D din' o ps E Ho Hl0 Hl1 Hps p Hp.
    apply DinNet_Fwd_inv in E as (I & pooled & d0n & d1n & Ep & E0 & E1 & ->).
    cbn in Ho. injection Ho as <-.
    assert (O0 : forall y, occurs y (App (opConcat 1) [xp; pooled; item; ctx])
                           \/ y = DinNet.mlp0 din -> occurs y d0n).
    { intros y Hy. apply (dropout_uses _ _ _ _ E0).
      eapply occurs_arg; [now left|]. destruct Hy as [Hy| ->].
      - eapply occurs_arg; [now left | exact Hy].
      - eapply occurs_arg; [right; now left | apply occurs_refl]. }
    assert (O1 : forall y, occurs y (App opMul [d0n; DinNet.mlp1 din]) ->
                           occurs y d1n).
    { intros y Hy. apply (dropout_uses _ _ _ _ E1).
      eapply occurs_arg; [now left | exact Hy]. }
    assert (O2 : forall y, occurs y d1n ->
                           occurs y (App opSigmoid [App opMul [d1n; DinNet.mlp2 din]])).
    { intros y Hy. eapply occurs_arg; [now left|].
      eapply occurs_arg; [now left | exact Hy]. }
    assert (Op : forall y, occurs y pooled ->
                           occurs y (App opSigmoid [App opMul [d1n; DinNet.mlp2 din]])).
    { intros y Hy. apply O2, O1. eapply occurs_arg; [now left|]. apply O0. left.
      eapply occurs_arg; [right; now left | exact Hy]. }
    unfold DinNet.userInterest in Ep.
    apply bind_Ret_inv in Ep as (xub & _ & Ep).
    apply bind_Ret_inv in Ep as (outProds & _ & Ep).
    unfold DinNet.actOuts in Ep.
    destruct (actOuts_uses _ _ _ _ _ _ _ Ep) as (_ & Hslots).
    unfold DinNet.learnable in Hps.
    cbn [DinNet.set_out DinNet.uBehaviorSize DinNet.mlp0 DinNet.mlp1 DinNet.mlp2
         DinNet.att0 DinNet.att1] in Hps.
    destruct (3 + 2 * DinNet.uBehaviorSize din <? 3); [discriminate|].
    injection Hps as <-.
    cbn [In] in Hp. rewrite in_app_iff in Hp.
    destruct Hp as [<-|[<-|[<-|[Hp|Hp]]]].
    + apply O2, O1. eapply occurs_arg; [now left|]. apply O0. now right.
    + apply O2, O1. eapply occurs_arg; [right; now left | apply occurs_refl].
    + eapply occurs_arg; [now left|].
      eapply occurs_arg; [right; now left | apply occurs_refl].
    + apply index_of_In in Hp as (i & Hi & Ei).
      destruct (Hslots i) as (a0 & a1 & E0' & _ & Oa & _); [apply range_In; lia|].
      rewrite Ei in E0'. injection E0' as <-. now apply Op.
    + apply index_of_In in Hp as (i & Hi & Ei).
      destruct (Hslots i) as (a0 & a1 & _ & E1' & _ & Oa); [apply range_In; lia|].
      rewrite Ei in E1'. injection E1' as <-. now apply Op.
Qed.

Lemma Fwd_output_uses_every_learnable_node_witness :
  exists din' o ps,
    DinNet.Fwd example_din (Leaf "xUserProfile" [2; 1] NoInit)
               (Leaf "xUserBehaviorMatrix" [2; 2] NoInit)
               (Leaf "xItemFeature" [2; 1] NoInit)
               (Leaf "xCtxFeature" [2; 1] NoInit) 2 2 1
    = Ret (din', None)
    /\ DinNet.Out din' = Some o
    /\ DinNet.learnable din' = Ret ps
    /\ List.length ps = 7%nat
    /\ forall p, In p ps -> occurs p o.
Proof.
  do 3 eexists. split; [vm_compute; reflexivity|]. split; [reflexivity|].
  split; [reflexivity|]. split; [reflexivity|].
  eapply (proj2 Fwd_output_uses_every_learnable_node example_din
                (Leaf "xUserProfile" [2; 1] NoInit)
                (Leaf "xUserBehaviorMatrix" [2; 2] NoInit)
                (Leaf "xItemFeature" [2; 1] NoInit)
                (Leaf "xCtxFeature" [2; 1] NoInit) 2 2 1);
    [ vm_compute; reflexivity | reflexivity | vm_compute; discriminate
    | vm_compute; discriminate | reflexivity ].
Defined.

(** ** The constructors against the forward passes *)

Lemma binds_has sigmoid dropout env rnd name sh init :
  binds env (Leaf name sh init) ->
  exists v, has_value sigmoid dropout env rnd (Leaf name sh init) sh v.
Proof.
  intros (Hi & v & Hv & Hl). exists v. now apply has_leaf.
Qed.

Lemma zero_store_binds (ls : list Node) :
  NoDup (map leaf_name ls) ->
  forall name sh init,
    init <> Zeroes -> In (Leaf name sh init) ls ->
    binds (zero_store ls) (Leaf name sh init).
Proof.
  induction ls as [|l ls IH]; intros Hnd name sh init Hi Hin; [destruct Hin|].
  cbn [map] in Hnd. inversion Hnd as [|? ? Hnotin Hnd']; subst.
  split; [exact Hi|].
  unfold zero_store. cbn [map env_of].
  destruct Hin as [->|Hin].
  - cbn [leaf_name]. rewrite String.eqb_refl. eexists. split; [reflexivity|].
    apply repeat_length.
  - destruct (String.eqb_spec (leaf_name l) name) as [E|_].
    + exfalso. apply Hnotin. rewrite E.
      change name with (leaf_name (Leaf name sh init)). now apply in_map.
    + destruct (IH Hnd' name sh init Hi Hin) as (_ & H). exact H.
Qed.

Lemma index_map_range {A} (f : Z -> A) n i :
  0 <= i < n -> index (map f (range n)) i = Ret (f i).
Proof.
  intros Hi. unfold index. destruct (Z.ltb_spec i 0); [lia|].
  now rewrite nth_error_map, range_nth_error.
Qed.

Lemma att_names_NoDup S D I :
  NoDup (map leaf_name (map (att0_leaf S D I) (range S) ++ map att1_leaf (range S))).
Proof.
  rewrite map_app, !map_map. apply NoDup_app.
  - apply NoDup_map_inj; [|apply range_NoDup].
    intros a b [= E]. now apply itoa_inj.
  - apply NoDup_map_inj; [|apply range_NoDup].
    intros a b [= E]. now apply itoa_inj.
  - intros a Ha Hb. apply in_map_iff in Ha as (i & <- & _).
    apply in_map_iff in Hb as (j & E & _). discriminate E.
Qed.

Lemma placeholder_names_fresh S D I name :
  In name ["xUserProfile"; "xUserBehaviorMatrix"; "xItemFeature"; "xCtxFeature";
           "mlp0"; "mlp1"; "mlp2"]%string ->
  ~ In name (map leaf_name (map (att0_leaf S D I) (range S) ++ map att1_leaf (range S))).
Proof.
  intros Hn Hin. rewrite map_app, !map_map, in_app_iff, !in_map_iff in Hin.
  cbn [In] in Hn.
  repeat match goal with
         | H : _ \/ _ |- _ => destruct H
         | H : exists _, _ /\ _ |- _ => destruct H as (? & H & _)
         | H : False |- _ => destruct H
         end; subst; discriminate.
Qed.

Lemma DinNet_leaves_NoDup B S D P C :
  NoDup (map leaf_name
             ([Leaf "xUserProfile" [B; P] NoInit;
               Leaf "xUserBehaviorMatrix" [B; S * D] NoInit;
               Leaf "xItemFeature" [B; D] NoInit;
               Leaf "xCtxFeature" [B; C] NoInit;
               Leaf "mlp0" [P + D + D + C; 200] (Gaussian 0 1);
               Leaf "mlp1" [200; 80] (Gaussian 0 1);
               Leaf "mlp2" [80; 1] (Gaussian 0 1)]
                ++ map (att0_leaf S D D) (range S) ++ map att1_leaf (range S))).
Proof.
  rewrite map_app. cbn [map leaf_name List.app].
  repeat (apply NoDup_cons;
          [ intros Hin; cbn [In] in Hin;
            repeat match goal with
                   | H : _ \/ _ |- _ => destruct H
                   | H : _ = _ |- _ => discriminate H
                   end;
            match goal with
            | H : In _ _ |- _ =>
                revert H; apply placeholder_names_fresh; cbn [In]; tauto
            end
          | ]).
  apply att_names_NoDup.
Qed.

Lemma NewSimpleMLP_Fwd_has sigmoid dropout env rnd (P S D I C B : Z) :
  0 <= B -> 0 <= S -> 0 <= D -> 0 <= P -> 0 <= I -> 0 <= C ->
  let mlp := SimpleMLP.mk (Leaf "mlp0" [P + S * D + I + C; 200] (Gaussian 0 1))
                          (Leaf "mlp1" [200; 80] (Gaussian 0 1))
                          (Leaf "mlp2" [80; 1] (Gaussian 0 1)) 0.01 0.01 None in
  let xs := [Leaf "xUserProfile" [B; P] NoInit;
             Leaf "xUserBehaviorMatrix" [B; S * D] NoInit;
             Leaf "xItemFeature" [B; I] NoInit;
             Leaf "xCtxFeature" [B; C] NoInit] in
  Forall (binds env) (xs ++ SimpleMLP.learnable mlp) ->
  exists o z,
    SimpleMLP.Fwd mlp (Leaf "xUserProfile" [B; P] NoInit)
                  (Leaf "xUserBehaviorMatrix" [B; S * D] NoInit)
                  (Leaf "xItemFeature" [B; I] NoInit)
                  (Leaf "xCtxFeature" [B; C] NoInit) B S D
    = Ret (SimpleMLP.set_out mlp o, None)
    /\ has_value sigmoid dropout env rnd o [B; 1] (map sigmoid z).
Proof.
  intros HB HS HD HP HI HC mlp xs Hb.
  unfold xs, mlp, SimpleMLP.learnable in Hb. cbn [List.app SimpleMLP.mlp0
    SimpleMLP.mlp1 SimpleMLP.mlp2] in Hb.
  repeat match goal with
         | H : Forall _ (_ :: _) |- _ => inversion H; clear H; subst
         end.
  repeat match goal with
         | H : binds _ _ |- _ =>
             apply (binds_has sigmoid dropout _ rnd) in H; destruct H as (? & H)
         end.
  eapply (SimpleMLP_Fwd_ok sigmoid dropout env rnd mlp _ _ _ _ B S D P I C);
    eassumption.
Qed.

(** For every choice of dimensions some store binds all the leaves, so
    that [Fwd] on the constructed baseline returns. *)
Lemma NewSimpleMLP_Fwd_returns (P S D I C B : Z) :
  0 <= B -> 0 <= S -> 0 <= D -> 0 <= P -> 0 <= I -> 0 <= C ->
  exists o,
    SimpleMLP.Fwd (SimpleMLP.mk (Leaf "mlp0" [P + S * D + I + C; 200] (Gaussian 0 1))
                                (Leaf "mlp1" [200; 80] (Gaussian 0 1))
                                (Leaf "mlp2" [80; 1] (Gaussian 0 1)) 0.01 0.01 None)
                  (Leaf "xUserProfile" [B; P] NoInit)
                  (Leaf "xUserBehaviorMatrix" [B; S * D] NoInit)
                  (Leaf "xItemFeature" [B; I] NoInit)
                  (Leaf "xCtxFeature" [B; C] NoInit) B S D
    = Ret (SimpleMLP.set_out
             (SimpleMLP.mk (Leaf "mlp0" [P + S * D + I + C; 200] (Gaussian 0 1))
                           (Leaf "mlp1" [200; 80] (Gaussian 0 1))
                           (Leaf "mlp2" [80; 1] (Gaussian 0 1)) 0.01 0.01 None) o,
           None)
    /\ shapeOf o = Some [B; 1].
Proof.
  intros HB HS HD HP HI HC.
  set (mlp := SimpleMLP.mk (Leaf "mlp0" [P + S * D + I + C; 200] (Gaussian 0 1))
                           (Leaf "mlp1" [200; 80] (Gaussian 0 1))
                           (Leaf "mlp2" [80; 1] (Gaussian 0 1)) 0.01 0.01 None).
  set (ls := [Leaf "xUserProfile" [B; P] NoInit;
              Leaf "xUserBehaviorMatrix" [B; S * D] NoInit;
              Leaf "xItemFeature" [B; I] NoInit;
              Leaf "xCtxFeature" [B; C] NoInit] ++ SimpleMLP.learnable mlp).
  assert (Hnd : NoDup (map leaf_name ls)).
  { cbn. repeat (apply NoDup_cons;
                 [ cbn [In]; intros Hin;
                   repeat match goal with
                          | H : _ \/ _ |- _ => destruct H
                          | H : False |- _ => destruct H
                          | H : _ = _ |- _ => discriminate H
                          end
                 | ]).
    constructor. }
  assert (Hz : Forall (binds (zero_store ls)) ls).
  { apply Forall_forall. intros l Hl.
    assert (Hl' := Hl). cbn in Hl'.
    repeat (destruct Hl' as [<-|Hl']; [apply zero_store_binds;
                                         [exact Hnd | discriminate | exact Hl]|]).
    destruct Hl'. }
  destruct (NewSimpleMLP_Fwd_has (fun x => x) (fun _ _ x => x) (zero_store ls)
                                 (fun _ _ => 0%float) P S D I C B
                                 HB HS HD HP HI HC Hz) as (o & z & E & Ho & _).
  exists o. split; [exact E | exact Ho].
Qed.

(** X8: the weights [NewSimpleMLP] creates fit the placeholders [Train] creates
    for the same dimensions, whatever these are: [Fwd] returns without error
    and its output has shape [batchSize, 1]; and on every store that binds
    the four placeholders and the three weights to arrays of their sizes the
    output evaluates to [batchSize] numbers, each one a value of the
    backend's logistic kernel. *)
Theorem NewSimpleMLP_fits_the_placeholders_of_Train (P S D I C B : Z) :
  0 <= B -> 0 <= S -> 0 <= D -> 0 <= P -> 0 <= I -> 0 <= C ->
  exists mlp o,
    NewSimpleMLP P S D I C = Ret mlp
    /\ SimpleMLP.Fwd mlp (Leaf "xUserProfile" [B; P] NoInit)
                     (Leaf "xUserBehaviorMatrix" [B; S * D] NoInit)
                     (Leaf "xItemFeature" [B; I] NoInit)
                     (Leaf "xCtxFeature" [B; C] NoInit) B S D
       = Ret (SimpleMLP.set_out mlp o, None)
    /\ shapeOf o = Some [B; 1]
    /\ forall sigmoid dropout env rnd,
        Forall (binds env)
               ([Leaf "xUserProfile" [B; P] NoInit;
                 Leaf "xUserBehaviorMatrix" [B; S * D] NoInit;
                 Leaf "xItemFeature" [B; I] NoInit;
                 Leaf "xCtxFeature" [B; C] NoInit] ++ SimpleMLP.learnable mlp) ->
        exists z, eval sigmoid dropout env rnd o = Some (map sigmoid z)
                  /\ List.length z = Z.to_nat B.
Proof.
  intros HB HS HD HP HI HC.
  set (mlp := SimpleMLP.mk (Leaf "mlp0" [P + S * D + I + C; 200] (Gaussian 0 1))
                           (Leaf "mlp1" [200; 80] (Gaussian 0 1))
                           (Leaf "mlp2" [80; 1] (Gaussian 0 1)) 0.01 0.01 None).
  destruct (NewSimpleMLP_Fwd_returns P S D I C B HB HS HD HP HI HC) as (o & E & Ho).
  exists mlp, o. split; [reflexivity|]. split; [exact E|]. split; [exact Ho|].
  intros sigmoid dropout env rnd Hb.
  destruct (NewSimpleMLP_Fwd_has sigmoid dropout env rnd P S D I C B
                                 HB HS HD HP HI HC Hb) as (o' & z' & E' & _ & Ev & L).
  assert (Eo : Ret (SimpleMLP.set_out mlp o, @None error)
               = Ret (SimpleMLP.set_out mlp o', None))
    by exact (eq_trans (eq_sym E) E').
  injection Eo as <-.
  exists z'. split; [exact Ev|].
  rewrite length_map, size_2 in L by lia. lia.
Qed.

Lemma NewSimpleMLP_fits_the_placeholders_of_Train_witness :
  exists mlp o,
    NewSimpleMLP 1 2 1 3 1 = Ret mlp
    /\ SimpleMLP.Fwd mlp (Leaf "xUserProfile" [4; 1] NoInit)
                     (Leaf "xUserBehaviorMatrix" [4; 2 * 1] NoInit)
                     (Leaf "xItemFeature" [4; 3] NoInit)
                     (Leaf "xCtxFeature" [4; 1] NoInit) 4 2 1
       = Ret (SimpleMLP.set_out mlp o, None)
    /\ shapeOf o = Some [4; 1].
Proof.
  destruct (NewSimpleMLP_fits_the_placeholders_of_Train 1 2 1 3 1 4)
    as (mlp & o & E & F & Sh & _); try lia.
  exists mlp, o. auto.
Defined.

Lemma NewDinNet_Fwd_has sigmoid dropout env rnd (P S D C B : Z) :
  0 < B -> 0 <= S -> 0 <= D -> 0 <= P -> 0 <= C ->
  let din := DinNet.mk P S D D C
                       (Leaf "mlp0" [P + D + D + C; 200] (Gaussian 0 1))
                       (Leaf "mlp1" [200; 80] (Gaussian 0 1))
                       (Leaf "mlp2" [80; 1] (Gaussian 0 1)) 0.001 0.001
                       (map (att0_leaf S D D) (range S))
                       (map att1_leaf (range S)) None in
  Forall (binds env)
         ([Leaf "xUserProfile" [B; P] NoInit;
           Leaf "xUserBehaviorMatrix" [B; S * D] NoInit;
           Leaf "xItemFeature" [B; D] NoInit;
           Leaf "xCtxFeature" [B; C] NoInit]
            ++ [DinNet.mlp0 din; DinNet.mlp1 din; DinNet.mlp2 din]
            ++ DinNet.att0 din ++ DinNet.att1 din) ->
  exists o z,
    DinNet.Fwd din (Leaf "xUserProfile" [B; P] NoInit)
               (Leaf "xUserBehaviorMatrix" [B; S * D] NoInit)
               (Leaf "xItemFeature" [B; D] NoInit)
               (Leaf "xCtxFeature" [B; C] NoInit) B S D
    = Ret (DinNet.set_out din o, None)
    /\ has_value sigmoid dropout env rnd o [B; 1] (map sigmoid z).
Proof.
  intros HB HS HD HP HC din Hb.
  cbn [List.app DinNet.mlp0 DinNet.mlp1 DinNet.mlp2 DinNet.att0 DinNet.att1 din] in Hb.
  repeat match goal with
         | H : Forall _ (_ :: _) |- _ => inversion H; clear H; subst
         end.
  match goal with
  | H : Forall _ (_ ++ _) |- _ => apply Forall_app in H as [Ha0 Ha1]
  end.
  rewrite Forall_forall in Ha0, Ha1.
  repeat match goal with
         | H : binds _ _ |- _ =>
             apply (binds_has sigmoid dropout _ rnd) in H; destruct H as (? & H)
         end.
  pose (A0 := fun n : nat =>
                match env ("att0-" ++ itoa (Z.of_nat n))%string with
                | Some v => v | None => [] end).
  pose (A1 := fun n : nat =>
                match env ("att1-" ++ itoa (Z.of_nat n))%string with
                | Some v => v | None => [] end).
  eapply (DinNet_Fwd_ok sigmoid dropout env rnd din _ _ _ _ B S D P C 36 _ _ _ _ _ _ _
                        (att0_leaf S D D) att1_leaf A0 A1);
    try eassumption; try lia.
  - intros i Hi. split; [apply index_map_range; exact Hi|].
    destruct (Ha0 (att0_leaf S D D i)) as (Hni & v & Hv & Hl).
    { apply in_map. now apply range_In. }
    unfold att0_leaf. apply has_leaf; [exact Hni | |].
    + unfold A0. rewrite Z2Nat.id by lia. now rewrite Hv.
    + unfold A0. rewrite Z2Nat.id by lia. now rewrite Hv.
  - intros i Hi. split; [apply index_map_range; exact Hi|].
    destruct (Ha1 (att1_leaf i)) as (Hni & v & Hv & Hl).
    { apply in_map. now apply range_In. }
    unfold att1_leaf. apply has_leaf; [exact Hni | |].
    + unfold A1. rewrite Z2Nat.id by lia. now rewrite Hv.
    + unfold A1. rewrite Z2Nat.id by lia. now rewrite Hv.
Qed.

Lemma NewDinNet_Fwd_returns (P S D C B : Z) :
  0 < B -> 0 <= S -> 0 <= D -> 0 <= P -> 0 <= C ->
  exists o,
    DinNet.Fwd (DinNet.mk P S D D C
                          (Leaf "mlp0" [P + D + D + C; 200] (Gaussian 0 1))
                          (Leaf "mlp1" [200; 80] (Gaussian 0 1))
                          (Leaf "mlp2" [80; 1] (Gaussian 0 1)) 0.001 0.001
                          (map (att0_leaf S D D) (range S))
                          (map att1_leaf (range S)) None)
               (Leaf "xUserProfile" [B; P] NoInit)
               (Leaf "xUserBehaviorMatrix" [B; S * D] NoInit)
               (Leaf "xItemFeature" [B; D] NoInit)
               (Leaf "xCtxFeature" [B; C] NoInit) B S D
    = Ret (DinNet.set_out
             (DinNet.mk P S D D C
                        (Leaf "mlp0" [P + D + D + C; 200] (Gaussian 0 1))
                        (Leaf "mlp1" [200; 80] (Gaussian 0 1))
                        (Leaf "mlp2" [80; 1] (Gaussian 0 1)) 0.001 0.001
                        (map (att0_leaf S D D) (range S))
                        (map att1_leaf (range S)) None) o, None)
    /\ shapeOf o = Some [B; 1].
Proof.
  intros HB HS HD HP HC.
  set (din := DinNet.mk P S D D C
                        (Leaf "mlp0" [P + D + D + C; 200] (Gaussian 0 1))
                        (Leaf "mlp1" [200; 80] (Gaussian 0 1))
                        (Leaf "mlp2" [80; 1] (Gaussian 0 1)) 0.001 0.001
                        (map (att0_leaf S D D) (range S))
                        (map att1_leaf (range S)) None).
  set (ls := [Leaf "xUserProfile" [B; P] NoInit;
              Leaf "xUserBehaviorMatrix" [B; S * D] NoInit;
              Leaf "xItemFeature" [B; D] NoInit;
              Leaf "xCtxFeature" [B; C] NoInit]
               ++ [DinNet.mlp0 din; DinNet.mlp1 din; DinNet.mlp2 din]
               ++ DinNet.att0 din ++ DinNet.att1 din).
  assert (Hnd : NoDup (map leaf_name ls)) by apply DinNet_leaves_NoDup.
  assert (Hz : Forall (binds (zero_store ls)) ls).
  { apply Forall_forall. intros l Hl.
    assert (Hl' := Hl). unfold ls in Hl'.
    cbn [List.app DinNet.mlp0 DinNet.mlp1 DinNet.mlp2 DinNet.att0 DinNet.att1 din In]
      in Hl'.
    repeat (destruct Hl' as [<-|Hl']; [apply zero_store_binds;
                                         [exact Hnd | discriminate | exact Hl]|]).
    apply in_app_iff in Hl' as [Hl'|Hl'];
      apply in_map_iff in Hl' as (i & <- & _);
      (apply zero_store_binds; [exact Hnd | discriminate | exact Hl]). }
  destruct (NewDinNet_Fwd_has (fun x => x) (fun _ _ x => x) (zero_store ls)
                              (fun _ _ => 0%float) P S D C B
                              HB HS HD HP HC Hz) as (o & z & E & Ho & _).
  exists o. split; [exact E | exact Ho].
Qed.

(** X9: the weights [NewDinNet] creates fit the placeholders [Train] creates for
    the same dimensions, for every batch size above zero: [Fwd] returns
    without error and its output has shape [batchSize, 1]; and on every
    store that binds the placeholders and the [3 + 2*S] weights to arrays of
    their sizes the output evaluates to [batchSize] numbers, each one a
    value of the backend's logistic kernel. *)
Theorem NewDinNet_fits_the_placeholders_of_Train (P S D C B : Z) :
  0 < B -> 0 <= S -> 0 <= D -> 0 <= P -> 0 <= C ->
  exists din o,
    NewDinNet P S D D C = Ret din
    /\ DinNet.Fwd din (Leaf "xUserProfile" [B; P] NoInit)
                  (Leaf "xUserBehaviorMatrix" [B; S * D] NoInit)
                  (Leaf "xItemFeature" [B; D] NoInit)
                  (Leaf "xCtxFeature" [B; C] NoInit) B S D
       = Ret (DinNet.set_out din o, None)
    /\ shapeOf o = Some [B; 1]
    /\ forall sigmoid dropout env rnd,
        Forall (binds env)
               ([Leaf "xUserProfile" [B; P] NoInit;
                 Leaf "xUserBehaviorMatrix" [B; S * D] NoInit;
                 Leaf "xItemFeature" [B; D] NoInit;
                 Leaf "xCtxFeature" [B; C] NoInit]
                  ++ [DinNet.mlp0 din; DinNet.mlp1 din; DinNet.mlp2 din]
                  ++ DinNet.att0 din ++ DinNet.att1 din) ->
        exists z, eval sigmoid dropout env rnd o = Some (map sigmoid z)
                  /\ List.length z = Z.to_nat B.
Proof.
  intros HB HS HD HP HC.
  set (din := DinNet.mk P S D D C
                        (Leaf "mlp0" [P + D + D + C; 200] (Gaussian 0 1))
                        (Leaf "mlp1" [200; 80] (Gaussian 0 1))
                        (Leaf "mlp2" [80; 1] (Gaussian 0 1)) 0.001 0.001
                        (map (att0_leaf S D D) (range S))
                        (map att1_leaf (range S)) None).
  destruct (NewDinNet_Fwd_returns P S D C B HB HS HD HP HC) as (o & E & Ho).
  exists din, o. split.
  { unfold NewDinNet. rewrite Z.eqb_refl. cbn [negb].
    unfold make_check. destruct (Z.ltb_spec S 0); [lia | reflexivity]. }
  split; [exact E|]. split; [exact Ho|].
  intros sigmoid dropout env rnd Hb.
  destruct (NewDinNet_Fwd_has sigmoid dropout env rnd P S D C B
                              HB HS HD HP HC Hb) as (o' & z' & E' & _ & Ev & L).
  assert (Eo : Ret (DinNet.set_out din o, @None error)
               = Ret (DinNet.set_out din o', None))
    by exact (eq_trans (eq_sym E) E').
  injection Eo as <-.
  exists z'. split; [exact Ev|].
  rewrite length_map, size_2 in L by lia. lia.
Qed.

Lemma NewDinNet_fits_the_placeholders_of_Train_witness :
  exists din o,
    NewDinNet 1 2 3 3 1 = Ret din
    /\ DinNet.Fwd din (Leaf "xUserProfile" [4; 1] NoInit)
                  (Leaf "xUserBehaviorMatrix" [4; 2 * 3] NoInit)
                  (Leaf "xItemFeature" [4; 3] NoInit)
                  (Leaf "xCtxFeature" [4; 1] NoInit) 4 2 3
       = Ret (DinNet.set_out din o, None)
    /\ shapeOf o = Some [4; 1].
Proof.
  destruct (NewDinNet_fits_the_placeholders_of_Train 1 2 3 1 4)
    as (din & o & E & F & Sh & _); try lia.
  exists din, o. auto.
Defined.

(** ** Training on a backend that may fail *)

Section TrainFailures.

Variable fails : list Event -> Event -> bool.

Lemma perform_app a b tr :
  perform fails (a ++ b) tr = bindR (perform fails a) (fun _ => perform fails b) tr.
Proof.
  revert tr. induction a as [|ev a IH]; intros tr; [reflexivity|].
  cbn [List.app perform]. unfold bindR.
  destruct ((if unchecked ev then emit ev else call fails ev) tr) as [[u|e|] tr'];
    [|reflexivity|reflexivity].
  rewrite IH. unfold bindR. reflexivity.
Qed.

Lemma bindR_ext {A B} (m : run A) (k1 k2 : A -> run B) tr :
  (forall a tr', k1 a tr' = k2 a tr') -> bindR m k1 tr = bindR m k2 tr.
Proof. intros Hk. unfold bindR. destruct (m tr) as [[a|e|] tr']; auto. Qed.

(** What a sequence of calls comes to: either every checked call succeeds
    and all are made, or the run ends at the first checked call that
    fails. *)
Lemma perform_spec evs :
  forall tr,
    (perform fails evs tr = (Ret tt, tr ++ evs)
     /\ forall d e r, evs = d ++ e :: r -> unchecked e = false ->
                      fails (tr ++ d) e = false)
    \/ (exists d e r,
           evs = d ++ e :: r /\ unchecked e = false /\ fails (tr ++ d) e = true
           /\ (forall d' e' r', d = d' ++ e' :: r' -> unchecked e' = false ->
                                fails (tr ++ d') e' = false)
           /\ perform fails evs tr
              = (Fatal (ErrBackend "backend call failed"), tr ++ d ++ [e])).
Proof.
  induction evs as [|ev evs IH]; intros tr.
  - left. split; [cbn; now rewrite app_nil_r|].
    intros d e r E. now destruct d.
  - cbn [perform]. unfold bindR.
    destruct (unchecked ev) eqn:Hu.
    + unfold emit.
      destruct (IH (tr ++ [ev])) as [(E & Hok)|(d & e & r & -> & He & Hf & Hfirst & E)].
      * left. rewrite E, <- app_assoc. split; [reflexivity|].
        intros d e r Ed He. destruct d as [|x d]; cbn in Ed.
        -- injection Ed as -> _. congruence.
        -- injection Ed as -> ->. specialize (Hok d e r eq_refl He).
           now rewrite <- app_assoc in Hok.
      * right. exists (ev :: d), e, r. split; [reflexivity|]. split; [exact He|].
        rewrite <- app_assoc in Hf. split; [exact Hf|]. split.
        -- intros d' e' r' Ed He'. destruct d' as [|x d']; cbn in Ed.
           ++ injection Ed as -> _. congruence.
           ++ injection Ed as -> ->. specialize (Hfirst d' e' r' eq_refl He').
              now rewrite <- app_assoc in Hfirst.
        -- rewrite E, <- app_assoc. reflexivity.
    + unfold call. destruct (fails tr ev) eqn:Hf.
      * right. exists [], ev, evs. rewrite app_nil_r.
        split; [reflexivity|]. split; [exact Hu|]. split; [exact Hf|].
        split; [|reflexivity]. intros d' e' r' Ed. now destruct d'.
      * destruct (IH (tr ++ [ev])) as [(E & Hok)|(d & e & r & -> & He & Hf' & Hfirst & E)].
        -- left. rewrite E, <- app_assoc. split; [reflexivity|].
           intros d e r Ed He. destruct d as [|x d]; cbn in Ed.
           ++ injection Ed as -> _. now rewrite app_nil_r.
           ++ injection Ed as -> ->. specialize (Hok d e r eq_refl He).
              now rewrite <- app_assoc in Hok.
        -- right. exists (ev :: d), e, r. split; [reflexivity|]. split; [exact He|].
           rewrite <- app_assoc in Hf'. split; [exact Hf'|]. split.
           ++ intros d' e' r' Ed He'. destruct d' as [|x d']; cbn in Ed.
              ** injection Ed as -> _. now rewrite app_nil_r.
              ** injection Ed as -> ->. specialize (Hfirst d' e' r' eq_refl He').
                 now rewrite <- app_assoc in Hfirst.
           ++ rewrite E, <- app_assoc. reflexivity.
Qed.

Context {M : Type} `{model M}.

Variables (numExamples batchSize : Z) (si : SampleInfo) (m : M) (ps : Nodes).
Variables (xUserProfile xUserBehaviorMatrix xItemFeature xCtxFeature y : Node).
Hypothesis Hps : learnable m = Ret ps.
Hypothesis HN : 0 <= numExamples.
Hypothesis HB : 0 < batchSize.

Lemma batch_perform b tr :
  batch fails si m xUserProfile xUserBehaviorMatrix xItemFeature xCtxFeature y
        (b * batchSize) (b * batchSize + batchSize) tr
  = perform fails (batch_events si xUserProfile xUserBehaviorMatrix xItemFeature
                                xCtxFeature y ps batchSize b) tr.
Proof.
  unfold batch, batch_events. cbv zeta. cbn [perform unchecked].
  do 11 (apply bindR_ext; clear tr; intros _ tr).
  unfold bindR at 1. unfold lift at 1. rewrite Hps.
  apply bindR_ext. intros _ tr'.
  unfold bindR, emit, ret. reflexivity.
Qed.

Lemma batch_loop_perform bs :
  (forall b, In b bs -> 0 <= b < numExamples / batchSize) ->
  forall tr,
    batch_loop fails numExamples batchSize si m
               xUserProfile xUserBehaviorMatrix xItemFeature xCtxFeature y bs tr
    = perform fails (flat_map (batch_events si xUserProfile xUserBehaviorMatrix
                                            xItemFeature xCtxFeature y ps batchSize)
                              bs) tr.
Proof.
  induction bs as [|b bs IH]; intros Hbs tr; [reflexivity|].
  cbn [batch_loop flat_map].
  assert (Hb : 0 <= b < numExamples / batchSize) by (apply Hbs; now left).
  assert (Hle : b * batchSize + batchSize <= numExamples).
  { assert (batchSize * (numExamples / batchSize) <= numExamples)
      by (apply Z.mul_div_le; lia). nia. }
  destruct (Z.geb_spec (b * batchSize) numExamples); [lia|].
  destruct (Z.gtb_spec (b * batchSize + batchSize) numExamples); [lia|].
  rewrite perform_app. unfold bindR. rewrite batch_perform.
  destruct (perform fails _ tr) as [[u|e|] tr']; try reflexivity.
  apply IH. intros x Hx. apply Hbs. now right.
Qed.

Lemma epoch_loop_perform epochs_left :
  forall tr,
    epoch_loop fails numExamples batchSize si m
               xUserProfile xUserBehaviorMatrix xItemFeature xCtxFeature y
               (numExamples / batchSize) epochs_left tr
    = perform fails (flat_map (epoch_events si xUserProfile xUserBehaviorMatrix
                                            xItemFeature xCtxFeature y ps batchSize
                                            (numExamples / batchSize))
                              epochs_left) tr.
Proof.
  induction epochs_left as [|i epochs_left IH]; intros tr; [reflexivity|].
  cbn [epoch_loop flat_map]. unfold epoch_events at 1.
  rewrite <- app_assoc, perform_app. unfold bindR at 1 3.
  rewrite batch_loop_perform by (intros b Hb; now apply range_In in Hb).
  destruct (perform fails _ tr) as [[u|e|] tr']; try reflexivity.
  cbn [List.app perform unchecked]. apply bindR_ext. intros _ tr''. apply IH.
Qed.

End TrainFailures.

Lemma cost_shape o B :
  shapeOf o = Some [B; 1] ->
  Must (G_Sub o (Leaf "y" [B; 1] NoInit))
  = Ret (App opSub [o; Leaf "y" [B; 1] NoInit])
  /\ Must (G_Square (App opSub [o; Leaf "y" [B; 1] NoInit]))
     = Ret (App opSquare [App opSub [o; Leaf "y" [B; 1] NoInit]])
  /\ Must (G_Mean (App opSquare [App opSub [o; Leaf "y" [B; 1] NoInit]]))
     = Ret (App opMean [App opSquare [App opSub [o; Leaf "y" [B; 1] NoInit]]]).
Proof.
  intros Hsh.
  assert (Hd : shapeOf (App opSub [o; Leaf "y" [B; 1] NoInit]) = Some [B; 1]).
  { cbn [shapeOf map all_some]. rewrite Hsh. cbn [option_map inferShape].
    now rewrite shape_eqb_refl. }
  assert (Hq : shapeOf (App opSquare [App opSub [o; Leaf "y" [B; 1] NoInit]])
               = Some [B; 1]).
  { change (shapeOf (App opSquare [?a])) with
      (match all_some [shapeOf a] with
       | Some shs => inferShape opSquare shs | None => None end).
    now rewrite Hd. }
  assert (Hm : shapeOf (App opMean
                          [App opSquare [App opSub [o; Leaf "y" [B; 1] NoInit]]])
               = Some []).
  { change (shapeOf (App opMean [?a])) with
      (match all_some [shapeOf a] with
       | Some shs => inferShape opMean shs | None => None end).
    now rewrite Hq. }
  unfold G_Sub, G_Square, G_Mean.
  now rewrite (Must_shape _ _ _ Hd), (Must_shape _ _ _ Hq), (Must_shape _ _ _ Hm).
Qed.

Lemma train_events_steps si o ps S D P I C N B E :
  List.length (filter is_Step (train_events si o ps S D P I C N B E))
  = (Z.to_nat E * Z.to_nat (N / B))%nat.
Proof.
  unfold train_events. cbn [List.app filter is_Step].
  rewrite filter_app, length_app. cbn [filter is_Step List.length].
  rewrite (filter_flat_map_length _ _ _ (Z.to_nat (N / B))).
  - rewrite range_length. lia.
  - intros i _. unfold epoch_events. rewrite filter_app, length_app.
    rewrite (filter_flat_map_length _ _ _ 1%nat) by (intros; reflexivity).
    rewrite range_length. cbn. lia.
Qed.

Lemma perform_emit fails ev evs tr :
  unchecked ev = true -> perform fails (ev :: evs) tr = perform fails evs (tr ++ [ev]).
Proof. intros Hu. cbn [perform]. now rewrite Hu. Qed.

Lemma perform_call_ok fails ev evs tr :
  unchecked ev = false -> fails tr ev = false ->
  perform fails (ev :: evs) tr = perform fails evs (tr ++ [ev]).
Proof. intros Hu Hf. cbn [perform]. rewrite Hu. unfold bindR, call. now rewrite Hf. Qed.

Lemma perform_call_fail fails ev evs tr :
  unchecked ev = false -> fails tr ev = true ->
  perform fails (ev :: evs) tr
  = (Fatal (ErrBackend "backend call failed"), tr ++ [ev]).
Proof. intros Hu Hf. cbn [perform]. rewrite Hu. unfold bindR, call. now rewrite Hf. Qed.

Section TrainOutcome.

Variable fails : list Event -> Event -> bool.
Context {M : Type} `{model M}.

Variables (uBehaviorSize uBehaviorDim uProfileDim iFeatureDim cFeatureDim
           numExamples batchSize epochs : Z).
Variables (si : SampleInfo) (m m' : M) (o : Node) (ps : Nodes).

Hypothesis HFwd :
  Fwd m (Leaf "xUserProfile" [batchSize; uProfileDim] NoInit)
      (Leaf "xUserBehaviorMatrix" [batchSize; uBehaviorSize * uBehaviorDim] NoInit)
      (Leaf "xItemFeature" [batchSize; iFeatureDim] NoInit)
      (Leaf "xCtxFeature" [batchSize; cFeatureDim] NoInit)
      batchSize uBehaviorSize uBehaviorDim
  = Ret (m', None).
Hypothesis HOut : Out m' = Some o.
Hypothesis Hsh : shapeOf o = Some [batchSize; 1].
Hypothesis Hps : learnable m' = Ret ps.

Local Abbreviation events :=
  (train_events si o ps uBehaviorSize uBehaviorDim uProfileDim iFeatureDim
                cFeatureDim numExamples batchSize epochs).

(** [Train] makes the calls of [train_events] in their order until one
    fails. *)
Lemma Train_perform :
  0 <= numExamples -> 0 < batchSize ->
  Train fails uBehaviorSize uBehaviorDim uProfileDim iFeatureDim cFeatureDim
        numExamples batchSize epochs si m []
  = match perform fails events [] with
    | (Ret _, tr) => (Ret None, tr)
    | (Fatal e, tr) => (Fatal e, tr)
    | (Panic, tr) => (Panic, tr ++ [EvClose])
    end.
Proof.
  intros HN HB.
  destruct (cost_shape o batchSize Hsh) as (Ed & Eq & Em).
  unfold Train, G_NewMatrix, G_NewTensor.
  unfold bindR at 1. unfold emit at 1.
  unfold bindR at 1. unfold lift at 1. rewrite HFwd. cbn [fst snd].
  unfold bindR at 1. unfold lift at 1. rewrite HOut.
  unfold bindR at 1. unfold lift at 1. rewrite Ed.
  unfold bindR at 1. unfold lift at 1. rewrite Eq.
  unfold bindR at 1. unfold lift at 1. rewrite Em.
  unfold bindR at 1. unfold lift at 1. rewrite Hps.
  unfold train_events. cbn [List.app].
  rewrite perform_emit by reflexivity. cbn [List.app].
  unfold bindR at 1. unfold call at 1.
  destruct (fails [EvSeed 2120] (EvGrad _ ps)) eqn:F1;
    [now rewrite perform_call_fail by (reflexivity || exact F1)|].
  rewrite perform_call_ok by (reflexivity || exact F1). cbn [List.app].
  unfold bindR at 1. unfold call at 1.
  destruct (fails _ EvCompile) eqn:F2;
    [now rewrite perform_call_fail by (reflexivity || exact F2)|].
  rewrite perform_call_ok by (reflexivity || exact F2). cbn [List.app].
  unfold bindR at 1. unfold lift at 1.
  unfold bindR at 1. unfold emit at 1.
  unfold bindR at 1. unfold emit at 1.
  rewrite !perform_emit by reflexivity. cbn [List.app].
  destruct (Z.eqb_spec batchSize 0); [lia|].
  rewrite Z.quot_div_nonneg by lia.
  erewrite epoch_loop_perform by eassumption.
  rewrite perform_app. unfold bindR.
  destruct (perform fails _ _) as [[u''|e|] tr3]; reflexivity.
Qed.

End TrainOutcome.

Lemma batch_events_slices si xp ub it ctx y ps B b ev :
  In ev (batch_events si xp ub it ctx y ps B b) ->
  forall rows,
    (ev = EvSliceTargets rows \/ exists cols, ev = EvSliceInputs rows cols) ->
    rows = (b * B, b * B + B).
Proof.
  intros Hin rows Hev. unfold batch_events in Hin. cbn [In] in Hin.
  repeat (destruct Hin as [<-|Hin];
          [destruct Hev as [Hev|(cols & Hev)]; try discriminate Hev;
           now injection Hev as <- |]).
  destruct Hin.
Qed.

Lemma train_events_slices si o ps S D P I C N B E ev :
  0 <= N -> 0 < B ->
  In ev (train_events si o ps S D P I C N B E) ->
  forall rows,
    (ev = EvSliceTargets rows \/ exists cols, ev = EvSliceInputs rows cols) ->
    exists b, 0 <= b < N / B /\ rows = (b * B, b * B + B) /\ b * B + B <= N.
Proof.
  intros HN HB Hin rows Hev. unfold train_events in Hin.
  cbn [List.app In] in Hin.
  repeat (destruct Hin as [<-|Hin];
          [destruct Hev as [Hev|(cols & Hev)]; discriminate Hev|]).
  apply in_app_iff in Hin as [Hin|Hin].
  - apply in_flat_map in Hin as (i & _ & Hin). unfold epoch_events in Hin.
    apply in_app_iff in Hin as [Hin|Hin].
    + apply in_flat_map in Hin as (b & Hb & Hin). apply range_In in Hb.
      exists b. split; [exact Hb|]. split.
      * eapply batch_events_slices; eassumption.
      * assert (B * (N / B) <= N) by (apply Z.mul_div_le; lia). nia.
    + destruct Hin as [<-|[]]. destruct Hev as [Hev|(cols & Hev)]; discriminate Hev.
  - destruct Hin as [<-|[]]. destruct Hev as [Hev|(cols & Hev)]; discriminate Hev.
Qed.

Lemma train_events_close si o ps S D P I C N B E d e r :
  train_events si o ps S D P I C N B E = d ++ e :: r ->
  unchecked e = false ->
  ~ In EvClose (d ++ [e]).
Proof.
  intros Ev Hu Hin.
  assert (Hbody : exists body,
             train_events si o ps S D P I C N B E = body ++ [EvClose]
             /\ ~ In EvClose body).
  { eexists. split.
    - unfold train_events. rewrite app_assoc. reflexivity.
    - intros H. apply in_app_iff in H as [H|H].
      + cbn [In] in H. repeat (destruct H as [H|H]; [discriminate H|]). destruct H.
      + apply in_flat_map in H as (i & _ & H). unfold epoch_events in H.
        apply in_app_iff in H as [H|H].
        * apply in_flat_map in H as (b & _ & H). unfold batch_events in H.
          cbn [In] in H. repeat (destruct H as [H|H]; [discriminate H|]). destruct H.
        * destruct H as [H|[]]. discriminate H. }
  destruct Hbody as (body & Eb & Hno). rewrite Eb in Ev.
  destruct (exists_last (l := e :: r)) as (r' & x & Er); [discriminate|].
  rewrite Er, app_assoc in Ev. apply app_inj_tail in Ev as [-> <-].
  destruct r' as [|e' r'].
  - destruct r; [|destruct r; discriminate Er].
    injection Er as ->. discriminate Hu.
  - cbn in Er. injection Er as <- _.
    apply Hno. rewrite in_app_iff in Hin |- *. cbn [In] in Hin |- *. tauto.
Qed.

Section TrainOutcomes.

Variable fails : list Event -> Event -> bool.
Context {M : Type} `{model M}.

(** What a run of [Train] comes to once the graph is built. *)
Lemma Train_outcome
      (uBehaviorSize uBehaviorDim uProfileDim iFeatureDim cFeatureDim
       numExamples batchSize epochs : Z)
      (si : SampleInfo) (m m' : M) (o : Node) (ps : Nodes) :
  0 <= numExamples -> 0 < batchSize ->
  Fwd m (Leaf "xUserProfile" [batchSize; uProfileDim] NoInit)
      (Leaf "xUserBehaviorMatrix" [batchSize; uBehaviorSize * uBehaviorDim] NoInit)
      (Leaf "xItemFeature" [batchSize; iFeatureDim] NoInit)
      (Leaf "xCtxFeature" [batchSize; cFeatureDim] NoInit)
      batchSize uBehaviorSize uBehaviorDim
  = Ret (m', None) ->
  Out m' = Some o ->
  shapeOf o = Some [batchSize; 1] ->
  learnable m' = Ret ps ->
  let events := train_events si o ps uBehaviorSize uBehaviorDim uProfileDim
                             iFeatureDim cFeatureDim numExamples batchSize epochs in
  (Train fails uBehaviorSize uBehaviorDim uProfileDim iFeatureDim cFeatureDim
         numExamples batchSize epochs si m []
   = (Ret None, events)
   /\ forall d e r, events = d ++ e :: r -> unchecked e = false -> fails d e = false)
  \/ (exists d e r,
         events = d ++ e :: r /\ unchecked e = false /\ fails d e = true
         /\ (forall d' e' r', d = d' ++ e' :: r' -> unchecked e' = false ->
                              fails d' e' = false)
         /\ Train fails uBehaviorSize uBehaviorDim uProfileDim iFeatureDim
                  cFeatureDim numExamples batchSize epochs si m []
            = (Fatal (ErrBackend "backend call failed"), d ++ [e])).
Proof.
  intros HN HB HFwd HOut Hsh Hps events.
  rewrite (Train_perform fails _ _ _ _ _ _ _ _ si m m' o ps HFwd HOut Hsh Hps HN HB).
  fold events.
  destruct (perform_spec fails events [])
    as [(E & Hok)|(d & e & r & Ev & Hu & Hf & Hfirst & E)].
  - left. rewrite E. split; [reflexivity | exact Hok].
  - right. exists d, e, r. rewrite E. cbn [List.app] in *. auto 10.
Qed.

(** X10: every error of the backend ends the run at once.  For a [si]
    that is not nil and a backend whose calls return, normally or with an
    error: whatever calls fail, [Train] makes the calls of [train_events] in
    their order up to the first checked call that fails, and exits there
    (without the deferred [vm.Close], and with no call after it); it returns
    normally, after all the calls, exactly when no checked call fails. *)
Theorem Train_stops_at_the_first_failing_call
        (uBehaviorSize uBehaviorDim uProfileDim iFeatureDim cFeatureDim
         numExamples batchSize epochs : Z)
        (si : SampleInfo) (m m' : M) (o : Node) (ps : Nodes) :
  0 <= numExamples -> 0 < batchSize ->
  Fwd m (Leaf "xUserProfile" [batchSize; uProfileDim] NoInit)
      (Leaf "xUserBehaviorMatrix" [batchSize; uBehaviorSize * uBehaviorDim] NoInit)
      (Leaf "xItemFeature" [batchSize; iFeatureDim] NoInit)
      (Leaf "xCtxFeature" [batchSize; cFeatureDim] NoInit)
      batchSize uBehaviorSize uBehaviorDim
  = Ret (m', None) ->
  Out m' = Some o ->
  shapeOf o = Some [batchSize; 1] ->
  learnable m' = Ret ps ->
  (Train fails uBehaviorSize uBehaviorDim uProfileDim iFeatureDim cFeatureDim
         numExamples batchSize epochs si m []
   = (Ret None,
      train_events si o ps uBehaviorSize uBehaviorDim uProfileDim iFeatureDim
                   cFeatureDim numExamples batchSize epochs)
   /\ forall d e r,
       train_events si o ps uBehaviorSize uBehaviorDim uProfileDim iFeatureDim
                    cFeatureDim numExamples batchSize epochs = d ++ e :: r ->
       unchecked e = false -> fails d e = false)
  \/ (exists d e r,
         train_events si o ps uBehaviorSize uBehaviorDim uProfileDim iFeatureDim
                      cFeatureDim numExamples batchSize epochs = d ++ e :: r
         /\ unchecked e = false /\ fails d e = true
         /\ (forall d' e' r', d = d' ++ e' :: r' -> unchecked e' = false ->
                              fails d' e' = false)
         /\ Train fails uBehaviorSize uBehaviorDim uProfileDim iFeatureDim
                  cFeatureDim numExamples batchSize epochs si m []
            = (Fatal (ErrBackend "backend call failed"), d ++ [e])
         /\ ~ In EvClose (d ++ [e])).
Proof.
  intros HN HB HFwd HOut Hsh Hps.
  destruct (Train_outcome _ _ _ _ _ _ _ epochs si m m' o ps HN HB HFwd HOut Hsh Hps)
    as [Hok|(d & e & r & Ev & Hu & Hf & Hfirst & E)].
  - left. exact Hok.
  - right. exists d, e, r. repeat (split; [assumption|]).
    eapply train_events_close; eassumption.
Qed.

(** X11: the batches [Train] reads are full and never reach past
    [floor(N/B) * B]: every slice of the inputs or the targets it asks for,
    on any backend, is the rows [b*B, b*B + B) of a batch [b < floor(N/B)],
    within the [N] examples.  So the [break] and the clamp of [end] in the
    batch loop never take effect, and the last [N mod B] examples are never
    read. *)
Theorem Train_reads_only_full_batches
        (uBehaviorSize uBehaviorDim uProfileDim iFeatureDim cFeatureDim
         numExamples batchSize epochs : Z)
        (si : SampleInfo) (m m' : M) (o : Node) (ps : Nodes) :
  0 <= numExamples -> 0 < batchSize ->
  Fwd m (Leaf "xUserProfile" [batchSize; uProfileDim] NoInit)
      (Leaf "xUserBehaviorMatrix" [batchSize; uBehaviorSize * uBehaviorDim] NoInit)
      (Leaf "xItemFeature" [batchSize; iFeatureDim] NoInit)
      (Leaf "xCtxFeature" [batchSize; cFeatureDim] NoInit)
      batchSize uBehaviorSize uBehaviorDim
  = Ret (m', None) ->
  Out m' = Some o ->
  shapeOf o = Some [batchSize; 1] ->
  learnable m' = Ret ps ->
  forall rows,
    (In (EvSliceTargets rows)
        (snd (Train fails uBehaviorSize uBehaviorDim uProfileDim iFeatureDim
                    cFeatureDim numExamples batchSize epochs si m []))
     \/ exists cols,
         In (EvSliceInputs rows cols)
            (snd (Train fails uBehaviorSize uBehaviorDim uProfileDim iFeatureDim
                        cFeatureDim numExamples batchSize epochs si m []))) ->
    exists b,
      0 <= b < numExamples / batchSize
      /\ rows = (b * batchSize, b * batchSize + batchSize)
      /\ b * batchSize + batchSize <= numExamples.
Proof.
  intros HN HB HFwd HOut Hsh Hps rows Hin.
  assert (Hsub : forall ev,
             In ev (snd (Train fails uBehaviorSize uBehaviorDim uProfileDim
                               iFeatureDim cFeatureDim numExamples batchSize
                               epochs si m [])) ->
             In ev (train_events si o ps uBehaviorSize uBehaviorDim uProfileDim
                                 iFeatureDim cFeatureDim numExamples batchSize
                                 epochs)).
  { intros ev Hev.
    destruct (Train_outcome _ _ _ _ _ _ _ epochs si m m' o ps HN HB HFwd HOut Hsh Hps)
      as [(E & _)|(d & e & r & Ev & _ & _ & _ & E)]; rewrite E in Hev; cbn [snd] in Hev.
    - exact Hev.
    - rewrite Ev. rewrite in_app_iff in Hev |- *. cbn [In] in Hev |- *. tauto. }
  destruct Hin as [Hin|(cols & Hin)]; apply Hsub in Hin;
    eapply (train_events_slices _ _ _ _ _ _ _ _ _ _ _ _ HN HB Hin); eauto.
Qed.

(** An error of [Fwd] ends the run before anything is built: when the
    forward pass returns an error value, [Train] exits with it right after
    seeding the random generator: no gradient, no compilation, no batch,
    no [vm.Close]. *)
Lemma Train_Fwd_error
      (uBehaviorSize uBehaviorDim uProfileDim iFeatureDim cFeatureDim
       numExamples batchSize epochs : Z)
      (si : SampleInfo) (m m' : M) (err : error) :
  Fwd m (Leaf "xUserProfile" [batchSize; uProfileDim] NoInit)
      (Leaf "xUserBehaviorMatrix" [batchSize; uBehaviorSize * uBehaviorDim] NoInit)
      (Leaf "xItemFeature" [batchSize; iFeatureDim] NoInit)
      (Leaf "xCtxFeature" [batchSize; cFeatureDim] NoInit)
      batchSize uBehaviorSize uBehaviorDim
  = Ret (m', Some err) ->
  Train fails uBehaviorSize uBehaviorDim uProfileDim iFeatureDim cFeatureDim
        numExamples batchSize epochs si m []
  = (Fatal err, [EvSeed 2120]).
Proof.
  intros HFwd. unfold Train, G_NewMatrix, G_NewTensor.
  unfold bindR at 1. unfold emit at 1.
  unfold bindR at 1. unfold lift at 1. rewrite HFwd. reflexivity.
Qed.

(** X12: [Train] divides the number of examples by the batch size: with batch
    size zero it panics (integer divide by zero) once the graph is built,
    the gradient taken and the machine created, and the deferred
    [vm.Close] runs; no batch is read. *)
Theorem Train_panics_on_batch_size_zero
        (uBehaviorSize uBehaviorDim uProfileDim iFeatureDim cFeatureDim
         numExamples epochs : Z)
        (si : SampleInfo) (m m' : M) (o : Node) (ps : Nodes) :
  (forall tr ev, fails tr ev = false) ->
  Fwd m (Leaf "xUserProfile" [0; uProfileDim] NoInit)
      (Leaf "xUserBehaviorMatrix" [0; uBehaviorSize * uBehaviorDim] NoInit)
      (Leaf "xItemFeature" [0; iFeatureDim] NoInit)
      (Leaf "xCtxFeature" [0; cFeatureDim] NoInit)
      0 uBehaviorSize uBehaviorDim
  = Ret (m', None) ->
  Out m' = Some o ->
  shapeOf o = Some [0; 1] ->
  learnable m' = Ret ps ->
  Train fails uBehaviorSize uBehaviorDim uProfileDim iFeatureDim cFeatureDim
        numExamples 0 epochs si m []
  = (Panic,
     [EvSeed 2120;
      EvGrad (App opMean [App opSquare [App opSub [o; Leaf "y" [0; 1] NoInit]]]) ps;
      EvCompile; EvNewTapeMachine ps; EvNewAdamSolver 0.001; EvClose]).
Proof.
  intros Hnf HFwd HOut Hsh Hps.
  destruct (cost_shape o 0 Hsh) as (Ed & Eq & Em).
  unfold Train, G_NewMatrix, G_NewTensor.
  unfold bindR at 1. unfold emit at 1.
  unfold bindR at 1. unfold lift at 1. rewrite HFwd. cbn [fst snd].
  unfold bindR at 1. unfold lift at 1. rewrite HOut.
  unfold bindR at 1. unfold lift at 1. rewrite Ed.
  unfold bindR at 1. unfold lift at 1. rewrite Eq.
  unfold bindR at 1. unfold lift at 1. rewrite Em.
  unfold bindR at 1. unfold lift at 1. rewrite Hps.
  unfold bindR at 1. rewrite (call_ok fails Hnf).
  unfold bindR at 1. rewrite (call_ok fails Hnf).
  unfold bindR at 1. unfold lift at 1.
  unfold bindR at 1. unfold emit at 1.
  unfold bindR at 1. unfold emit at 1.
  reflexivity.
Qed.

End TrainOutcomes.

Lemma Train_stops_at_the_first_failing_call_witness :
  exists m' o ps,
    SimpleMLP.Fwd example_mlp (Leaf "xUserProfile" [2; 1] NoInit)
                  (Leaf "xUserBehaviorMatrix" [2; 2 * 1] NoInit)
                  (Leaf "xItemFeature" [2; 1] NoInit)
                  (Leaf "xCtxFeature" [2; 1] NoInit) 2 2 1
    = Ret (m', None)
    /\ fst (Train (M := SimpleMLP.t) second_run_fails 2 1 1 1 1 7 2 3
                  si_example example_mlp [])
       = Fatal (ErrBackend "backend call failed")
    /\ ((Train (M := SimpleMLP.t) second_run_fails 2 1 1 1 1 7 2 3
               si_example example_mlp []
         = (Ret None, train_events si_example o ps 2 1 1 1 1 7 2 3)
         /\ forall d e r,
             train_events si_example o ps 2 1 1 1 1 7 2 3 = d ++ e :: r ->
             unchecked e = false -> second_run_fails d e = false)
        \/ (exists d e r,
               train_events si_example o ps 2 1 1 1 1 7 2 3 = d ++ e :: r
               /\ unchecked e = false /\ second_run_fails d e = true
               /\ (forall d' e' r', d = d' ++ e' :: r' -> unchecked e' = false ->
                                    second_run_fails d' e' = false)
               /\ Train (M := SimpleMLP.t) second_run_fails 2 1 1 1 1 7 2 3
                        si_example example_mlp []
                  = (Fatal (ErrBackend "backend call failed"), d ++ [e])
               /\ ~ In EvClose (d ++ [e]))).
Proof.
  do 3 eexists. split; [vm_compute; reflexivity|]. split; [vm_compute; reflexivity|].
  eapply (Train_stops_at_the_first_failing_call
           (M := SimpleMLP.t) second_run_fails 2 1 1 1 1 7 2 3 si_example example_mlp);
    [lia | lia | vm_compute; reflexivity | reflexivity | reflexivity | reflexivity].
Defined.

Lemma Train_reads_only_full_batches_witness :
  exists m' o,
    SimpleMLP.Fwd example_mlp (Leaf "xUserProfile" [2; 1] NoInit)
                  (Leaf "xUserBehaviorMatrix" [2; 2 * 1] NoInit)
                  (Leaf "xItemFeature" [2; 1] NoInit)
                  (Leaf "xCtxFeature" [2; 1] NoInit) 2 2 1
    = Ret (m', None)
    /\ SimpleMLP.Out m' = Some o
    /\ forall rows,
        (In (EvSliceTargets rows)
            (snd (Train (M := SimpleMLP.t) second_run_fails 2 1 1 1 1 7 2 3
                        si_example example_mlp []))
         \/ exists cols,
             In (EvSliceInputs rows cols)
                (snd (Train (M := SimpleMLP.t) second_run_fails 2 1 1 1 1 7 2 3
                            si_example example_mlp []))) ->
        exists b, 0 <= b < 7 / 2 /\ rows = (b * 2, b * 2 + 2) /\ b * 2 + 2 <= 7.
Proof.
  do 2 eexists. split; [vm_compute; reflexivity|]. split; [reflexivity|].
  eapply (Train_reads_only_full_batches
            (M := SimpleMLP.t) second_run_fails 2 1 1 1 1 7 2 3 si_example example_mlp);
    [lia | lia | vm_compute; reflexivity | reflexivity | reflexivity | reflexivity].
Defined.

Lemma Train_panics_on_batch_size_zero_witness :
  exists o ps,
    Train (M := SimpleMLP.t) never_fails 2 1 1 1 1 7 0 3 si_example example_mlp []
    = (Panic,
       [EvSeed 2120;
        EvGrad (App opMean [App opSquare [App opSub [o; Leaf "y" [0; 1] NoInit]]]) ps;
        EvCompile; EvNewTapeMachine ps; EvNewAdamSolver 0.001; EvClose]).
Proof.
  do 2 eexists.
  eapply (Train_panics_on_batch_size_zero
            (M := SimpleMLP.t) never_fails 2 1 1 1 1 7 3 si_example example_mlp);
    [intros; reflexivity | vm_compute; reflexivity | reflexivity | reflexivity
    | reflexivity].
Defined.

(** X13: [Train] hands its own [uBehaviorDim] and [iFeatureDim] to [Fwd]: with a
    DIN model and two different values it exits with the dimension mismatch
    right after seeding the random generator, whatever the model was built
    for and whatever the backend does: no gradient is taken, nothing is
    compiled, no batch is read and [vm.Close] is not run. *)
Theorem Train_exits_on_DinNet_dimension_mismatch
        (fails : list Event -> Event -> bool)
        (uBehaviorSize uBehaviorDim uProfileDim iFeatureDim cFeatureDim
         numExamples batchSize epochs : Z)
        (si : SampleInfo) (din : DinNet.t) :
  uBehaviorDim <> iFeatureDim ->
  Train (M := DinNet.t) fails uBehaviorSize uBehaviorDim uProfileDim iFeatureDim
        cFeatureDim numExamples batchSize epochs si din []
  = (Fatal (ErrDimMismatch uBehaviorDim iFeatureDim), [EvSeed 2120]).
Proof.
  intros Hne. apply Train_Fwd_error with (m' := din).
  cbn [Fwd DinNet_model]. unfold DinNet.Fwd. cbn [shapeOf bind].
  unfold index. change (1 <? 0) with false. change (Z.to_nat 1) with 1%nat.
  cbn [nth_error bind].
  destruct (Z.eqb_spec uBehaviorDim iFeatureDim); [contradiction | reflexivity].
Qed.

Lemma Train_exits_on_DinNet_dimension_mismatch_witness :
  Train (M := DinNet.t) never_fails 2 1 1 3 1 7 2 3 si_example example_din []
  = (Fatal (ErrDimMismatch 1 3), [EvSeed 2120]).
Proof.
  apply (Train_exits_on_DinNet_dimension_mismatch never_fails 2 1 1 3 1 7 2 3). lia.
Defined.

Lemma perform_never_fails fails evs :
  (forall tr ev, fails tr ev = false) ->
  forall tr, perform fails evs tr = (Ret tt, tr ++ evs).
Proof.
  intros Hnf tr.
  destruct (perform_spec fails evs tr) as [(E & _)|(d & e & r & _ & _ & Hf & _)];
    [exact E | now rewrite Hnf in Hf].
Qed.

(** X14: a model as [NewDinNet] returns it can be trained for the dimensions it
    was built for: for every slot count, feature dimensions, number of
    examples and epochs, and every batch size above zero, [Train] on a
    backend that does not fail returns normally, asks for the gradient with
    respect to the [3 + 2*S] nodes of [learnable()], and makes
    [E * floor(N/B)] optimizer steps. *)
Theorem Train_completes_on_a_new_DinNet
        (fails : list Event -> Event -> bool)
        (P S D C N B E : Z) (si : SampleInfo) :
  (forall tr ev, fails tr ev = false) ->
  0 < B -> 0 <= S -> 0 <= D -> 0 <= P -> 0 <= C -> 0 <= N ->
  exists din o ps,
    NewDinNet P S D D C = Ret din
    /\ DinNet.learnable din = Ret ps
    /\ Z.of_nat (List.length ps) = 3 + 2 * S
    /\ Train (M := DinNet.t) fails S D P D C N B E si din []
       = (Ret None, train_events si o ps S D P D C N B E)
    /\ In (EvGrad (App opMean [App opSquare [App opSub [o; Leaf "y" [B; 1] NoInit]]])
                  ps)
          (train_events si o ps S D P D C N B E)
    /\ List.length (filter is_Step (train_events si o ps S D P D C N B E))
       = (Z.to_nat E * Z.to_nat (N / B))%nat.
Proof.
  intros Hnf HB HS HD HP HC HN.
  destruct (NewDinNet_Fwd_returns P S D C B HB HS HD HP HC) as (o & EF & Ho).
  set (din := DinNet.mk P S D D C
                        (Leaf "mlp0" [P + D + D + C; 200] (Gaussian 0 1))
                        (Leaf "mlp1" [200; 80] (Gaussian 0 1))
                        (Leaf "mlp2" [80; 1] (Gaussian 0 1)) 0.001 0.001
                        (map (att0_leaf S D D) (range S))
                        (map att1_leaf (range S)) None) in *.
  set (ps := ([DinNet.mlp0 din; DinNet.mlp1 din; DinNet.mlp2 din] ++ DinNet.att0 din)
               ++ DinNet.att1 din).
  assert (Hps : forall d, DinNet.uBehaviorSize d = S ->
                          DinNet.learnable d
                          = Ret (([DinNet.mlp0 d; DinNet.mlp1 d; DinNet.mlp2 d]
                                    ++ DinNet.att0 d) ++ DinNet.att1 d)).
  { intros d Hd. unfold DinNet.learnable. rewrite Hd.
    destruct (Z.ltb_spec (3 + 2 * S) 3); [lia | reflexivity]. }
  exists din, o, ps.
  split.
  { unfold NewDinNet. rewrite Z.eqb_refl. cbn [negb].
    unfold make_check. destruct (Z.ltb_spec S 0); [lia | reflexivity]. }
  split; [apply (Hps din eq_refl)|].
  split.
  { unfold ps, din. cbn [DinNet.mlp0 DinNet.mlp1 DinNet.mlp2 DinNet.att0 DinNet.att1].
    rewrite !length_app, !length_map, !range_length. cbn [List.length]. lia. }
  split.
  { destruct (@Train_outcome fails DinNet.t DinNet_model S D P D C N B E si
                            din (DinNet.set_out din o) o ps
                            HN HB EF eq_refl Ho (Hps (DinNet.set_out din o) eq_refl))
      as [(Etr & _)|(d & e & r & _ & _ & Hf & _)];
      [exact Etr | now rewrite Hnf in Hf]. }
  split; [unfold train_events; cbn [List.app In]; tauto|].
  apply train_events_steps.
Qed.

Lemma Train_completes_on_a_new_DinNet_witness :
  exists din o ps,
    NewDinNet 1 2 3 3 1 = Ret din
    /\ Train (M := DinNet.t) never_fails 2 3 1 3 1 7 2 3 si_example din []
       = (Ret None, train_events si_example o ps 2 3 1 3 1 7 2 3)
    /\ List.length (filter is_Step (train_events si_example o ps 2 3 1 3 1 7 2 3))
       = 9%nat.
Proof.
  destruct (Train_completes_on_a_new_DinNet never_fails 1 2 3 1 7 2 3 si_example)
    as (din & o & ps & E & _ & _ & T & _ & L); try lia; [intros; reflexivity|].
  exists din, o, ps. split; [exact E|]. split; [exact T | exact L].
Defined.

(** X15: a model as [NewSimpleMLP] returns it can be trained for the
    dimensions it was built for, whatever the behavior and item dimensions
    are: for every batch size above zero, [Train] on a backend that does not
    fail returns normally, asks for the gradient with respect to
    [learnable()], and makes [E * floor(N/B)] optimizer steps. *)
Theorem Train_completes_on_a_new_SimpleMLP
        (fails : list Event -> Event -> bool)
        (P S D I C N B E : Z) (si : SampleInfo) :
  (forall tr ev, fails tr ev = false) ->
  0 < B -> 0 <= S -> 0 <= D -> 0 <= P -> 0 <= I -> 0 <= C -> 0 <= N ->
  exists mlp o,
    NewSimpleMLP P S D I C = Ret mlp
    /\ Train (M := SimpleMLP.t) fails S D P I C N B E si mlp []
       = (Ret None, train_events si o (SimpleMLP.learnable mlp) S D P I C N B E)
    /\ In (EvGrad (App opMean [App opSquare [App opSub [o; Leaf "y" [B; 1] NoInit]]])
                  (SimpleMLP.learnable mlp))
          (train_events si o (SimpleMLP.learnable mlp) S D P I C N B E)
    /\ List.length (filter is_Step
                           (train_events si o (SimpleMLP.learnable mlp)
                                         S D P I C N B E))
       = (Z.to_nat E * Z.to_nat (N / B))%nat.
Proof.
  intros Hnf HB HS HD HP HI HC HN.
  destruct (NewSimpleMLP_Fwd_returns P S D I C B (Z.lt_le_incl _ _ HB) HS HD HP HI HC)
    as (o & EF & Ho).
  set (mlp := SimpleMLP.mk (Leaf "mlp0" [P + S * D + I + C; 200] (Gaussian 0 1))
                           (Leaf "mlp1" [200; 80] (Gaussian 0 1))
                           (Leaf "mlp2" [80; 1] (Gaussian 0 1)) 0.01 0.01 None) in *.
  exists mlp, o. split; [reflexivity|]. split.
  { destruct (@Train_outcome fails SimpleMLP.t SimpleMLP_model S D P I C N B E si
                            mlp (SimpleMLP.set_out mlp o) o (SimpleMLP.learnable mlp)
                            HN HB EF eq_refl Ho eq_refl)
      as [(Etr & _)|(d & e & r & _ & _ & Hf & _)];
      [exact Etr | now rewrite Hnf in Hf]. }
  split; [unfold train_events; cbn [List.app In]; tauto|].
  apply train_events_steps.
Qed.

Lemma Train_completes_on_a_new_SimpleMLP_witness :
  exists mlp o,
    NewSimpleMLP 1 2 3 5 1 = Ret mlp
    /\ Train (M := SimpleMLP.t) never_fails 2 3 1 5 1 7 2 3 si_example mlp []
       = (Ret None,
          train_events si_example o (SimpleMLP.learnable mlp) 2 3 1 5 1 7 2 3).
Proof.
  destruct (Train_completes_on_a_new_SimpleMLP never_fails 1 2 3 5 1 7 2 3 si_example)
    as (mlp & o & E & T & _); try lia; [intros; reflexivity|].
  exists mlp, o. split; [exact E | exact T].
Defined.
